(** * Client-side components of the team collaboration front end

    A shallow embedding of the event handlers of
    - [ProjectSidebar]        (src/unnamed/part_000),
    - [InviteNotifications]   (src/frontend/src/components/InviteNotifications.jsx),
    - [ThinkBuddyAssistant]   (second document of the same file),
    - [AddProjectModal]       (src/frontend/src/components/AddProjectModal.jsx),
    and the properties of section 8 of the specification.

    Conventions of the embedding.
    - A JavaScript string is the list of its UTF-16 code units.
    - A component is a record of its [useState] cells.  A handler closes
      over the render that created it, so it reads props and state from
      a snapshot and acts on the current state through setters only.
      Its run is an exception outcome and a list of effects in program
      order: setter calls, calls to collaborators (auth provider,
      network, toasts, parent callbacks), and the [await]s at which it
      yields to the event loop.
    - What the outside world answers (the token, the HTTP response, its
      body, the clock) is an argument of the handler, so every theorem
      quantifies over all answers.  Toasts and parent callbacks return
      normally.
    - Request URLs are given relative to the API base
      ([process.env.NEXT_PUBLIC_API_URL || "http://127.0.0.2:8000"]).
    - [console.error] calls are not recorded. *)

From Stdlib Require Import List ZArith NArith String Ascii Bool Arith Lia.
From Stdlib Require Import DecimalString.
Import ListNotations.

Set Implicit Arguments.

(* ================================================================== *)
(** * JavaScript strings *)
(* ================================================================== *)

Module Js.

(** UTF-16 code units. *)
Definition jsstring := list N.

(** An ASCII literal of the source as a JavaScript string. *)
Definition js (s : string) : jsstring :=
  map N_of_ascii (list_ascii_of_string s).
Arguments js : simpl never.

Fixpoint eqb (a b : jsstring) : bool :=
  match a, b with
  | [], [] => true
  | x :: a', y :: b' => N.eqb x y && eqb a' b'
  | _, _ => false
  end.

(** Truthiness of a string: only the empty string is falsy. *)
Definition truthy (s : jsstring) : bool :=
  match s with [] => false | _ :: _ => true end.

(** [x || d] where [x] is a string, [null] or [undefined]. *)
Definition or_else (x : option jsstring) (d : jsstring) : jsstring :=
  match x with
  | Some s => if truthy s then s else d
  | None => d
  end.

(** ECMAScript WhiteSpace and LineTerminator code points: the set
    removed by [String.prototype.trim] and matched by [\s]. *)
Definition isWhiteSpace (c : N) : bool :=
  (((9 <=? c) && (c <=? 13)) || (c =? 32) || (c =? 160) || (c =? 5760)
   || ((8192 <=? c) && (c <=? 8202)) || (c =? 8232) || (c =? 8233)
   || (c =? 8239) || (c =? 8287) || (c =? 12288) || (c =? 65279))%N.

Fixpoint trimStart (s : jsstring) : jsstring :=
  match s with
  | [] => []
  | c :: s' => if isWhiteSpace c then trimStart s' else s
  end.

Definition trimEnd (s : jsstring) : jsstring := rev (trimStart (rev s)).

(** [s.trim()] *)
Definition trim (s : jsstring) : jsstring := trimEnd (trimStart s).

Fixpoint startsWith (p s : jsstring) : bool :=
  match p, s with
  | [], _ => true
  | x :: p', y :: s' => N.eqb x y && startsWith p' s'
  | _ :: _, [] => false
  end.

(** [s.includes(p)] *)
Fixpoint includes (s p : jsstring) : bool :=
  startsWith p s ||
  match s with
  | [] => false
  | _ :: s' => includes s' p
  end.

(** [s.split(sep)] for a one-unit separator: never the empty array. *)
Fixpoint split (sep : N) (s : jsstring) : list jsstring :=
  match s with
  | [] => [[]]
  | c :: s' =>
      if N.eqb c sep then [] :: split sep s'
      else match split sep s' with
           | [] => [[c]]
           | l :: ls => (c :: l) :: ls
           end
  end.

(** [s.replace(/c/g, '')] for a one-unit pattern. *)
Definition removeAll (c : N) (s : jsstring) : jsstring :=
  filter (fun x => negb (N.eqb x c)) s.

(** [xs.map((x, index) => f(x, index))] *)
Fixpoint mapi_from {A B} (i : nat) (f : A -> nat -> B) (xs : list A) : list B :=
  match xs with
  | [] => []
  | x :: xs' => f x i :: mapi_from (S i) f xs'
  end.

Definition mapi {A B} (f : A -> nat -> B) (xs : list A) : list B :=
  mapi_from 0 f xs.

Definition newline : N := 10.
Definition asterisk : N := 42.

End Js.

Import Js.

(* ================================================================== *)
(** * Regular expressions (the fragment the source uses) *)
(* ================================================================== *)

Module Regex.

(** Patterns without capture semantics.  Every pattern of the source is
    anchored with [^] and has no [m] or [g] flag, so matching starts at
    index 0 only; [Eoi] is [$]. *)
Inductive re : Type :=
| Eps
| Cls (p : N -> bool)
| Seq (a b : re)
| Alt (a b : re)
| Star (a : re)
| Eoi.

(** The backtracking matcher of ECMAScript in continuation-passing
    style: alternatives are tried left to right, [Star] is greedy, and an
    iteration of [Star] that consumes nothing is rejected.  [k] receives
    the rest of the input after the match. *)
Fixpoint run {A} (r : re) (s : jsstring) (k : jsstring -> option A) : option A :=
  match r with
  | Eps => k s
  | Cls p =>
      match s with
      | c :: s' => if p c then k s' else None
      | [] => None
      end
  | Seq a b => run a s (fun s1 => run b s1 k)
  | Alt a b =>
      match run a s k with
      | Some x => Some x
      | None => run b s k
      end
  | Star a =>
      (fix star (fuel : nat) (s0 : jsstring) {struct fuel} : option A :=
         match fuel with
         | O => k s0
         | S fuel' =>
             match run a s0 (fun s1 =>
                     if (List.length s1 <? List.length s0)%nat then star fuel' s1 else None) with
             | Some x => Some x
             | None => k s0
             end
         end) (List.length s) s
  | Eoi => match s with [] => k s | _ :: _ => None end
  end.

(** [re.test(s)] for an anchored pattern. *)
Definition test (r : re) (s : jsstring) : bool :=
  match run r s (fun _ => Some tt) with Some _ => true | None => false end.

(** [s.replace(re, '')] for an anchored pattern without [g]. *)
Definition replace_empty (r : re) (s : jsstring) : jsstring :=
  match run r s (fun rest => Some rest) with Some rest => rest | None => s end.

(** ** Pattern constructors *)

Definition chr (c : N) : re := Cls (N.eqb c).

Definition isUpper (c : N) : bool := ((65 <=? c) && (c <=? 90))%N.
Definition isLower (c : N) : bool := ((97 <=? c) && (c <=? 122))%N.
Definition isDigit (c : N) : bool := ((48 <=? c) && (c <=? 57))%N.

(** One pattern character under the [i] flag (no [u] flag): it matches
    the input unit with the same canonical form; for an ASCII pattern
    character these are its two cases and nothing else, since a
    non-ASCII unit never canonicalises to an ASCII one. *)
Definition chr_i (c : N) : re :=
  Cls (fun x =>
         N.eqb x c
         || (isLower c && N.eqb x (c - 32))
         || (isUpper c && N.eqb x (c + 32)))%N.

Fixpoint lit_i (s : jsstring) : re :=
  match s with
  | [] => Eps
  | c :: s' => Seq (chr_i c) (lit_i s')
  end.

(** [a?] (greedy) *)
Definition Opt (a : re) : re := Alt a Eps.
(** [a+] *)
Definition Plus (a : re) : re := Seq a (Star a).

Fixpoint exactly (n : nat) (a : re) : re :=
  match n with O => Eps | S n' => Seq a (exactly n' a) end.

Fixpoint upto (n : nat) (a : re) : re :=
  match n with O => Eps | S n' => Alt (Seq a (upto n' a)) Eps end.

(** [a{lo,hi}] (greedy) *)
Definition Rep (lo hi : nat) (a : re) : re :=
  Seq (exactly lo a) (upto (hi - lo) a).

Fixpoint alts (rs : list re) : re :=
  match rs with
  | [] => Cls (fun _ => false)
  | [r] => r
  | r :: rs' => Alt r (alts rs')
  end.

Definition ws : re := Cls isWhiteSpace.

End Regex.

(* ================================================================== *)
(** * The chat text formatter of ThinkBuddyAssistant *)
(* ================================================================== *)

Module Formatter.
Import Regex.

(** What the formatter returns per line: [null], [<br key/>] or
    [<p key className>text</p>]. *)
Inductive element : Type :=
| Br (key : nat)
| P (key : nat) (className : jsstring) (children : jsstring).

(** [(summary|important points|key points|main topics|answer|solution|steps|recommendations)] *)
Definition subheading_words : re :=
  alts (map (fun w => lit_i (js w))
    ["summary"; "important points"; "key points"; "main topics";
     "answer"; "solution"; "steps"; "recommendations"]%string).

(** [/^(summary|...|recommendations):?\s*$/i] *)
Definition re_subheading_line : re :=
  Seq subheading_words (Seq (Opt (chr 58)) (Seq (Star ws) Eoi)).

(** [/^(summary|...|recommendations):\s*/i] *)
Definition re_subheading_prefix : re :=
  Seq subheading_words (Seq (chr 58) (Star ws)).

(** [/^\d+[\.\)]\s/] *)
Definition re_numbered : re :=
  Seq (Plus (Cls isDigit))
      (Seq (Cls (fun c => N.eqb c 46 || N.eqb c 41)) ws).

(** [/^[-•]\s/]  (the bullet is U+2022) *)
Definition re_bullet : re :=
  Seq (Cls (fun c => N.eqb c 45 || N.eqb c 8226)) ws.

(** [/^[A-Z][^:]{2,30}:\s*$/] *)
Definition re_title : re :=
  Seq (Cls isUpper)
      (Seq (Rep 2 30 (Cls (fun c => negb (N.eqb c 58))))
           (Seq (chr 58) (Seq (Star ws) Eoi))).

Definition heading_class : jsstring := js "font-bold mt-2 mb-1".
Definition plain_class : jsstring := js "mb-1".

(** The callback of [lines.map((line, index) => ...)]. *)
Definition formatLine (line : jsstring) (index : nat) : option element :=
  let trimmedLine := trim line in
  if test re_subheading_line trimmedLine then None
  else
    let trimmedLine := replace_empty re_subheading_prefix trimmedLine in
    let isHeading :=
      test re_numbered trimmedLine
      || test re_bullet trimmedLine
      || test re_title trimmedLine in
    if negb (truthy trimmedLine) then Some (Br index)
    else if isHeading then Some (P index heading_class trimmedLine)
    else Some (P index plain_class trimmedLine).

(** [formatMessageText]: [None] is the [null] returned for an empty
    text; the inner [None]s are the [null] entries of the array, which
    React does not render. *)
Definition formatMessageText (text : jsstring) : option (list (option element)) :=
  if negb (truthy text) then None
  else
    let formattedText := removeAll asterisk text in
    let lines := split newline formattedText in
    Some (mapi formatLine lines).

(** The styled line records that reach the screen. *)
Inductive line_record : Type :=
| Blank
| HeadingLine (text : jsstring)
| PlainLine (text : jsstring).

Definition record_of (e : element) : line_record :=
  match e with
  | Br _ => Blank
  | P _ cls t => if Js.eqb cls heading_class then HeadingLine t else PlainLine t
  end.

Fixpoint somes {A} (xs : list (option A)) : list A :=
  match xs with
  | [] => []
  | Some x :: xs' => x :: somes xs'
  | None :: xs' => somes xs'
  end.

Definition rendered (text : jsstring) : list line_record :=
  match formatMessageText text with
  | None => []
  | Some els => map record_of (somes els)
  end.

Definition record_text (r : line_record) : jsstring :=
  match r with
  | Blank => []
  | HeadingLine t | PlainLine t => t
  end.

(** The input of the specification's example, with real line feeds. *)
Definition example_text : jsstring :=
  js "**Summary:**" ++ [newline] ++ js "1. Point one" ++ [newline]
  ++ js "- Point two" ++ [newline] ++ js "Plain text".

End Formatter.

(* ================================================================== *)
(** * Data model (section 3 of the specification) *)
(* ================================================================== *)

Module Data.

(** A time stamp as the client holds it: the ISO rendering of an
    instant it read from its own clock ([new Date(ms).toISOString()]),
    or the text the server sent. *)
Inductive timestamp : Type :=
| ISO (ms : Z)
| Sent (text : jsstring).

(** The identity the auth provider exposes ([user] may be [null], and
    [email] and [displayName] may be [null]). *)
Record User : Type := {
  uid : jsstring;
  email : option jsstring;
  displayName : option jsstring
}.

Record Member : Type := {
  user_id : jsstring;
  member_email : jsstring;
  name : jsstring;
  role : jsstring
}.

Record Project : Type := {
  teamId : jsstring;
  teamName : jsstring;
  description : jsstring;
  members : list Member;
  created_at : timestamp;
  last_message_at : option timestamp
}.

Record Invite : Type := {
  invite_id : jsstring;
  inviter_name : jsstring;
  inviter_email : jsstring;
  team_name : jsstring;
  invite_created_at : jsstring
}.

Record Source : Type := {
  sender : jsstring;
  source_content : jsstring
}.

Record ChatMessage : Type := {
  id : Z;
  chat_role : jsstring;
  content : jsstring;
  timestamp_of : timestamp;
  sources : list Source;
  isError : bool
}.

End Data.

Import Data.

(* ================================================================== *)
(** * The collaborators: auth provider, network, toasts, parent *)
(* ================================================================== *)

Module World.

(** ** Exceptions and promise outcomes *)

Inductive exn : Type := Error (message : jsstring).

Definition message_of (e : exn) : jsstring :=
  match e with Error m => m end.

Inductive outcome (A : Type) : Type :=
| Returned (a : A)
| Thrown (e : exn).
Arguments Returned {A} a.
Arguments Thrown {A} e.

(** ** Requests and responses *)

(** What [getIdToken()] resolves to: a token or [null]. *)
Definition token := option jsstring.

Definition token_truthy (t : token) : bool :=
  match t with Some s => truthy s | None => false end.

(** [`Bearer ${token}`] *)
Definition bearer (t : token) : jsstring :=
  js "Bearer " ++ match t with Some s => s | None => js "null" end.

(** The request bodies the components serialise with [JSON.stringify]. *)
Inductive payload : Type :=
| CreateTeam (teamName description : jsstring) (member_emails : list jsstring)
| Chat (message : jsstring) (project_context : option jsstring) (use_rag : bool).

Record request : Type := {
  method : jsstring;
  url : jsstring;                 (* relative to the API base *)
  authorization : jsstring;
  json_content_type : bool;       (* 'Content-Type': 'application/json' *)
  body : option payload
}.

(** A response whose body, once parsed, has type [J].  Reading the body
    is a promise of its own: [text()] and [json()] may reject. *)
Record response (J : Type) : Type := {
  status : Z;
  text : outcome jsstring;
  json : outcome J
}.
Arguments status {J} r.
Arguments text {J} r.
Arguments json {J} r.

(** [response.ok]: the status is in the range 200-299. *)
Definition ok {J} (r : response J) : bool :=
  ((200 <=? status r) && (status r <=? 299))%Z.

(** ** Observable calls, in program order *)

Inductive event : Type :=
| StopPropagation
| PreventDefault
| GetIdToken
| Fetch (r : request)
| ShowSuccess (m : jsstring)
| ShowError (m : jsstring)
| ShowConfirm (m : jsstring)
| OnProjectSelect (p : option Project)
| OnProjectsLoaded (ps : list Project)
| OnInviteHandled
| OnProjectCreated (p : Project)
| OnClose.

End World.

Import World.

(* ================================================================== *)
(** * Handlers *)
(* ================================================================== *)

(** A handler closes over the props and state of the render that
    created it and never reads a state cell afterwards: it only calls
    setters and collaborators.  Its run is therefore the exception it
    ends with and the list of its effects; [Await] marks the points at
    which it yields to the event loop. *)
Module Handler.

Section Effects.

(** [W]: the setter calls of one component. *)
Variable W : Type.

Inductive effect : Type :=
| Write (w : W)
| Call (e : event)
| Await.

(** [now]: the effects of the handler itself, in order.  [later]: what
    the async functions it called without [await] do after their first
    [await]; in the source no caller awaits anything after such a call,
    so this runs once the caller has finished. *)
Record run (A : Type) : Type := {
  out : outcome A;
  now : list effect;
  later : list effect
}.

Definition M (A : Type) : Type := run A.

Definition ret {A} (a : A) : M A :=
  {| out := Returned a; now := []; later := [] |}.

Definition throw {A} (e : exn) : M A :=
  {| out := Thrown e; now := []; later := [] |}.

Definition bind {A B} (m : M A) (f : A -> M B) : M B :=
  match out m with
  | Returned a =>
      let r := f a in
      {| out := out r; now := now m ++ now r; later := later m ++ later r |}
  | Thrown e => {| out := Thrown e; now := now m; later := later m |}
  end.

Definition write (w : W) : M unit :=
  {| out := Returned tt; now := [Write w]; later := [] |}.

Definition call (e : event) : M unit :=
  {| out := Returned tt; now := [Call e]; later := [] |}.

(** [await collaborator(...)]: the call is made, the handler yields, and
    resumes with what the promise settled to. *)
Definition await {A} (e : event) (o : outcome A) : M A :=
  {| out := o; now := [Call e; Await]; later := [] |}.

(** [await response.text()], [await response.json()] *)
Definition await_body {A} (o : outcome A) : M A :=
  {| out := o; now := [Await]; later := [] |}.

(** [try { m } catch (err) { h err }] *)
Definition try_catch {A} (m : M A) (h : exn -> M A) : M A :=
  match out m with
  | Returned _ => m
  | Thrown e =>
      let r := h e in
      {| out := out r; now := now m ++ now r; later := later m ++ later r |}
  end.

(** [try { m } finally { f }] *)
Definition try_finally {A} (m : M A) (f : M unit) : M A :=
  {| out := match out f with
            | Returned _ => out m
            | Thrown e => Thrown e
            end;
     now := now m ++ now f;
     later := later m ++ later f |}.

Fixpoint until_await (es : list effect) : list effect :=
  match es with
  | [] => []
  | Await :: _ => []
  | e :: es' => e :: until_await es'
  end.

Fixpoint from_await (es : list effect) : list effect :=
  match es with
  | [] => []
  | Await :: _ => es
  | _ :: es' => from_await es'
  end.

(** A call of an async function without [await]: it runs up to its
    first [await] inside the caller; the rest is deferred, and its
    outcome is a promise nobody observes. *)
Definition spawn (m : M unit) : M unit :=
  {| out := Returned tt;
     now := until_await (now m);
     later := from_await (now m) ++ later m |}.

(** A continuation handed to a collaborator, which runs it in a later
    task. *)
Definition defer (m : M unit) : M unit :=
  {| out := Returned tt; now := []; later := Await :: now m ++ later m |}.

(** All effects of a handler that runs undisturbed. *)
Definition effects {A} (m : M A) : list effect := now m ++ later m.

(** ** Effects applied to the state cells *)

Variable S : Type.
Variable apply : W -> S -> S.

Fixpoint exec (es : list effect) (s : S) : S :=
  match es with
  | [] => s
  | Write w :: es' => exec es' (apply w s)
  | _ :: es' => exec es' s
  end.

Fixpoint calls (es : list effect) : list event :=
  match es with
  | [] => []
  | Call e :: es' => e :: calls es'
  | _ :: es' => calls es'
  end.

End Effects.

Arguments Await {W}.
Arguments Call {W} e.
Arguments ret {W A} a.
Arguments throw {W A} e.
Arguments call {W} e.
Arguments await {W A} e o.
Arguments await_body {W A} o.

Declare Scope handler_scope.
Delimit Scope handler_scope with handler.
Notation "x <- m ;; k" := (bind m (fun x => k))
  (at level 61, m at next level, right associativity) : handler_scope.
Notation "m ;; k" := (bind m (fun _ => k))
  (at level 61, right associativity) : handler_scope.

(** [if (c) { m }] *)
Definition when {W} (c : bool) (m : M W unit) : M W unit :=
  if c then m else ret tt.

End Handler.

Import Handler.
Local Open Scope handler_scope.

(** [String(n)] for an integer. *)
Definition decimal (z : Z) : jsstring :=
  js (DecimalString.NilZero.string_of_int (Z.to_int z)).

(* ================================================================== *)
(** * ProjectSidebar  (src/unnamed/part_000) *)
(* ================================================================== *)

Module ProjectSidebar.

(** What a render closes over besides the state setters. *)
Record Closure : Type := {
  selectedProject : option Project;   (* prop *)
  onProjectsLoaded : bool;            (* is the optional prop supplied? *)
  user : option User                  (* useAuth().user *)
}.

Record State : Type := {
  projects : list Project;
  loading : bool;
  error : option jsstring;
  offlineMode : bool;
  showNotifications : bool;
  showAddMemberModal : bool;
  selectedTeamId : option jsstring
}.

(** Initial values of the [useState] cells. *)
Definition initial : State :=
  {| projects := []; loading := true; error := None; offlineMode := false;
     showNotifications := false; showAddMemberModal := false;
     selectedTeamId := None |}.

Inductive setter : Type :=
| SetProjects (v : list Project)
| SetLoading (v : bool)
| SetError (v : option jsstring)
| SetOfflineMode (v : bool)
| SetShowNotifications (v : bool)
| SetShowAddMemberModal (v : bool)
| SetSelectedTeamId (v : option jsstring).

Definition apply (w : setter) (s : State) : State :=
  match w with
  | SetProjects v =>
      {| projects := v; loading := loading s; error := error s;
         offlineMode := offlineMode s; showNotifications := showNotifications s;
         showAddMemberModal := showAddMemberModal s;
         selectedTeamId := selectedTeamId s |}
  | SetLoading v =>
      {| projects := projects s; loading := v; error := error s;
         offlineMode := offlineMode s; showNotifications := showNotifications s;
         showAddMemberModal := showAddMemberModal s;
         selectedTeamId := selectedTeamId s |}
  | SetError v =>
      {| projects := projects s; loading := loading s; error := v;
         offlineMode := offlineMode s; showNotifications := showNotifications s;
         showAddMemberModal := showAddMemberModal s;
         selectedTeamId := selectedTeamId s |}
  | SetOfflineMode v =>
      {| projects := projects s; loading := loading s; error := error s;
         offlineMode := v; showNotifications := showNotifications s;
         showAddMemberModal := showAddMemberModal s;
         selectedTeamId := selectedTeamId s |}
  | SetShowNotifications v =>
      {| projects := projects s; loading := loading s; error := error s;
         offlineMode := offlineMode s; showNotifications := v;
         showAddMemberModal := showAddMemberModal s;
         selectedTeamId := selectedTeamId s |}
  | SetShowAddMemberModal v =>
      {| projects := projects s; loading := loading s; error := error s;
         offlineMode := offlineMode s; showNotifications := showNotifications s;
         showAddMemberModal := v;
         selectedTeamId := selectedTeamId s |}
  | SetSelectedTeamId v =>
      {| projects := projects s; loading := loading s; error := error s;
         offlineMode := offlineMode s; showNotifications := showNotifications s;
         showAddMemberModal := showAddMemberModal s;
         selectedTeamId := v |}
  end.

(** The parsed body of [GET /teams/]. *)
Inductive teams_json : Type :=
| TeamsArray (ps : list Project)
| NotAnArray.

(** What the world answers during one [fetchProjects]: the token, the
    response, and the clock readings of [getMockProjects], in order. *)
Record Answers : Type := {
  a_token : outcome token;
  a_response : outcome (response teams_json);
  a_clock : nat -> Z
}.

(** The member built from the signed-in user in both mock projects. *)
Definition mock_self (u : option User) : Member :=
  {| user_id := or_else (option_map uid u) (js "mock-user");
     member_email := or_else (match u with Some x => email x | None => None end)
                             (js "user@example.com");
     name := or_else (match u with Some x => displayName x | None => None end)
                     (js "User");
     role := js "admin" |}.

(** [getMockProjects] *)
Definition getMockProjects (u : option User) (clock : nat -> Z) : list Project :=
  [ {| teamId := js "mock-1";
       teamName := js "Sample Project";
       description := js "This is a sample project for demonstration";
       members := [ mock_self u ];
       created_at := ISO (clock 0%nat);
       last_message_at := Some (ISO (clock 1%nat)) |};
    {| teamId := js "mock-2";
       teamName := js "Development Team";
       description := js "Working on the new features";
       members :=
         [ mock_self u;
           {| user_id := js "mock-dev-1";
              member_email := js "dev1@example.com";
              name := js "Developer 1";
              role := js "member" |} ];
       created_at := ISO (clock 2%nat - 86400000);
       last_message_at := Some (ISO (clock 3%nat - 3600000)) |} ].

Definition list_request (t : token) : request :=
  {| method := js "GET";
     url := js "/teams/";
     authorization := bearer t;
     json_content_type := true;
     body := None |}.

(** [fetchProjects] *)
Definition fetchProjects (c : Closure) (w : Answers) : M setter unit :=
  try_finally
    (try_catch
       (write (SetLoading true) ;;
        write (SetError None) ;;
        write (SetOfflineMode false) ;;
        token <- await GetIdToken (a_token w) ;;
        when (negb (token_truthy token))
          (throw (Error (js "No authentication token available"))) ;;
        response <- await (Fetch (list_request token)) (a_response w) ;;
        if negb (ok response) then
          errorText <- await_body (text response) ;;
          if (status response =? 401)%Z then
            throw (Error (js "Authentication failed. Please login again."))
          else if (status response =? 500)%Z then
            throw (Error (js "Server error. Please try again later."))
          else if (status response =? 404)%Z then
            write (SetProjects [])        (* return *)
          else
            throw (Error (js "Failed to fetch projects: " ++ decimal (status response)))
        else
          data <- await_body (json response) ;;
          let projectsData :=
            match data with TeamsArray ps => ps | NotAnArray => [] end in
          write (SetProjects projectsData) ;;
          when (onProjectsLoaded c) (call (OnProjectsLoaded projectsData)))
       (fun err =>
          write (SetError (Some (or_else (Some (message_of err))
                                         (js "Failed to load projects")))) ;;
          write (SetOfflineMode true) ;;
          let mockProjects := getMockProjects (user c) (a_clock w) in
          write (SetProjects mockProjects) ;;
          when (onProjectsLoaded c) (call (OnProjectsLoaded mockProjects))))
    (write (SetLoading false)).

(** [handleProjectClick] *)
Definition handleProjectClick (project : Project) : M setter unit :=
  call (OnProjectSelect (Some project)).

(** [selectedProject?.teamId === projectId] *)
Definition is_selected (c : Closure) (projectId : jsstring) : bool :=
  match selectedProject c with
  | Some p => Js.eqb (teamId p) projectId
  | None => false
  end.

Record DeleteAnswers : Type := {
  d_token : outcome token;
  d_response : outcome (response unit)
}.

Definition delete_request (t : token) (projectId : jsstring) : request :=
  {| method := js "DELETE";
     url := js "/teams/" ++ projectId;
     authorization := bearer t;
     json_content_type := false;
     body := None |}.

(** The continuation handed to [showConfirm] in [handleDeleteProject]. *)
Definition deleteConfirmed (c : Closure) (projectId : jsstring)
    (wd : DeleteAnswers) (wf : Answers) : M setter unit :=
  try_catch
    (token <- await GetIdToken (d_token wd) ;;
     response <- await (Fetch (delete_request token projectId)) (d_response wd) ;;
     when (negb (ok response)) (throw (Error (js "Failed to delete project"))) ;;
     call (ShowSuccess (js "Project deleted successfully")) ;;
     when (is_selected c projectId) (call (OnProjectSelect None)) ;;
     spawn (fetchProjects c wf))
    (fun err => call (ShowError (js "Failed to delete project"))).

(** [handleDeleteProject]; [confirmed] is the user's answer to the
    dialog, which runs the continuation in a later task or never. *)
Definition handleDeleteProject (c : Closure) (projectId : jsstring)
    (confirmed : bool) (wd : DeleteAnswers) (wf : Answers) : M setter unit :=
  call StopPropagation ;;
  call (ShowConfirm (js "Are you sure you want to delete this project?")) ;;
  when confirmed (defer (deleteConfirmed c projectId wd wf)).

(** [openAddMemberModal] *)
Definition openAddMemberModal (teamId : jsstring) : M setter unit :=
  call StopPropagation ;;
  write (SetSelectedTeamId (Some teamId)) ;;
  write (SetShowAddMemberModal true).

(** The state after a handler that ran undisturbed from [s]. *)
Definition after {A} (m : M setter A) (s : State) : State :=
  exec apply (effects m) s.

(** The ways [fetchProjects] fails to obtain a list, the 404 answer
    apart: no token, a failure status, or a rejected promise (of the
    token, of the fetch, or of the body of the answer). *)
Inductive fetch_failure (w : Answers) : Prop :=
| token_rejected (e : exn) :
    a_token w = Thrown e -> fetch_failure w
| token_missing (t : token) :
    a_token w = Returned t -> token_truthy t = false -> fetch_failure w
| fetch_rejected (t : token) (e : exn) :
    a_token w = Returned t -> token_truthy t = true ->
    a_response w = Thrown e -> fetch_failure w
| http_failure (t : token) (r : response teams_json) :
    a_token w = Returned t -> token_truthy t = true ->
    a_response w = Returned r ->
    ok r = false -> status r <> 404%Z -> fetch_failure w
| text_rejected (t : token) (r : response teams_json) (e : exn) :
    a_token w = Returned t -> token_truthy t = true ->
    a_response w = Returned r ->
    ok r = false -> text r = Thrown e -> fetch_failure w
| json_rejected (t : token) (r : response teams_json) (e : exn) :
    a_token w = Returned t -> token_truthy t = true ->
    a_response w = Returned r ->
    ok r = true -> json r = Thrown e -> fetch_failure w.

(** The 404 answer, read to its end. *)
Definition not_found (w : Answers) : Prop :=
  exists t r errorText,
    a_token w = Returned t /\ token_truthy t = true
    /\ a_response w = Returned r
    /\ status r = 404%Z /\ text r = Returned errorText.

(** A list obtained. *)
Definition fetched (w : Answers) (data : teams_json) : Prop :=
  exists t r,
    a_token w = Returned t /\ token_truthy t = true
    /\ a_response w = Returned r
    /\ ok r = true /\ json r = Returned data.

(** What a confirmed, successful delete does before it turns to the
    selection and the refetch. *)
Definition delete_prefix (t : token) (projectId : jsstring) : list (effect setter) :=
  [ Call StopPropagation;
    Call (ShowConfirm (js "Are you sure you want to delete this project?"));
    Await;
    Call GetIdToken; Await;
    Call (Fetch (delete_request t projectId)); Await;
    Call (ShowSuccess (js "Project deleted successfully")) ].

(** A member entry for user [u] with the admin role. *)
Definition admin_member (u : User) (m : Member) : Prop :=
  user_id m = uid u /\ role m = js "admin".

End ProjectSidebar.

(* ================================================================== *)
(** * InviteNotifications
      (src/frontend/src/components/InviteNotifications.jsx) *)
(* ================================================================== *)

Module InviteNotifications.

Record Closure : Type := {
  isOpen : bool;
  onInviteHandled : bool      (* is the optional prop supplied? *)
}.

Record State : Type := {
  invites : list Invite;
  loading : bool
}.

Definition initial : State := {| invites := []; loading := true |}.

Inductive setter : Type :=
| SetInvites (v : list Invite)
| SetLoading (v : bool).

Definition apply (w : setter) (s : State) : State :=
  match w with
  | SetInvites v => {| invites := v; loading := loading s |}
  | SetLoading v => {| invites := invites s; loading := v |}
  end.

(** Answers to [fetchInvites]. *)
Record Answers : Type := {
  a_token : outcome token;
  a_response : outcome (response (list Invite))
}.

(** Answers to the POST of [handleInvite]; only [ok] is read. *)
Record PostAnswers : Type := {
  p_token : outcome token;
  p_response : outcome (response unit)
}.

Definition invites_request (t : token) : request :=
  {| method := js "GET";
     url := js "/teams/invites/my";
     authorization := bearer t;
     json_content_type := false;
     body := None |}.

(** [fetchInvites] *)
Definition fetchInvites (w : Answers) : M setter unit :=
  try_finally
    (try_catch
       (write (SetLoading true) ;;
        token <- await GetIdToken (a_token w) ;;
        if negb (token_truthy token) then ret tt        (* return *)
        else
          response <- await (Fetch (invites_request token)) (a_response w) ;;
          if ok response then
            data <- await_body (json response) ;;
            write (SetInvites data)
          else ret tt)
       (fun err => ret tt))
    (write (SetLoading false)).

(** The effect on [isOpen]. *)
Definition useEffect_isOpen (c : Closure) (w : Answers) : M setter unit :=
  when (isOpen c) (spawn (fetchInvites w)).

Definition action_request (t : token) (inviteId action : jsstring) : request :=
  {| method := js "POST";
     url := js "/teams/invites/" ++ inviteId ++ js "/" ++ action;
     authorization := bearer t;
     json_content_type := false;
     body := None |}.

(** [handleInvite] *)
Definition handleInvite (c : Closure) (inviteId action : jsstring)
    (wp : PostAnswers) (wf : Answers) : M setter unit :=
  try_catch
    (token <- await GetIdToken (p_token wp) ;;
     response <- await (Fetch (action_request token inviteId action))
                       (p_response wp) ;;
     when (negb (ok response))
       (throw (Error (js "Failed to " ++ action ++ js " invite"))) ;;
     call (ShowSuccess (js "Invite " ++ action ++ js "ed successfully")) ;;
     spawn (fetchInvites wf) ;;                         (* Refresh list *)
     when (Js.eqb action (js "accept") && onInviteHandled c)
       (call OnInviteHandled))                          (* Trigger project refresh *)
    (fun err => call (ShowError (js "Failed to " ++ action ++ js " invite"))).

Definition after {A} (m : M setter A) (s : State) : State :=
  exec apply (effects m) s.

(** The ways the POST of [handleInvite] fails: a rejected promise or a
    failure status. *)
Inductive post_failure (wp : PostAnswers) : Prop :=
| post_token_rejected (e : exn) :
    p_token wp = Thrown e -> post_failure wp
| post_rejected (t : token) (e : exn) :
    p_token wp = Returned t -> p_response wp = Thrown e -> post_failure wp
| post_not_ok (t : token) (r : response unit) :
    p_token wp = Returned t -> p_response wp = Returned r ->
    ok r = false -> post_failure wp.

(** What a successful accept or reject does before the refetch. *)
Definition post_prefix (t : token) (inviteId action : jsstring)
  : list (effect setter) :=
  [ Call GetIdToken; Await;
    Call (Fetch (action_request t inviteId action)); Await;
    Call (ShowSuccess (js "Invite " ++ action ++ js "ed successfully")) ].

End InviteNotifications.

(* ================================================================== *)
(** * AddProjectModal
      (src/frontend/src/components/AddProjectModal.jsx) *)
(* ================================================================== *)

Module AddProjectModal.

Record FormData : Type := {
  teamName : jsstring;
  description : jsstring;
  memberEmails : jsstring
}.

Definition emptyForm : FormData :=
  {| teamName := []; description := []; memberEmails := [] |}.

Record State : Type := {
  formData : FormData;
  loading : bool;
  error : option jsstring
}.

Definition initial : State :=
  {| formData := emptyForm; loading := false; error := None |}.

Inductive field : Type := TeamName | Description | MemberEmails.

Inductive setter : Type :=
| SetFormData (v : FormData)
| SetField (name : field) (value : jsstring)    (* prev => ({...prev, [name]: value}) *)
| SetLoading (v : bool)
| SetError (v : option jsstring).

Definition set_field (name : field) (value : jsstring) (f : FormData) : FormData :=
  match name with
  | TeamName =>
      {| teamName := value; description := description f;
         memberEmails := memberEmails f |}
  | Description =>
      {| teamName := teamName f; description := value;
         memberEmails := memberEmails f |}
  | MemberEmails =>
      {| teamName := teamName f; description := description f;
         memberEmails := value |}
  end.

Definition apply (w : setter) (s : State) : State :=
  match w with
  | SetFormData v => {| formData := v; loading := loading s; error := error s |}
  | SetField n v =>
      {| formData := set_field n v (formData s); loading := loading s;
         error := error s |}
  | SetLoading v => {| formData := formData s; loading := v; error := error s |}
  | SetError v => {| formData := formData s; loading := loading s; error := v |}
  end.

(** The parsed body of the answer to [POST /teams/], seen through the
    two uses the handler makes of it: [errorData.detail] and the new
    project. *)
Record create_json : Type := {
  detail : option jsstring;
  newProject : Project
}.

Record Answers : Type := {
  a_token : outcome token;
  a_response : outcome (response create_json);
  a_clock : nat -> Z
}.

(** [handleInputChange] *)
Definition handleInputChange (name : field) (value : jsstring) : M setter unit :=
  write (SetField name value).

Definition comma : N := 44.

(** [formData.memberEmails.split(',').map(email => email.trim())
      .filter(email => email.length > 0)] *)
Definition parse_emails (s : jsstring) : list jsstring :=
  filter (fun email => (0 <? List.length email)%nat)
         (map trim (split comma s)).

Definition create_request (t : token) (f : FormData) : request :=
  {| method := js "POST";
     url := js "/teams/";
     authorization := bearer t;
     json_content_type := true;
     body := Some (CreateTeam (trim (teamName f)) (trim (description f))
                              (parse_emails (memberEmails f))) |}.

(** The project synthesised when the backend is unreachable. *)
Definition mockProject (f : FormData) (clock : nat -> Z) : Project :=
  {| teamId := js "mock-" ++ decimal (clock 0%nat);
     Data.teamName := trim (teamName f);
     Data.description := trim (description f);
     members := [ {| user_id := js "mock-user";
                     member_email := js "user@example.com";
                     name := js "User";
                     role := js "admin" |} ];
     created_at := ISO (clock 1%nat);
     last_message_at := None |}.

(** [err.message.includes('Failed to fetch') ||
     err.message.includes('NetworkError')] *)
Definition is_network_failure (err : exn) : bool :=
  includes (message_of err) (js "Failed to fetch")
  || includes (message_of err) (js "NetworkError").

(** [handleSubmit]; [snap] is the state of the render whose form was
    submitted. *)
Definition handleSubmit (snap : State) (w : Answers) : M setter unit :=
  call PreventDefault ;;
  if negb (truthy (trim (teamName (formData snap)))) then
    write (SetError (Some (js "Project name is required")))   (* return *)
  else
    try_finally
      (try_catch
         (write (SetLoading true) ;;
          write (SetError None) ;;
          token <- await GetIdToken (a_token w) ;;
          response <- await (Fetch (create_request token (formData snap)))
                            (a_response w) ;;
          (if negb (ok response) then
             errorData <- await_body (json response) ;;
             throw (Error (or_else (detail errorData)
                                   (js "Failed to create project")))
           else ret tt) ;;
          created <- await_body (json response) ;;
          write (SetFormData emptyForm) ;;              (* Reset form *)
          call (OnProjectCreated (newProject created)) ;;
          call OnClose)
         (fun err =>
            if is_network_failure err then
              write (SetFormData emptyForm) ;;          (* Reset form *)
              call (OnProjectCreated (mockProject (formData snap) (a_clock w))) ;;
              call OnClose                              (* return *)
            else
              write (SetError (Some (or_else (Some (message_of err))
                                             (js "Failed to create project"))))))
      (write (SetLoading false)).

(** [handleClose] *)
Definition handleClose (snap : State) : M setter unit :=
  when (negb (loading snap))
    (write (SetFormData emptyForm) ;;
     write (SetError None) ;;
     call OnClose).

Definition after {A} (m : M setter A) (s : State) : State :=
  exec apply (effects m) s.

(** The ways a submitted form ends in the [catch] block, with the
    error caught: a rejected [getIdToken] or [fetch], a failure status
    (with or without a readable body), or a success status whose body
    cannot be parsed. *)
Inductive submit_failure (w : Answers) (err : exn) : Prop :=
| sf_token :
    a_token w = Thrown err -> submit_failure w err
| sf_fetch (t : token) :
    a_token w = Returned t -> a_response w = Thrown err -> submit_failure w err
| sf_status_unreadable (t : token) (r : response create_json) :
    a_token w = Returned t -> a_response w = Returned r ->
    ok r = false -> json r = Thrown err -> submit_failure w err
| sf_status (t : token) (r : response create_json) (errorData : create_json) :
    a_token w = Returned t -> a_response w = Returned r ->
    ok r = false -> json r = Returned errorData ->
    err = Error (or_else (detail errorData) (js "Failed to create project")) ->
    submit_failure w err
| sf_body (t : token) (r : response create_json) :
    a_token w = Returned t -> a_response w = Returned r ->
    ok r = true -> json r = Thrown err -> submit_failure w err.

(** The [catch] block of [handleSubmit] as a list of effects. *)
Definition recovery (snap : State) (w : Answers) (err : exn) : list (effect setter) :=
  if is_network_failure err then
    [ Write (SetFormData emptyForm);
      Call (OnProjectCreated (mockProject (formData snap) (a_clock w)));
      Call OnClose ]
  else
    [ Write (SetError (Some (or_else (Some (message_of err))
                                     (js "Failed to create project")))) ].

(** The effects of the [try] block after its two setter calls, when it
    fails: the token is asked for, the request is perhaps sent, and
    the handler yields. *)
Definition attempt_step (snap : State) (e : effect setter) : Prop :=
  e = Await \/ e = Call GetIdToken
  \/ exists t, e = Call (Fetch (create_request t (formData snap))).

End AddProjectModal.

(* ================================================================== *)
(** * ThinkBuddyAssistant
      (second document of InviteNotifications.jsx) *)
(* ================================================================== *)

Module ThinkBuddyAssistant.

Definition PREDEFINED_PROMPTS : list jsstring :=
  [ js "Help me debug an issue";
    js "Suggest best practices";
    js "Generate project ideas";
    js "Review my code" ].

Record State : Type := {
  messages : list ChatMessage;
  inputMessage : jsstring;
  isTyping : bool;
  selectedProject : option Project;
  loading : bool;
  error : option jsstring
}.

Definition initial : State :=
  {| messages := []; inputMessage := []; isTyping := false;
     selectedProject := None; loading := true; error := None |}.

Inductive setter : Type :=
| SetMessages (v : list ChatMessage)
| AppendMessage (m : ChatMessage)          (* prev => [...prev, m] *)
| SetInputMessage (v : jsstring)
| SetIsTyping (v : bool)
| SetSelectedProject (v : option Project)
| SetLoading (v : bool)
| SetError (v : option jsstring).

Definition apply (w : setter) (s : State) : State :=
  match w with
  | SetMessages v =>
      {| messages := v; inputMessage := inputMessage s; isTyping := isTyping s;
         selectedProject := selectedProject s; loading := loading s;
         error := error s |}
  | AppendMessage m =>
      {| messages := messages s ++ [m]; inputMessage := inputMessage s;
         isTyping := isTyping s; selectedProject := selectedProject s;
         loading := loading s; error := error s |}
  | SetInputMessage v =>
      {| messages := messages s; inputMessage := v; isTyping := isTyping s;
         selectedProject := selectedProject s; loading := loading s;
         error := error s |}
  | SetIsTyping v =>
      {| messages := messages s; inputMessage := inputMessage s; isTyping := v;
         selectedProject := selectedProject s; loading := loading s;
         error := error s |}
  | SetSelectedProject v =>
      {| messages := messages s; inputMessage := inputMessage s;
         isTyping := isTyping s; selectedProject := v; loading := loading s;
         error := error s |}
  | SetLoading v =>
      {| messages := messages s; inputMessage := inputMessage s;
         isTyping := isTyping s; selectedProject := selectedProject s;
         loading := v; error := error s |}
  | SetError v =>
      {| messages := messages s; inputMessage := inputMessage s;
         isTyping := isTyping s; selectedProject := selectedProject s;
         loading := loading s; error := v |}
  end.

(** ** History *)

Record HistoryEntry : Type := {
  h_role : jsstring;
  h_content : jsstring;
  h_timestamp : jsstring
}.

(** The parsed body of [GET /api/assistant/history]; [history] may be
    missing. *)
Record history_json : Type := {
  history : option (list HistoryEntry)
}.

Record HistoryAnswers : Type := {
  h_token : outcome token;
  h_response : outcome (response history_json);
  h_clock : nat -> Z
}.

(** [selectedProject?.teamId], [undefined] without a selection. *)
Definition projectId_of (snap : State) : option jsstring :=
  option_map teamId (selectedProject snap).

(** A value used as a condition: [undefined] and [""] are falsy. *)
Definition id_truthy (i : option jsstring) : bool :=
  match i with Some s => truthy s | None => false end.

(** [`${x}`] for a string or [undefined]. *)
Definition interpolate (x : option jsstring) : jsstring :=
  match x with Some s => s | None => js "undefined" end.

Definition history_url (projectId : option jsstring) : jsstring :=
  if id_truthy projectId
  then js "/api/assistant/history?project_id=" ++ interpolate projectId
  else js "/api/assistant/history".

Definition history_request (t : token) (projectId : option jsstring) : request :=
  {| method := js "GET";
     url := history_url projectId;
     authorization := bearer t;
     json_content_type := false;
     body := None |}.

(** [(msg, idx) => ({ id: idx, role: msg.role, content: msg.content,
                      timestamp: msg.timestamp })] *)
Definition formatted (msg : HistoryEntry) (idx : nat) : ChatMessage :=
  {| id := Z.of_nat idx;
     chat_role := h_role msg;
     content := h_content msg;
     timestamp_of := Sent (h_timestamp msg);
     sources := [];
     isError := false |}.

Definition assistant_says (text : jsstring) (t : timestamp) : ChatMessage :=
  {| id := 1;
     chat_role := js "assistant";
     content := text;
     timestamp_of := t;
     sources := [];
     isError := false |}.

(** The welcome message synthesised for an empty history. *)
Definition welcome (snap : State) (clock : nat -> Z) : ChatMessage :=
  assistant_says
    (if id_truthy (projectId_of snap) then
       js "Hello! I'm ThinkBuddy. I can help you with questions about "
       ++ interpolate (option_map Data.teamName (selectedProject snap))
       ++ js ". I have access to all team messages and can provide context-aware assistance!"
     else
       js "Hello! I'm ThinkBuddy, your AI assistant. Select a project to get started with context-aware assistance!")
    (ISO (clock 0%nat)).

(** The message shown when the history cannot be loaded. *)
Definition fallback (clock : nat -> Z) : ChatMessage :=
  assistant_says
    (js "Hello! I'm ThinkBuddy, your AI assistant. How can I help you today?")
    (ISO (clock 0%nat)).

(** [data.history && data.history.length > 0] *)
Definition nonempty_history (data : history_json) : option (list HistoryEntry) :=
  match history data with
  | Some (e :: es) => Some (e :: es)
  | _ => None
  end.

(** [loadChatHistory]; [snap] is the render the effect belongs to. *)
Definition loadChatHistory (snap : State) (w : HistoryAnswers) : M setter unit :=
  try_finally
    (try_catch
       (write (SetLoading true) ;;
        write (SetError None) ;;
        token <- await GetIdToken (h_token w) ;;
        let projectId := projectId_of snap in
        response <- await (Fetch (history_request token projectId)) (h_response w) ;;
        when (negb (ok response))
          (throw (Error (js "Failed to load chat history"))) ;;
        data <- await_body (json response) ;;
        match nonempty_history data with
        | Some entries => write (SetMessages (mapi formatted entries))
        | None => write (SetMessages [welcome snap (h_clock w)])
        end)
       (fun err =>
          write (SetError (Some (js "Failed to load chat history"))) ;;
          write (SetMessages [fallback (h_clock w)])))
    (write (SetLoading false)).

(** [useEffect(() => { loadChatHistory(); }, [selectedProject])]: React
    runs it after the first render and after every render whose
    [selectedProject] differs from that of the previous one. *)
Definition useEffect_selectedProject (snap : State) (w : HistoryAnswers)
  : M setter unit :=
  spawn (loadChatHistory snap w).

(** The [onChange] of the project selector, on the [projects] prop. *)
Definition handleProjectChange (availableProjects : list Project)
    (value : jsstring) : M setter unit :=
  let project := find (fun p => Js.eqb (teamId p) value) availableProjects in
  write (SetSelectedProject project).

(** ** Sending *)

(** The parsed body of the answer to [POST /api/assistant/chat]. *)
Record chat_json : Type := {
  detail : option jsstring;
  response_text : jsstring;
  response_timestamp : jsstring;
  response_sources : option (list Source)
}.

Record ChatAnswers : Type := {
  c_token : outcome token;
  c_response : outcome (response chat_json);
  c_clock : nat -> Z
}.

Definition chat_url : jsstring := js "/api/assistant/chat".

Definition chat_request (t : token) (messageToSend : jsstring)
    (projectId : option jsstring) : request :=
  {| method := js "POST";
     url := chat_url;
     authorization := bearer t;
     json_content_type := true;
     body := Some (Chat messageToSend projectId true) |}.

Definition userMessage (messageToSend : jsstring) (clock : nat -> Z) : ChatMessage :=
  {| id := clock 0%nat;
     chat_role := js "user";
     content := messageToSend;
     timestamp_of := ISO (clock 1%nat);
     sources := [];
     isError := false |}.

Definition assistantMessage (data : chat_json) (clock : nat -> Z) : ChatMessage :=
  {| id := clock 2%nat + 1;
     chat_role := js "assistant";
     content := response_text data;
     timestamp_of := Sent (response_timestamp data);
     sources := match response_sources data with Some l => l | None => [] end;
     isError := false |}.

Definition errorMessage (err : exn) (clock : nat -> Z) : ChatMessage :=
  {| id := clock 2%nat + 1;
     chat_role := js "assistant";
     content := js "Sorry, I encountered an error: " ++ message_of err
                ++ js ". Please try again.";
     timestamp_of := ISO (clock 3%nat);
     sources := [];
     isError := true |}.

(** [customMessage || inputMessage.trim()] *)
Definition messageToSend_of (snap : State) (customMessage : option jsstring)
  : jsstring :=
  or_else customMessage (trim (inputMessage snap)).

(** [handleSendMessage] *)
Definition handleSendMessage (snap : State) (customMessage : option jsstring)
    (w : ChatAnswers) : M setter unit :=
  let messageToSend := messageToSend_of snap customMessage in
  if negb (truthy messageToSend) || isTyping snap then ret tt   (* return *)
  else
    write (AppendMessage (userMessage messageToSend (c_clock w))) ;;
    write (SetInputMessage []) ;;
    write (SetIsTyping true) ;;
    write (SetError None) ;;
    try_finally
      (try_catch
         (token <- await GetIdToken (c_token w) ;;
          let projectId := projectId_of snap in
          response <- await (Fetch (chat_request token messageToSend projectId))
                            (c_response w) ;;
          (if negb (ok response) then
             errorData <- await_body (json response) ;;
             throw (Error (or_else (detail errorData)
                                   (js "Failed to get response")))
           else ret tt) ;;
          data <- await_body (json response) ;;
          write (AppendMessage (assistantMessage data (c_clock w))))
         (fun err =>
            write (SetError (Some (message_of err))) ;;
            write (AppendMessage (errorMessage err (c_clock w)))))
      (write (SetIsTyping false)).

(** [handlePredefinedPrompt] *)
Definition handlePredefinedPrompt (snap : State) (prompt : jsstring)
    (w : ChatAnswers) : M setter unit :=
  spawn (handleSendMessage snap (Some prompt) w).

(** [handleKeyPress] *)
Definition handleKeyPress (snap : State) (key : jsstring) (shiftKey : bool)
    (w : ChatAnswers) : M setter unit :=
  when (Js.eqb key (js "Enter") && negb shiftKey)
    (call PreventDefault ;;
     spawn (handleSendMessage snap None w)).

(** The [onClick] of the send button. *)
Definition handleSendClick (snap : State) (w : ChatAnswers) : M setter unit :=
  spawn (handleSendMessage snap None w).

(** ** Clearing *)

Record ClearAnswers : Type := {
  k_token : outcome token;
  k_response : outcome (response unit);
  k_clock : nat -> Z
}.

Definition clear_request (t : token) (projectId : option jsstring) : request :=
  {| method := js "POST";
     url := if id_truthy projectId
            then js "/api/assistant/clear-history?project_id=" ++ interpolate projectId
            else js "/api/assistant/clear-history";
     authorization := bearer t;
     json_content_type := false;
     body := None |}.

(** [clearChatHistory] *)
Definition clearChatHistory (snap : State) (confirmed : bool) (w : ClearAnswers)
  : M setter unit :=
  call (ShowConfirm (js "Are you sure you want to clear the chat history for this project?")) ;;
  when confirmed
    (defer
       (try_catch
          (token <- await GetIdToken (k_token w) ;;
           let projectId := projectId_of snap in
           response <- await (Fetch (clear_request token projectId)) (k_response w) ;;
           when (negb (ok response)) (throw (Error (js "Failed to clear history"))) ;;
           write (SetMessages
                    [assistant_says (js "Chat history cleared! How can I help you?")
                                    (ISO (k_clock w 0%nat))]))
          (fun err => write (SetError (Some (js "Failed to clear chat history")))))).

Definition after {A} (m : M setter A) (s : State) : State :=
  exec apply (effects m) s.

(** ** The pane as a transition system

    Handlers interleave at their [await]s: a handler runs up to its
    next [await] without interruption, and is resumed later, after any
    number of other handlers and resumptions. *)

(** A handler suspended at an [await]: the call whose promise it waits
    for (none for the promise of a body), and what it does from there. *)
Record task : Type := {
  awaiting : option event;
  rest : list (effect setter)
}.

(** The effects up to the next [await], and the suspended remainder. *)
Fixpoint segment (last : option event) (es : list (effect setter))
  : list (effect setter) * option task :=
  match es with
  | [] => ([], None)
  | Await :: es' => ([], Some {| awaiting := last; rest := es' |})
  | Call e :: es' =>
      let (seg, t) := segment (Some e) es' in (Call e :: seg, t)
  | Write w :: es' =>
      let (seg, t) := segment None es' in (Write w :: seg, t)
  end.

Record System : Type := {
  ui : State;
  pending : list task
}.

Definition boot : System := {| ui := initial; pending := [] |}.

(** What the user and React start. *)
Inductive trigger : Type :=
| TypeText (value : jsstring)                     (* onChange of the textarea *)
| ClickSend (w : ChatAnswers)
| PressKey (key : jsstring) (shiftKey : bool) (w : ChatAnswers)
| ClickPrompt (prompt : jsstring) (w : ChatAnswers)
| ChangeProject (value : jsstring)
| HistoryEffect (w : HistoryAnswers)              (* on mount and on project change *)
| ClickClear (confirmed : bool) (w : ClearAnswers).

(** The prompt buttons are built from [PREDEFINED_PROMPTS]. *)
Definition admissible (t : trigger) : Prop :=
  match t with
  | ClickPrompt prompt _ => In prompt PREDEFINED_PROMPTS
  | _ => True
  end.

(** The handler a trigger runs, in the render of state [snap]. *)
Definition handler (projects : list Project) (snap : State) (t : trigger)
  : M setter unit :=
  match t with
  | TypeText value => write (SetInputMessage value)
  | ClickSend w => handleSendClick snap w
  | PressKey key shiftKey w => handleKeyPress snap key shiftKey w
  | ClickPrompt prompt w => handlePredefinedPrompt snap prompt w
  | ChangeProject value => handleProjectChange projects value
  | HistoryEffect w => useEffect_selectedProject snap w
  | ClickClear confirmed w => clearChatHistory snap confirmed w
  end.

Definition opt_task (t : option task) : list task :=
  match t with Some x => [x] | None => [] end.

(** Run [es] up to its first [await]; suspend the remainder. *)
Definition advance (es : list (effect setter)) (s : State)
    (before after_ : list task) : System :=
  {| ui := exec apply (fst (segment None es)) s;
     pending := before ++ opt_task (snd (segment None es)) ++ after_ |}.

Inductive step (projects : list Project) : System -> System -> Prop :=
| step_trigger (sys : System) (t : trigger) :
    admissible t ->
    step projects sys
      (advance (effects (handler projects (ui sys) t)) (ui sys) (pending sys) [])
| step_resume (sys : System) (l1 l2 : list task) (tk : task) :
    pending sys = l1 ++ tk :: l2 ->
    step projects sys (advance (rest tk) (ui sys) l1 l2).

Inductive reachable (projects : list Project) : System -> Prop :=
| reach_boot : reachable projects boot
| reach_step (a b : System) :
    reachable projects a -> step projects a b -> reachable projects b.

Definition is_chat_fetch (e : event) : bool :=
  match e with
  | Fetch q => Js.eqb (url q) chat_url
  | _ => false
  end.

Definition waits_for_chat (tk : task) : bool :=
  match awaiting tk with
  | Some e => is_chat_fetch e
  | None => false
  end.

(** The chat requests sent and not yet answered. *)
Definition in_flight (sys : System) : nat :=
  List.length (filter waits_for_chat (pending sys)).

(** *** Bookkeeping for the invariant *)

(** The values a list of effects writes to [isTyping], in order. *)
Fixpoint typing_writes (es : list (effect setter)) : list bool :=
  match es with
  | [] => []
  | Write (SetIsTyping v) :: es' => v :: typing_writes es'
  | _ :: es' => typing_writes es'
  end.

(** After every chat request, [isTyping] is still to be reset. *)
Fixpoint chat_guarded (es : list (effect setter)) : Prop :=
  match es with
  | [] => True
  | Call e :: es' =>
      (is_chat_fetch e = true -> typing_writes es' = [false])
      /\ chat_guarded es'
  | _ :: es' => chat_guarded es'
  end.

(** A suspended [handleSendMessage]: it still has to reset [isTyping]. *)
Definition sending (tk : task) : bool :=
  match typing_writes (rest tk) with
  | [false] => true
  | _ => false
  end.

Definition task_ok (tk : task) : Prop :=
  (typing_writes (rest tk) = [] \/ typing_writes (rest tk) = [false])
  /\ chat_guarded (rest tk)
  /\ (waits_for_chat tk = true -> typing_writes (rest tk) = [false]).

(** The value of [isTyping] after the writes [tw]. *)
Definition final_typing (tw : list bool) (b : bool) : bool :=
  fold_left (fun _ v => v) tw b.

Definition rest_writes (t : option task) : list bool :=
  match t with Some x => typing_writes (rest x) | None => [] end.

Definition invariant (sys : System) : Prop :=
  Forall task_ok (pending sys)
  /\ List.length (filter sending (pending sys))
     = (if isTyping (ui sys) then 1 else 0)%nat.

End ThinkBuddyAssistant.

(* ================================================================== *)
(** * What a render can observe *)
(* ================================================================== *)

Module Observe.

Section Yields.

Variables W S : Type.
Variable apply : W -> S -> S.

(** The states in which a handler that runs undisturbed is suspended:
    one per [await], in order.  React renders from these states while
    the handler waits. *)
Fixpoint yields (es : list (effect W)) (s : S) : list S :=
  match es with
  | [] => []
  | Write w :: es' => yields es' (apply w s)
  | Call _ :: es' => yields es' s
  | Await :: es' => s :: yields es' s
  end.

End Yields.

(** ** ProjectSidebar *)

(** [{error && !offlineMode && ( ... )}]: the inline error banner. *)
Definition errorBanner (s : ProjectSidebar.State) : bool :=
  match ProjectSidebar.error s with
  | Some m => truthy m && negb (ProjectSidebar.offlineMode s)
  | None => false
  end.

(** The lists handed to [onProjectsLoaded], in order. *)
Fixpoint notified {W} (es : list (effect W)) : list (list Project) :=
  match es with
  | [] => []
  | Call (OnProjectsLoaded ps) :: es' => ps :: notified es'
  | _ :: es' => notified es'
  end.

(** The answer to [fetchProjects] is a 404 whose body was read. *)
Definition answered_404 (w : ProjectSidebar.Answers) : bool :=
  match ProjectSidebar.a_token w with
  | Returned t =>
      token_truthy t
      && match ProjectSidebar.a_response w with
         | Returned r =>
             negb (ok r) && (status r =? 404)%Z
             && match text r with Returned _ => true | Thrown _ => false end
         | Thrown _ => false
         end
  | Thrown _ => false
  end.

(** The ways the DELETE of [handleDeleteProject] fails. *)
Inductive delete_failure (wd : ProjectSidebar.DeleteAnswers) : Prop :=
| delete_token_rejected (e : exn) :
    ProjectSidebar.d_token wd = Thrown e -> delete_failure wd
| delete_rejected (t : token) (e : exn) :
    ProjectSidebar.d_token wd = Returned t ->
    ProjectSidebar.d_response wd = Thrown e -> delete_failure wd
| delete_not_ok (t : token) (r : response unit) :
    ProjectSidebar.d_token wd = Returned t ->
    ProjectSidebar.d_response wd = Returned r ->
    ok r = false -> delete_failure wd.

(** [{offlineMode && ( ... )}]: the demo mode banner. *)
Definition demoBanner (s : ProjectSidebar.State) : bool :=
  ProjectSidebar.offlineMode s.

(** ** ThinkBuddyAssistant *)

(** [disabled={!inputMessage.trim() || isTyping}] on the send button. *)
Definition sendDisabled (s : ThinkBuddyAssistant.State) : bool :=
  negb (truthy (trim (ThinkBuddyAssistant.inputMessage s)))
  || ThinkBuddyAssistant.isTyping s.

End Observe.

(* ================================================================== *)
(** * More on the chat text formatter *)
(* ================================================================== *)

Module FormatterSpec.
Import Regex Formatter.

(** The words of the two subheading patterns, as the source lists
    them. *)
Definition subheadings : list string :=
  ["summary"; "important points"; "key points"; "main topics";
   "answer"; "solution"; "steps"; "recommendations"]%string.

(** ASCII lower case. *)
Definition lower (c : N) : N := if isUpper c then (c + 32)%N else c.

Definition lowerAscii (s : jsstring) : jsstring := map lower s.

Definition colon : N := 58.

(** A line that is nothing but a subheading word, whatever its letter
    case, with or without a colon. *)
Definition bare_subheading (t : jsstring) : Prop :=
  exists w, In w subheadings
            /\ (lowerAscii t = js w \/ lowerAscii t = js w ++ [colon]).

(** The class of one pattern character under the [i] flag. *)
Definition ci (c x : N) : bool :=
  (N.eqb x c
   || (isLower c && N.eqb x (c - 32))
   || (isUpper c && N.eqb x (c + 32)))%N.

(** A string without leading or trailing whitespace. *)
Definition trimmed (t : jsstring) : Prop :=
  trimStart t = t /\ trimStart (rev t) = rev t.

(** The [key] of an element. *)
Definition key_of (e : element) : nat :=
  match e with Br k => k | P k _ _ => k end.

(** [rest] is what remains of [s] after some prefix. *)
Definition suffix_of (rest s : jsstring) : Prop :=
  exists pre, s = pre ++ rest.

End FormatterSpec.

(* ================================================================== *)
(** * encodeURIComponent *)
(* ================================================================== *)

Module Uri.

(** The characters [encodeURIComponent] leaves as they are: letters,
    digits and [- _ . ! ~ * ' ( )]. *)
Definition unreserved (c : N) : bool :=
  Regex.isUpper c || Regex.isLower c || Regex.isDigit c
  || existsb (N.eqb c) [45; 95; 46; 33; 126; 42; 39; 40; 41]%N.

Definition isHighSurrogate (c : N) : bool := ((55296 <=? c) && (c <=? 56319))%N.
Definition isLowSurrogate (c : N) : bool := ((56320 <=? c) && (c <=? 57343))%N.

(** The code point of a surrogate pair. *)
Definition pair_code_point (hi lo : N) : N :=
  ((hi - 55296) * 1024 + (lo - 56320) + 65536)%N.

(** The UTF-8 octets of a code point. *)
Definition utf8 (cp : N) : list N :=
  (if cp <? 128 then [cp]
   else if cp <? 2048 then [192 + cp / 64; 128 + cp mod 64]
   else if cp <? 65536 then
     [224 + cp / 4096; 128 + (cp / 64) mod 64; 128 + cp mod 64]
   else
     [240 + (cp / 262144) mod 8; 128 + (cp / 4096) mod 64;
      128 + (cp / 64) mod 64; 128 + cp mod 64])%N.

(** One upper case hexadecimal digit. *)
Definition hexDigit (n : N) : N :=
  (if n <? 10 then 48 + n else 55 + n)%N.

(** [%XX] *)
Definition escape (octet : N) : jsstring :=
  [37%N; hexDigit ((octet / 16) mod 16); hexDigit (octet mod 16)].

Definition escapes (octets : list N) : jsstring :=
  flat_map escape octets.

(** [encodeURIComponent(s)]; [None] is the [URIError] thrown for a
    surrogate without its partner. *)
Fixpoint encodeURIComponent (s : jsstring) : option jsstring :=
  match s with
  | [] => Some []
  | c :: s' =>
      if unreserved c then option_map (cons c) (encodeURIComponent s')
      else if isLowSurrogate c then None
      else if isHighSurrogate c then
        match s' with
        | lo :: s'' =>
            if isLowSurrogate lo
            then option_map (app (escapes (utf8 (pair_code_point c lo))))
                            (encodeURIComponent s'')
            else None
        | [] => None
        end
      else option_map (app (escapes (utf8 c))) (encodeURIComponent s')
  end.

(** What may occur in the result: the unreserved characters, [%] and
    the upper case hexadecimal digits. *)
Definition uri_safe (c : N) : bool :=
  unreserved c || N.eqb c 37.

(** A string of code units in which every surrogate has its partner. *)
Fixpoint well_formed (s : jsstring) : bool :=
  match s with
  | [] => true
  | c :: s' =>
      if isLowSurrogate c then false
      else if isHighSurrogate c then
        match s' with
        | lo :: s'' => isLowSurrogate lo && well_formed s''
        | [] => false
        end
      else well_formed s'
  end.

End Uri.

(* ================================================================== *)
(** * AddMemberModal
      (second document of AddProjectModal.jsx) *)
(* ================================================================== *)

Module AddMemberModal.

(** The [teamId] prop: the sidebar passes its [selectedTeamId], which
    is [null] until a modal was opened. *)
Record Closure : Type := {
  teamId : option jsstring
}.

Record State : Type := {
  email : jsstring;
  loading : bool
}.

Definition initial : State := {| email := []; loading := false |}.

Inductive setter : Type :=
| SetEmail (v : jsstring)
| SetLoading (v : bool).

Definition apply (w : setter) (s : State) : State :=
  match w with
  | SetEmail v => {| email := v; loading := loading s |}
  | SetLoading v => {| email := email s; loading := v |}
  end.

(** The parsed body of a failure answer, seen through
    [errorData.detail]. *)
Record invite_json : Type := {
  detail : option jsstring
}.

(** [uri_error]: the [URIError] of the engine, whose message is not
    fixed by the language. *)
Record Answers : Type := {
  a_token : outcome token;
  a_response : outcome (response invite_json);
  uri_error : exn
}.

(** [`${x}`] for a string or [null]. *)
Definition interpolate (x : option jsstring) : jsstring :=
  match x with Some s => s | None => js "null" end.

(** A value computed without yielding, which may throw. *)
Definition settle {A} (o : outcome A) : M setter A :=
  {| out := o; now := []; later := [] |}.

(** [encodeURIComponent(email)] *)
Definition encoded (w : Answers) (email : jsstring) : outcome jsstring :=
  match Uri.encodeURIComponent email with
  | Some s => Returned s
  | None => Thrown (uri_error w)
  end.

Definition invite_url (c : Closure) (enc : jsstring) : jsstring :=
  js "/teams/" ++ interpolate (teamId c) ++ js "/invite?invitee_email=" ++ enc.

Definition invite_request (c : Closure) (t : token) (enc : jsstring) : request :=
  {| method := js "POST";
     url := invite_url c enc;
     authorization := bearer t;
     json_content_type := false;
     body := None |}.

(** [response.json().catch(() => ({}))] *)
Definition json_or_empty (r : response invite_json) : invite_json :=
  match json r with
  | Returned d => d
  | Thrown _ => {| detail := None |}
  end.

(** [handleSubmit] *)
Definition handleSubmit (c : Closure) (snap : State) (w : Answers)
  : M setter unit :=
  call PreventDefault ;;
  if negb (truthy (trim (email snap))) then ret tt          (* return *)
  else
    try_finally
      (try_catch
         (write (SetLoading true) ;;
          token <- await GetIdToken (a_token w) ;;
          enc <- settle (encoded w (email snap)) ;;
          response <- await (Fetch (invite_request c token enc)) (a_response w) ;;
          (if negb (ok response) then
             errorData <- await_body (Returned (json_or_empty response)) ;;
             throw (Error (or_else (detail errorData)
                                   (js "Failed to send invite")))
           else ret tt) ;;
          call (ShowSuccess (js "Invitation sent successfully!")) ;;
          write (SetEmail []) ;;
          call OnClose)
         (fun err =>
            call (ShowError (or_else (Some (message_of err))
                                     (js "Failed to send invite")))))
      (write (SetLoading false)).

Definition after {A} (m : M setter A) (s : State) : State :=
  exec apply (effects m) s.

(** The props the sidebar renders the modal with:
    [isOpen={showAddMemberModal}] and [teamId={selectedTeamId}]. *)
Definition props_from (s : ProjectSidebar.State) : bool * Closure :=
  (ProjectSidebar.showAddMemberModal s,
   {| teamId := ProjectSidebar.selectedTeamId s |}).

(** The ways a submitted invitation ends in the [catch] block, with the
    message shown. *)
Inductive invite_failure (snap : State) (w : Answers) (msg : jsstring) : Prop :=
| if_token (e : exn) :
    a_token w = Thrown e -> msg = message_of e -> invite_failure snap w msg
| if_uri (t : token) :
    a_token w = Returned t ->
    Uri.encodeURIComponent (email snap) = None ->
    msg = message_of (uri_error w) -> invite_failure snap w msg
| if_fetch (t : token) (enc : jsstring) (e : exn) :
    a_token w = Returned t ->
    Uri.encodeURIComponent (email snap) = Some enc ->
    a_response w = Thrown e -> msg = message_of e -> invite_failure snap w msg
| if_status (t : token) (enc : jsstring) (r : response invite_json) :
    a_token w = Returned t ->
    Uri.encodeURIComponent (email snap) = Some enc ->
    a_response w = Returned r -> ok r = false ->
    msg = or_else (detail (json_or_empty r)) (js "Failed to send invite") ->
    invite_failure snap w msg.

(** An invitation accepted by the server. *)
Definition invite_sent (snap : State) (w : Answers) : Prop :=
  exists t enc r,
    a_token w = Returned t
    /\ Uri.encodeURIComponent (email snap) = Some enc
    /\ a_response w = Returned r /\ ok r = true.

End AddMemberModal.

(* ================================================================== *)
(** * What the world answered *)
(* ================================================================== *)

(** The happy path of each exchange, read off the answers: the value
    the handler goes on with when nothing was rejected and the status
    was a success. *)
Module Outcomes.

(** The invite list [fetchInvites] stores. *)
Definition invites_of (w : InviteNotifications.Answers) : option (list Invite) :=
  match InviteNotifications.a_token w with
  | Returned t =>
      if token_truthy t then
        match InviteNotifications.a_response w with
        | Returned r =>
            if ok r then
              match json r with Returned data => Some data | Thrown _ => None end
            else None
        | Thrown _ => None
        end
      else None
  | Thrown _ => None
  end.


(** The history [loadChatHistory] received. *)
Definition history_of (w : ThinkBuddyAssistant.HistoryAnswers)
  : option ThinkBuddyAssistant.history_json :=
  match ThinkBuddyAssistant.h_token w with
  | Returned _ =>
      match ThinkBuddyAssistant.h_response w with
      | Returned r =>
          if ok r then
            match json r with Returned d => Some d | Thrown _ => None end
          else None
      | Thrown _ => None
      end
  | Thrown _ => None
  end.

(** The reply [handleSendMessage] received. *)
Definition reply_of (w : ThinkBuddyAssistant.ChatAnswers)
  : option ThinkBuddyAssistant.chat_json :=
  match ThinkBuddyAssistant.c_token w with
  | Returned _ =>
      match ThinkBuddyAssistant.c_response w with
      | Returned r =>
          if ok r then
            match json r with Returned d => Some d | Thrown _ => None end
          else None
      | Thrown _ => None
      end
  | Thrown _ => None
  end.

(** The server cleared the history. *)
Definition cleared (w : ThinkBuddyAssistant.ClearAnswers) : bool :=
  match ThinkBuddyAssistant.k_token w with
  | Returned _ =>
      match ThinkBuddyAssistant.k_response w with
      | Returned r => ok r
      | Thrown _ => false
      end
  | Thrown _ => false
  end.

(** Addresses typed one after the other, separated by a comma and a
    space. *)
Fixpoint typed_list (emails : list jsstring) : jsstring :=
  match emails with
  | [] => []
  | [e] => e
  | e :: rest => e ++ js ", " ++ typed_list rest
  end.

(** An address as [parse_emails] returns it: not empty, without comma,
    without whitespace at either end. *)
Definition clean_email (e : jsstring) : Prop :=
  e <> [] /\ ~ In AddProjectModal.comma e /\ FormatterSpec.trimmed e.

End Outcomes.

(* ================================================================== *)
(** * Concrete inputs *)
(* ================================================================== *)

Module Examples.

Definition alice : User :=
  {| uid := js "u-alice";
     email := Some (js "alice@example.com");
     displayName := Some (js "Alice") |}.

Definition clock0 : nat -> Z := fun n => (1700000000000 + Z.of_nat n)%Z.

Definition some_token : token := Some (js "tok").

Definition answer {J} (code : Z) (text : jsstring) (parsed : outcome J)
  : response J :=
  {| status := code; text := Returned text; json := parsed |}.

Definition not_json {J} : outcome J :=
  Thrown (Error (js "Unexpected token < in JSON at position 0")).

Definition network_down {A} : outcome A :=
  Thrown (Error (js "Failed to fetch")).

Definition demo : Project :=
  {| teamId := js "t1";
     teamName := js "Demo";
     description := js "A team";
     members := [];
     created_at := Sent (js "2024-01-01T00:00:00Z");
     last_message_at := None |}.

Definition other : Project :=
  {| teamId := js "t2";
     teamName := js "Other";
     description := [];
     members := [];
     created_at := Sent (js "2024-01-02T00:00:00Z");
     last_message_at := None |}.

End Examples.

(* ================================================================== *)
(** * Properties *)
(* ================================================================== *)

Unset Implicit Arguments.

(** ** Strings *)

Lemma eqb_refl (s : jsstring) : Js.eqb s s = true.
Proof.
  induction s as [|c s IH]; simpl; [reflexivity|].
  now rewrite N.eqb_refl, IH.
Qed.

Lemma eqb_eq (a b : jsstring) : Js.eqb a b = true <-> a = b.
Proof.
  split.
  - revert b; induction a as [|x a IH]; intros [|y b] H; simpl in H;
      try discriminate; [reflexivity|].
    apply andb_true_iff in H as [Hx Hab].
    apply N.eqb_eq in Hx. subst. f_equal. now apply IH.
  - intros ->. apply eqb_refl.
Qed.

(** ** Lists of effects *)

(** An async call that is not awaited loses none of its effects. *)
Lemma until_from_await (W : Type) (es : list (effect W)) :
  until_await es ++ from_await es = es.
Proof.
  induction es as [|[w|e|] es IH]; simpl; try reflexivity; now rewrite IH.
Qed.

Lemma effects_spawn (W : Type) (m : M W unit) :
  effects (spawn m) = effects m.
Proof.
  unfold effects, spawn; simpl. now rewrite app_assoc, until_from_await.
Qed.

Lemma in_until_await (W : Type) (x : effect W) (es : list (effect W)) :
  In x (until_await es) -> In x es.
Proof.
  induction es as [|[w|e|] es IH]; simpl; intuition.
Qed.

Lemma in_from_await (W : Type) (x : effect W) (es : list (effect W)) :
  In x (from_await es) -> In x es.
Proof.
  induction es as [|[w|e|] es IH]; simpl; intuition.
Qed.

Lemma exec_app (W S : Type) (apply : W -> S -> S) (a b : list (effect W)) (s : S) :
  exec apply (a ++ b) s = exec apply b (exec apply a s).
Proof.
  revert s; induction a as [|[w|e|] a IH]; intros s; simpl; auto.
Qed.

Lemma calls_app (W : Type) (a b : list (effect W)) :
  calls (a ++ b) = calls a ++ calls b.
Proof.
  induction a as [|[w|e|] a IH]; simpl; [reflexivity|exact IH| |exact IH].
  now rewrite IH.
Qed.

(** ** Trimming *)

Lemma trimStart_nil_iff (s : jsstring) :
  trimStart s = [] <-> forallb isWhiteSpace s = true.
Proof.
  induction s as [|c s IH]; simpl; [tauto|].
  destruct (isWhiteSpace c); simpl; [exact IH|].
  split; discriminate.
Qed.

Lemma trimStart_head (s : jsstring) (c : N) (r : jsstring) :
  trimStart s = c :: r -> isWhiteSpace c = false.
Proof.
  induction s as [|x s IH]; simpl; [discriminate|].
  destruct (isWhiteSpace x) eqn:X; [exact IH|].
  intros [= <- _]. exact X.
Qed.

Lemma trimStart_idem (s : jsstring) : trimStart (trimStart s) = trimStart s.
Proof.
  destruct (trimStart s) as [|c r] eqn:E; [reflexivity|].
  simpl. now rewrite (trimStart_head _ _ _ E).
Qed.

Lemma trimStart_keeps_last (l : jsstring) (c : N) :
  isWhiteSpace c = false -> exists x, trimStart (l ++ [c]) = x ++ [c].
Proof.
  intros Hc. induction l as [|a l [x IH]]; simpl.
  - rewrite Hc. now exists [].
  - destruct (isWhiteSpace a).
    + now exists x.
    + now exists (a :: l).
Qed.

Lemma forallb_rev (A : Type) (f : A -> bool) (l : list A) :
  forallb f (rev l) = forallb f l.
Proof.
  induction l as [|a l IH]; simpl; [reflexivity|].
  rewrite forallb_app, IH. simpl. rewrite andb_true_r. apply andb_comm.
Qed.

(** A string trims to the empty string exactly when it is empty or
    whitespace only. *)
Lemma trim_nil_iff (s : jsstring) :
  trim s = [] <-> forallb isWhiteSpace s = true.
Proof.
  unfold trim, trimEnd. split.
  - intros H.
    assert (H1 : trimStart (rev (trimStart s)) = []).
    { destruct (trimStart (rev (trimStart s))) as [|a l]; [reflexivity|].
      simpl in H. now destruct (rev l). }
    apply trimStart_nil_iff in H1. rewrite forallb_rev in H1.
    apply trimStart_nil_iff. destruct (trimStart s) as [|c r] eqn:E; [reflexivity|].
    apply trimStart_head in E. simpl in H1. now rewrite E in H1.
  - intros H. apply trimStart_nil_iff in H. now rewrite H.
Qed.

Lemma truthy_trim_iff (s : jsstring) :
  truthy (trim s) = false <-> forallb isWhiteSpace s = true.
Proof.
  rewrite <- trim_nil_iff. destruct (trim s); simpl; split; congruence.
Qed.

(** [trim] is idempotent. *)
Lemma trim_idem (s : jsstring) : trim (trim s) = trim s.
Proof.
  unfold trim, trimEnd.
  set (y := trimStart (rev (trimStart s))).
  assert (A : trimStart (rev y) = rev y).
  { destruct (trimStart s) as [|c r] eqn:E.
    - reflexivity.
    - pose proof (trimStart_head _ _ _ E) as Hc.
      subst y. simpl rev.
      destruct (trimStart_keeps_last (rev r) c Hc) as [x Hx].
      rewrite Hx, rev_app_distr. simpl. now rewrite Hc. }
  rewrite A, rev_involutive.
  subst y. now rewrite trimStart_idem.
Qed.

(** ** The chat text formatter *)

Import Formatter.

(** C5.  On the text ["**Summary:**\n1. Point one\n- Point two\nPlain text"]
    the formatter removes every asterisk, returns [null] for the
    standalone "Summary:" line, and renders exactly three lines, in
    order: "1. Point one" and "- Point two" with the heading style, and
    "Plain text" with the plain style. *)
Theorem C5_formatMessageText_example :
  formatMessageText example_text =
    Some [ None;
           Some (P 1 heading_class (js "1. Point one"));
           Some (P 2 heading_class (js "- Point two"));
           Some (P 3 plain_class (js "Plain text")) ]
  /\ rendered example_text =
       [ HeadingLine (js "1. Point one");
         HeadingLine (js "- Point two");
         PlainLine (js "Plain text") ]
  /\ Forall (fun r => ~ In asterisk (record_text r)) (rendered example_text)
  /\ ~ In (js "Summary:") (map record_text (rendered example_text)).
Proof.
  assert (R : rendered example_text =
       [ HeadingLine (js "1. Point one");
         HeadingLine (js "- Point two");
         PlainLine (js "Plain text") ]) by (vm_compute; reflexivity).
  split; [vm_compute; reflexivity|].
  split; [exact R|].
  rewrite R. split.
  - repeat constructor; vm_compute; intuition discriminate.
  - vm_compute. intuition discriminate.
Qed.

(** ** ProjectSidebar *)

Module SidebarFacts.
Import ProjectSidebar.

(** What the [catch] block of [fetchProjects] leaves behind. *)
Lemma fetch_failure_state (c : Closure) (w : Answers) (s : State) :
  fetch_failure w ->
  offlineMode (after (fetchProjects c w) s) = true
  /\ projects (after (fetchProjects c w) s) = getMockProjects (user c) (a_clock w)
  /\ loading (after (fetchProjects c w) s) = false.
Proof.
  intros F. destruct w as [tok resp clk].
  destruct F as [e Ht|t Ht Hf|t e Ht Hy Hr|t r Ht Hy Hr Hok H404
                 |t r e Ht Hy Hr Hok Htx|t r e Ht Hy Hr Hok Hj];
    simpl in Ht; subst tok.
  - destruct (onProjectsLoaded c) eqn:L;
      unfold after, effects, fetchProjects; cbn; rewrite L; cbn; auto.
  - destruct (onProjectsLoaded c) eqn:L;
      unfold after, effects, fetchProjects; cbn; rewrite Hf, L; cbn; auto.
  - simpl in Hr; subst resp.
    destruct (onProjectsLoaded c) eqn:L;
      unfold after, effects, fetchProjects; cbn; rewrite Hy, L; cbn; auto.
  - simpl in Hr; subst resp.
    apply Z.eqb_neq in H404.
    destruct (onProjectsLoaded c) eqn:L, (text r) as [body|e] eqn:T,
             (status r =? 401)%Z eqn:E401, (status r =? 500)%Z eqn:E500;
      unfold after, effects, fetchProjects; cbn;
      rewrite ?Hy, ?Hok, ?T, ?L; cbn;
      rewrite ?E401, ?E500, ?H404, ?L; cbn; rewrite ?L; cbn; auto.
  - simpl in Hr; subst resp.
    destruct (onProjectsLoaded c) eqn:L;
      unfold after, effects, fetchProjects; cbn;
      rewrite Hy; cbn; rewrite Hok; cbn; rewrite Htx; cbn; rewrite L; cbn; auto.
  - simpl in Hr; subst resp.
    destruct (onProjectsLoaded c) eqn:L;
      unfold after, effects, fetchProjects; cbn;
      rewrite Hy; cbn; rewrite Hok; cbn; rewrite Hj; cbn; rewrite L; cbn; auto.
Qed.

(** Every answer of the world is a failure, the 404 answer, or a list. *)
Lemma answers_cases (w : Answers) :
  fetch_failure w \/ not_found w \/ exists data, fetched w data.
Proof.
  destruct (a_token w) as [t|e] eqn:Ht; [|left; eapply token_rejected; eauto].
  destruct (token_truthy t) eqn:Hy; [|left; eapply token_missing; eauto].
  destruct (a_response w) as [r|e] eqn:Hr; [|left; eapply fetch_rejected; eauto].
  destruct (ok r) eqn:Hok.
  - destruct (json r) as [data|e] eqn:J.
    + right; right. exists data, t, r. auto.
    + left; eapply json_rejected; eauto.
  - destruct (text r) as [body|e] eqn:T; [|left; eapply text_rejected; eauto].
    destruct (Z.eq_dec (status r) 404) as [E|N].
    + right; left. exists t, r, body. auto.
    + left; eapply http_failure; eauto.
Qed.

(** A list obtained is stored as it is, online. *)
Lemma fetched_state (c : Closure) (w : Answers) (s : State) (data : teams_json) :
  fetched w data ->
  projects (after (fetchProjects c w) s)
    = match data with TeamsArray ps => ps | NotAnArray => [] end
  /\ offlineMode (after (fetchProjects c w) s) = false
  /\ error (after (fetchProjects c w) s) = None.
Proof.
  intros (t & r & Ht & Hy & Hr & Hok & J).
  destruct w as [tok resp clk]; simpl in Ht, Hr; subst tok resp.
  destruct (onProjectsLoaded c) eqn:L;
    unfold after, effects, fetchProjects; cbn;
    rewrite Hy; cbn; rewrite Hok; cbn; rewrite J; cbn; rewrite L; cbn; auto.
Qed.

(** C1.  Whenever the project-list fetch fails other than by a 404 (no
    token, a rejected [getIdToken] or [fetch], or any failure status
    such as 401 or 500), [fetchProjects] ends with [offlineMode] true and
    [projects] equal to the two built-in demo projects, "Sample Project"
    and "Development Team", each of which lists the signed-in user as a
    member with role "admin". *)
Theorem C1_fetchProjects_failure_offline_demo
    (c : Closure) (w : Answers) (s : State) :
  fetch_failure w ->
  let s' := after (fetchProjects c w) s in
  offlineMode s' = true
  /\ projects s' = getMockProjects (user c) (a_clock w)
  /\ map teamName (projects s') = [js "Sample Project"; js "Development Team"]
  /\ (forall u, user c = Some u -> truthy (uid u) = true ->
        Forall (fun p => exists m, In m (members p) /\ admin_member u m)
               (projects s')).
Proof.
  intros F s'.
  destruct (fetch_failure_state c w s F) as (Hoff & Hpr & _).
  fold s' in Hoff, Hpr.
  split; [exact Hoff|]. split; [exact Hpr|].
  rewrite Hpr. split; [reflexivity|].
  intros u Hu Hid. rewrite Hu.
  assert (Hself : admin_member u (mock_self (Some u))).
  { split; [|reflexivity]. unfold mock_self, or_else; simpl. now rewrite Hid. }
  repeat constructor; exists (mock_self (Some u)); (split; [now left|exact Hself]).
Qed.

Lemma C1_witness :
  let c := {| selectedProject := None; onProjectsLoaded := true;
              user := Some Examples.alice |} in
  let w := {| a_token := Returned Examples.some_token;
              a_response := Returned (Examples.answer 500 (js "oops") Examples.not_json);
              a_clock := Examples.clock0 |} in
  fetch_failure w
  /\ offlineMode (after (fetchProjects c w) initial) = true
  /\ map teamName (projects (after (fetchProjects c w) initial))
       = [js "Sample Project"; js "Development Team"].
Proof.
  intros c w.
  assert (F : fetch_failure w).
  { eapply http_failure; try reflexivity. discriminate. }
  split; [exact F|].
  destruct (C1_fetchProjects_failure_offline_demo c w initial F) as (H1 & _ & H3 & _).
  split; [exact H1|exact H3].
Defined.



(** [fetchProjects] never calls the selection callback. *)
Lemma fetchProjects_no_select (c : Closure) (w : Answers) (p : option Project) :
  ~ In (Call (OnProjectSelect p)) (effects (fetchProjects c w)).
Proof.
  destruct w as [[t|e] resp clk].
  2:{ destruct (onProjectsLoaded c) eqn:L;
        unfold effects, fetchProjects; cbn; rewrite L; cbn;
        intuition discriminate. }
  destruct (token_truthy t) eqn:Hy.
  2:{ destruct (onProjectsLoaded c) eqn:L;
        unfold effects, fetchProjects; cbn; rewrite Hy, L; cbn;
        intuition discriminate. }
  destruct resp as [r|e].
  2:{ destruct (onProjectsLoaded c) eqn:L;
        unfold effects, fetchProjects; cbn; rewrite Hy, L; cbn;
        intuition discriminate. }
  destruct (onProjectsLoaded c) eqn:L, (ok r) eqn:Hok,
           (text r) as [?|?] eqn:T, (json r) as [[?|]|?] eqn:J,
           (status r =? 401)%Z eqn:E401, (status r =? 500)%Z eqn:E500,
           (status r =? 404)%Z eqn:E404;
    unfold effects, fetchProjects; cbn;
    rewrite ?Hy, ?Hok, ?T, ?J, ?L; cbn;
    rewrite ?E401, ?E500, ?E404, ?L; cbn; rewrite ?L; cbn;
    intuition discriminate.
Qed.

(** C3.  When the user confirms and the DELETE succeeds: if the deleted
    project is the selected one, [onProjectSelect(null)] is called, and
    every effect of the refetch [fetchProjects] comes after that call;
    if it is not the selected one, the selection callback is not called
    at all. *)
Theorem C3_delete_clears_selection_before_refetch
    (c : Closure) (projectId : jsstring) (wd : DeleteAnswers) (wf : Answers)
    (t : token) (r : response unit) :
  d_token wd = Returned t -> d_response wd = Returned r -> ok r = true ->
  let es := effects (handleDeleteProject c projectId true wd wf) in
  (is_selected c projectId = true ->
     es = delete_prefix t projectId
          ++ [Call (OnProjectSelect None)]
          ++ effects (fetchProjects c wf)
     /\ ~ In (Call (OnProjectSelect None)) (effects (fetchProjects c wf)))
  /\ (is_selected c projectId = false ->
     es = delete_prefix t projectId ++ effects (fetchProjects c wf)
     /\ forall p, ~ In (Call (OnProjectSelect p)) es).
Proof.
  intros Ht Hr Hok es.
  destruct wd as [tok resp]; simpl in Ht, Hr; subst tok resp.
  assert (E : es = delete_prefix t projectId
                   ++ (if is_selected c projectId
                       then [Call (OnProjectSelect None)] else [])
                   ++ effects (fetchProjects c wf)).
  { subst es. unfold handleDeleteProject, deleteConfirmed, delete_prefix, effects.
    generalize (fetchProjects c wf) as m; intros m.
    destruct (is_selected c projectId); cbn; rewrite Hok; cbn;
      now rewrite app_assoc, until_from_await. }
  split; intros Hsel; rewrite Hsel in E.
  - split; [exact E|apply fetchProjects_no_select].
  - split; [exact E|].
    intros p Hin. rewrite E in Hin. apply in_app_or in Hin as [Hin|Hin].
    + unfold delete_prefix in Hin. simpl in Hin. intuition discriminate.
    + revert Hin. apply fetchProjects_no_select.
Qed.

Lemma C3_witness :
  let c := {| selectedProject := Some Examples.demo; onProjectsLoaded := true;
              user := Some Examples.alice |} in
  let wd := {| d_token := Returned Examples.some_token;
               d_response := Returned (Examples.answer 200 (js "{}") (Returned tt)) |} in
  let wf := {| a_token := Returned Examples.some_token;
               a_response := Returned (Examples.answer 200 (js "[]")
                                         (Returned (TeamsArray [Examples.other])));
               a_clock := Examples.clock0 |} in
  effects (handleDeleteProject c (js "t1") true wd wf)
  = delete_prefix Examples.some_token (js "t1")
    ++ [Call (OnProjectSelect None)]
    ++ effects (fetchProjects c wf).
Proof.
  intros c wd wf.
  exact (proj1 (proj1 (C3_delete_clears_selection_before_refetch
                         c (js "t1") wd wf Examples.some_token
                         (Examples.answer 200 (js "{}") (Returned tt))
                         eq_refl eq_refl eq_refl) eq_refl)).
Defined.

End SidebarFacts.

(** ** InviteNotifications *)

Module InviteFacts.
Import InviteNotifications.

(** [fetchInvites] never calls the parent. *)
Lemma fetchInvites_no_callback (w : Answers) :
  ~ In (Call OnInviteHandled) (effects (fetchInvites w)).
Proof.
  destruct w as [[t|e] resp].
  2:{ unfold effects, fetchInvites; cbn. intuition discriminate. }
  destruct (token_truthy t) eqn:Hy.
  2:{ unfold effects, fetchInvites; cbn; rewrite Hy; cbn. intuition discriminate. }
  destruct resp as [r|e].
  2:{ unfold effects, fetchInvites; cbn; rewrite Hy; cbn. intuition discriminate. }
  destruct (ok r) eqn:Hok, (json r) as [?|?] eqn:J;
    unfold effects, fetchInvites; cbn; rewrite Hy; cbn; rewrite Hok; cbn;
    rewrite ?J; cbn; intuition discriminate.
Qed.

(** Once [fetchInvites] has a token, it sends the GET of the invite
    list after its first [await]. *)
Lemma fetchInvites_requests (w : Answers) (t : token) :
  a_token w = Returned t -> token_truthy t = true ->
  In (Call (Fetch (invites_request t))) (from_await (now (fetchInvites w))).
Proof.
  intros Ht Hy. destruct w as [tok resp]; simpl in Ht; subst tok.
  destruct resp as [r|e].
  2:{ unfold fetchInvites; cbn; rewrite Hy; cbn. auto. }
  destruct (ok r) eqn:Hok, (json r) as [?|?] eqn:J;
    unfold fetchInvites; cbn; rewrite Hy; cbn; rewrite Hok; cbn;
    rewrite ?J; cbn; auto.
Qed.

(** The shape of a successful [handleInvite]. *)
Lemma handleInvite_success (c : Closure) (inviteId action : jsstring)
    (wp : PostAnswers) (wf : Answers) (t : token) (r : response unit) :
  p_token wp = Returned t -> p_response wp = Returned r -> ok r = true ->
  now (handleInvite c inviteId action wp wf)
    = post_prefix t inviteId action
      ++ until_await (now (fetchInvites wf))
      ++ (if Js.eqb action (js "accept") && onInviteHandled c
          then [Call OnInviteHandled] else [])
  /\ later (handleInvite c inviteId action wp wf)
    = from_await (now (fetchInvites wf)) ++ later (fetchInvites wf).
Proof.
  intros Ht Hr Hok.
  destruct wp as [tok resp]; simpl in Ht, Hr; subst tok resp.
  unfold handleInvite, post_prefix.
  generalize (fetchInvites wf) as m; intros m.
  destruct (Js.eqb action (js "accept") && onInviteHandled c) eqn:B;
    cbn; rewrite Hok; cbn; rewrite ?app_nil_r; split; reflexivity.
Qed.

(** C4.  When the POST of [handleInvite] succeeds, for every invite:
    the parent callback [onInviteHandled] is called when the action is
    "accept", and is not called when the action is "reject" (nor for
    any action other than "accept"); for every action the refetch
    [fetchInvites] is started inside the handler and completes after
    it, sending the GET of the invite list once it has its token. *)
Theorem C4_accept_and_only_accept_refreshes_parent
    (c : Closure) (inviteId : jsstring)
    (wp : PostAnswers) (wf : Answers) (t : token) (r : response unit) :
  p_token wp = Returned t -> p_response wp = Returned r -> ok r = true ->
  (onInviteHandled c = true ->
     In (Call OnInviteHandled)
        (now (handleInvite c inviteId (js "accept") wp wf)))
  /\ ~ In (Call OnInviteHandled)
          (effects (handleInvite c inviteId (js "reject") wp wf))
  /\ (forall action,
        In (Call OnInviteHandled)
           (effects (handleInvite c inviteId action wp wf)) ->
        action = js "accept")
  /\ (forall action s,
        let run := handleInvite c inviteId action wp wf in
        now run = post_prefix t inviteId action
                  ++ until_await (now (fetchInvites wf))
                  ++ (if Js.eqb action (js "accept") && onInviteHandled c
                      then [Call OnInviteHandled] else [])
        /\ later run = from_await (now (fetchInvites wf)) ++ later (fetchInvites wf)
        /\ after run s = after (fetchInvites wf) s
        /\ (forall t', a_token wf = Returned t' -> token_truthy t' = true ->
              In (Call (Fetch (invites_request t'))) (later run))).
Proof.
  intros Ht Hr Hok.
  assert (Only : forall action,
            In (Call OnInviteHandled)
               (effects (handleInvite c inviteId action wp wf)) ->
            Js.eqb action (js "accept") && onInviteHandled c = true).
  { intros action Hin. unfold effects in Hin.
    destruct (handleInvite_success c inviteId action wp wf t r Ht Hr Hok) as [Hn Hl].
    rewrite Hn, Hl in Hin.
    destruct (Js.eqb action (js "accept") && onInviteHandled c); [reflexivity|].
    exfalso.
    pose proof (fetchInvites_no_callback wf) as NC. unfold effects in NC.
    remember (fetchInvites wf) as m eqn:Em. clear Em.
    rewrite app_nil_r in Hin.
    apply in_app_or in Hin as [Hin|Hin];
      [apply in_app_or in Hin as [Hin|Hin]|apply in_app_or in Hin as [Hin|Hin]].
    - unfold post_prefix in Hin; simpl in Hin; intuition discriminate.
    - apply in_until_await in Hin. apply NC, in_or_app. now left.
    - apply in_from_await in Hin. apply NC, in_or_app. now left.
    - apply NC, in_or_app. now right. }
  split; [|split; [|split]].
  - intros Hcb.
    destruct (handleInvite_success c inviteId (js "accept") wp wf t r Ht Hr Hok) as [Hn _].
    rewrite Hn, Hcb. rewrite eqb_refl. simpl andb. cbv iota.
    apply in_or_app; right. apply in_or_app; right. now left.
  - intros Hin. apply Only in Hin. discriminate Hin.
  - intros action Hin. apply Only in Hin.
    apply andb_true_iff in Hin as [Hin _]. now apply eqb_eq.
  - intros action s run.
    destruct (handleInvite_success c inviteId action wp wf t r Ht Hr Hok) as [Hn Hl].
    fold run in Hn, Hl.
    split; [|split; [|split]].
    + exact Hn.
    + exact Hl.
    + unfold after, effects. rewrite Hn, Hl.
      rewrite !exec_app.
      assert (P : exec apply (post_prefix t inviteId action) s = s) by reflexivity.
      rewrite P.
      assert (Q : forall s0,
                exec apply (if Js.eqb action (js "accept") && onInviteHandled c
                            then [Call OnInviteHandled] else []) s0 = s0).
      { intros s0. now destruct (Js.eqb action (js "accept") && onInviteHandled c). }
      rewrite Q.
      rewrite <- !exec_app. rewrite app_assoc, until_from_await. reflexivity.
    + intros t' Ht' Hy'. rewrite Hl. apply in_or_app. left.
      now apply fetchInvites_requests.
Qed.

Lemma C4_witness :
  let c := {| isOpen := true; onInviteHandled := true |} in
  let wp := {| p_token := Returned Examples.some_token;
               p_response := Returned (Examples.answer 200 (js "{}") (Returned tt)) |} in
  let wf := {| a_token := Returned Examples.some_token;
               a_response := Returned (Examples.answer 200 (js "[]") (Returned [])) |} in
  In (Call OnInviteHandled) (now (handleInvite c (js "inv-1") (js "accept") wp wf))
  /\ ~ In (Call OnInviteHandled)
          (effects (handleInvite c (js "inv-1") (js "reject") wp wf)).
Proof.
  intros c wp wf.
  destruct (C4_accept_and_only_accept_refreshes_parent
              c (js "inv-1") wp wf Examples.some_token
              (Examples.answer 200 (js "{}") (Returned tt))
              eq_refl eq_refl eq_refl) as (H1 & H2 & _).
  split; [exact (H1 eq_refl)|exact H2].
Defined.

(** C9.  When the POST of [handleInvite] fails (a failure status, or a
    rejected [fetch] or [getIdToken]), for every invite and action: the
    error toast is shown as the last effect, no state cell is written
    (the invite list stays as it was), no refetch is started or left
    pending, and the parent callback is not called. *)
Theorem C9_failed_invite_action_changes_nothing
    (c : Closure) (inviteId action : jsstring)
    (wp : PostAnswers) (wf : Answers) (s : State) :
  post_failure wp ->
  let run := handleInvite c inviteId action wp wf in
  (exists pre, effects run
               = pre ++ [Call (ShowError (js "Failed to " ++ action ++ js " invite"))]
               /\ forall m, ~ In (Call (ShowSuccess m)) pre)
  /\ after run s = s
  /\ invites (after run s) = invites s
  /\ (forall w, ~ In (Write w) (effects run))
  /\ (forall t, ~ In (Call (Fetch (invites_request t))) (effects run))
  /\ later run = []
  /\ ~ In (Call OnInviteHandled) (effects run)
  /\ out run = Returned tt.
Proof.
  intros F run.
  assert (E : exists pre,
             effects run
             = pre ++ [Call (ShowError (js "Failed to " ++ action ++ js " invite"))]
             /\ later run = []
             /\ (pre = [Call GetIdToken; Await]
                 \/ exists t, pre = [Call GetIdToken; Await;
                                     Call (Fetch (action_request t inviteId action));
                                     Await])
             /\ out run = Returned tt).
  { subst run. destruct wp as [tok resp].
    destruct F as [e Ht|t e Ht Hr|t r Ht Hr Hok]; simpl in *; subst.
    - exists [Call GetIdToken; Await]. cbn. auto.
    - exists [Call GetIdToken; Await;
              Call (Fetch (action_request t inviteId action)); Await].
      unfold effects, handleInvite. cbn.
      split; [reflexivity|]. split; [reflexivity|]. split; [|reflexivity].
      right. now exists t.
    - exists [Call GetIdToken; Await;
              Call (Fetch (action_request t inviteId action)); Await].
      unfold effects, handleInvite. cbn. rewrite Hok. cbn.
      split; [reflexivity|]. split; [reflexivity|]. split; [|reflexivity].
      right. now exists t. }
  destruct E as (pre & E & L & Hpre & O).
  assert (NoGet : forall t, ~ In (Call (Fetch (invites_request t))) (effects run)).
  { intros t Hin. rewrite E in Hin.
    apply in_app_or in Hin as [Hin|Hin].
    - destruct Hpre as [->|[t' ->]]; simpl in Hin.
      + intuition discriminate.
      + destruct Hin as [Hin|[Hin|[Hin|[Hin|[]]]]]; try discriminate;
          injection Hin as Hq;
          apply (f_equal method) in Hq; vm_compute in Hq; discriminate.
    - simpl in Hin. intuition discriminate. }
  assert (NoWrite : forall w, ~ In (Write w) (effects run)).
  { intros w Hin. rewrite E in Hin.
    apply in_app_or in Hin as [Hin|Hin].
    - destruct Hpre as [->|[t' ->]]; simpl in Hin; intuition discriminate.
    - simpl in Hin. intuition discriminate. }
  assert (Same : after run s = s).
  { unfold after. rewrite E, exec_app.
    destruct Hpre as [->|[t' ->]]; reflexivity. }
  split.
  { exists pre. split; [exact E|].
    intros m Hin. destruct Hpre as [->|[t' ->]]; simpl in Hin; intuition discriminate. }
  split; [exact Same|].
  split; [now rewrite Same|].
  split; [exact NoWrite|].
  split; [exact NoGet|].
  split; [exact L|].
  split; [|exact O].
  intros Hin. rewrite E in Hin.
  apply in_app_or in Hin as [Hin|Hin].
  - destruct Hpre as [->|[t' ->]]; simpl in Hin; intuition discriminate.
  - simpl in Hin. intuition discriminate.
Qed.

Lemma C9_witness :
  let c := {| isOpen := true; onInviteHandled := true |} in
  let wp := {| p_token := Returned Examples.some_token;
               p_response := Returned (Examples.answer 500 (js "boom") (Returned tt)) |} in
  let wf := {| a_token := Returned Examples.some_token;
               a_response := Returned (Examples.answer 200 (js "[]") (Returned [])) |} in
  let s := {| invites := [ {| invite_id := js "inv-1"; inviter_name := js "Bob";
                              inviter_email := js "bob@example.com";
                              team_name := js "Demo";
                              invite_created_at := js "2024-01-01" |} ];
              loading := false |} in
  post_failure wp
  /\ after (handleInvite c (js "inv-1") (js "accept") wp wf) s = s
  /\ ~ In (Call OnInviteHandled)
          (effects (handleInvite c (js "inv-1") (js "accept") wp wf)).
Proof.
  intros c wp wf s.
  assert (F : post_failure wp).
  { eapply post_not_ok; reflexivity. }
  split; [exact F|].
  destruct (C9_failed_invite_action_changes_nothing
              c (js "inv-1") (js "accept") wp wf s F)
    as (_ & H2 & _ & _ & _ & _ & H7 & _).
  split; [exact H2|exact H7].
Defined.

End InviteFacts.

(** ** AddProjectModal *)

Module ModalFacts.
Import AddProjectModal.
Local Arguments is_network_failure : simpl never.

(** A submit that fails runs the [catch] block on the error caught and
    then the [finally] block. *)
Lemma handleSubmit_caught (snap : State) (w : Answers) (err : exn) :
  truthy (trim (teamName (formData snap))) = true ->
  submit_failure w err ->
  exists attempt,
    effects (handleSubmit snap w)
    = [Call PreventDefault; Write (SetLoading true); Write (SetError None)]
      ++ attempt ++ recovery snap w err ++ [Write (SetLoading false)]
    /\ Forall (attempt_step snap) attempt.
Proof.
  intros Hname F. destruct w as [tok resp clk].
  assert (A : attempt_step snap Await) by now left.
  assert (G : attempt_step snap (Call GetIdToken)) by (right; now left).
  assert (Q : forall t, attempt_step snap (Call (Fetch (create_request t (formData snap)))))
    by (intros t; right; right; now exists t).
  destruct F as [Ht|t Ht Hr|t r Ht Hr Hok Hj|t r d Ht Hr Hok Hj He|t r Ht Hr Hok Hj];
    simpl in *; subst.
  - exists [Call GetIdToken; Await]. split; [|repeat (apply Forall_cons; [auto|]); apply Forall_nil].
    unfold effects, handleSubmit, recovery. rewrite Hname. cbn.
    destruct (is_network_failure err); reflexivity.
  - exists [Call GetIdToken; Await;
            Call (Fetch (create_request t (formData snap))); Await].
    split; [|repeat (apply Forall_cons; [auto|]); apply Forall_nil].
    unfold effects, handleSubmit, recovery. rewrite Hname. cbn.
    destruct (is_network_failure err); reflexivity.
  - exists [Call GetIdToken; Await;
            Call (Fetch (create_request t (formData snap))); Await; Await].
    split; [|repeat (apply Forall_cons; [auto|]); apply Forall_nil].
    unfold effects, handleSubmit, recovery. rewrite Hname. cbn.
    rewrite Hok. cbn. rewrite Hj. cbn.
    destruct (is_network_failure err); reflexivity.
  - exists [Call GetIdToken; Await;
            Call (Fetch (create_request t (formData snap))); Await; Await].
    split; [|repeat (apply Forall_cons; [auto|]); apply Forall_nil].
    unfold effects, handleSubmit, recovery. rewrite Hname. cbn.
    rewrite Hok. cbn. rewrite Hj. cbn.
    destruct (is_network_failure _); reflexivity.
  - exists [Call GetIdToken; Await;
            Call (Fetch (create_request t (formData snap))); Await; Await].
    split; [|repeat (apply Forall_cons; [auto|]); apply Forall_nil].
    unfold effects, handleSubmit, recovery. rewrite Hname. cbn.
    rewrite Hok. cbn. rewrite Hj. cbn.
    destruct (is_network_failure err); reflexivity.
Qed.

Lemma attempt_exec (snap : State) (attempt : list (effect setter)) (s : State) :
  Forall (attempt_step snap) attempt -> exec apply attempt s = s.
Proof.
  induction 1 as [|e l [->|[->|[t ->]]] _ IH]; simpl; auto.
Qed.

Lemma attempt_in (snap : State) (attempt : list (effect setter)) (e : effect setter) :
  Forall (attempt_step snap) attempt -> In e attempt -> attempt_step snap e.
Proof.
  intros F Hin. rewrite Forall_forall in F. now apply F.
Qed.

(** Every request of [handleSubmit] is the creation request, sent with
    the token obtained, and only for a name that does not trim to the
    empty string. *)
Lemma handleSubmit_requests (snap : State) (w : Answers) (q : request) :
  In (Call (Fetch q)) (effects (handleSubmit snap w)) ->
  truthy (trim (teamName (formData snap))) = true
  /\ exists t, a_token w = Returned t /\ q = create_request t (formData snap).
Proof.
  intros Hin.
  destruct (truthy (trim (teamName (formData snap)))) eqn:Hname.
  2:{ unfold effects, handleSubmit in Hin. rewrite Hname in Hin.
      cbn in Hin. intuition discriminate. }
  split; [reflexivity|].
  destruct w as [[t|e] resp clk].
  2:{ unfold effects, handleSubmit in Hin. rewrite Hname in Hin. cbn in Hin.
      destruct (is_network_failure e); cbn in Hin; intuition discriminate. }
  exists t. split; [reflexivity|].
  assert (K : forall x : effect setter,
             x = Call (Fetch q) ->
             x = Call (Fetch (create_request t (formData snap))) ->
             q = create_request t (formData snap)).
  { intros x -> [= ->]. reflexivity. }
  unfold effects, handleSubmit in Hin. rewrite Hname in Hin.
  destruct resp as [r|e]; cbn in Hin.
  2:{ destruct (is_network_failure e); cbn in Hin;
        repeat (destruct Hin as [Hin|Hin];
                [try discriminate; injection Hin as <-; reflexivity|]);
        destruct Hin. }
  destruct (ok r) eqn:Hok, (json r) as [d|e] eqn:J; cbn in Hin;
    try match type of Hin with
        | context [is_network_failure ?x] => destruct (is_network_failure x)
        end; cbn in Hin;
    repeat (destruct Hin as [Hin|Hin];
            [try discriminate; injection Hin as <-; reflexivity|]);
    destruct Hin.
Qed.

(** C6.  When the project name is empty or whitespace only, submitting
    the form sets the validation message "Project name is required" and
    does nothing else: no token is asked for and no request is sent.
    Conversely every request the handler sends is the POST to [/teams/]
    for a name whose trimmed form is not empty. *)
Theorem C6_blank_name_no_request
    (snap : State) (w : Answers) (s : State) :
  let run := handleSubmit snap w in
  (forallb isWhiteSpace (teamName (formData snap)) = true ->
     effects run
       = [ Call PreventDefault;
           Write (SetError (Some (js "Project name is required"))) ]
     /\ (forall q, ~ In (Call (Fetch q)) (effects run))
     /\ ~ In (Call GetIdToken) (effects run)
     /\ error (after run s) = Some (js "Project name is required"))
  /\ (forall q, In (Call (Fetch q)) (effects run) ->
        trim (teamName (formData snap)) <> []
        /\ method q = js "POST" /\ url q = js "/teams/").
Proof.
  intros run. split.
  - intros Hblank. apply truthy_trim_iff in Hblank.
    assert (E : effects run
                = [ Call PreventDefault;
                    Write (SetError (Some (js "Project name is required"))) ]).
    { subst run. unfold effects, handleSubmit. now rewrite Hblank. }
    split; [exact E|].
    split; [intros q Hin; rewrite E in Hin; simpl in Hin; intuition discriminate|].
    split; [intros Hin; rewrite E in Hin; simpl in Hin; intuition discriminate|].
    unfold after. now rewrite E.
  - intros q Hin. apply handleSubmit_requests in Hin as (Hname & t & _ & ->).
    split; [|split; reflexivity].
    intros Hnil. now rewrite Hnil in Hname.
Qed.

Lemma C6_witness :
  let snap := {| formData := {| teamName := js "   "; description := js "x";
                                memberEmails := [] |};
                 loading := false; error := None |} in
  let w := {| a_token := Returned Examples.some_token;
              a_response := Examples.network_down;
              a_clock := Examples.clock0 |} in
  forallb isWhiteSpace (teamName (formData snap)) = true
  /\ (forall q, ~ In (Call (Fetch q)) (effects (handleSubmit snap w)))
  /\ error (after (handleSubmit snap w) snap) = Some (js "Project name is required").
Proof.
  intros snap w.
  split; [reflexivity|].
  destruct (proj1 (C6_blank_name_no_request snap w snap) eq_refl)
    as (_ & H2 & _ & H4).
  split; [exact H2|exact H4].
Defined.

(** C8.  When a submit with a valid name fails and the message of the
    error caught contains "Failed to fetch" or "NetworkError", the
    handler ends as a success: it builds a mock project with the
    (trimmed) name and description of the form, hands it to
    [onProjectCreated], closes the modal, resets the form and shows no
    error.  For every other failure it sets a non-empty error message,
    leaves the form as it is, and calls neither [onProjectCreated] nor
    [onClose]. *)
Theorem C8_network_failure_falls_back_to_mock
    (snap : State) (w : Answers) (err : exn) (s : State) :
  truthy (trim (teamName (formData snap))) = true ->
  submit_failure w err ->
  let run := handleSubmit snap w in
  let mock := mockProject (formData snap) (a_clock w) in
  (is_network_failure err = true ->
     (exists pre, calls (effects run) = pre ++ [OnProjectCreated mock; OnClose]
                  /\ forall p, ~ In (OnProjectCreated p) pre)
     /\ Data.teamName mock = trim (teamName (formData snap))
     /\ Data.description mock = trim (description (formData snap))
     /\ formData (after run s) = emptyForm
     /\ error (after run s) = None
     /\ loading (after run s) = false)
  /\ (is_network_failure err = false ->
     (exists m, error (after run s) = Some m /\ truthy m = true)
     /\ error (after run s)
          = Some (or_else (Some (message_of err)) (js "Failed to create project"))
     /\ ~ In (Call OnClose) (effects run)
     /\ (forall p, ~ In (Call (OnProjectCreated p)) (effects run))
     /\ formData (after run s) = formData s
     /\ loading (after run s) = false).
Proof.
  intros Hname F run mock.
  destruct (handleSubmit_caught snap w err Hname F) as (attempt & E & A).
  fold run in E.
  assert (X : forall s0, exec apply attempt s0 = s0)
    by (intros s0; now apply attempt_exec with (snap := snap)).
  assert (NC : forall e, In (Call e) attempt ->
                 e = GetIdToken \/ exists q, e = Fetch q).
  { intros e Hin. apply (attempt_in snap attempt _ A) in Hin.
    destruct Hin as [Hin|[Hin|[t Hin]]]; try discriminate.
    - injection Hin as ->. now left.
    - injection Hin as ->. right. now eexists. }
  split; intros N; unfold recovery in E; rewrite N in E.
  - split.
    { exists (PreventDefault :: calls attempt). split.
      - rewrite E. simpl. rewrite !calls_app. reflexivity.
      - intros p [Hin|Hin]; [discriminate|].
        assert (Hc : In (Call (W := setter) (OnProjectCreated p)) attempt).
        { clear - Hin. induction attempt as [|[x|e|] l IH]; simpl in *; auto.
          destruct Hin as [->|Hin]; auto. }
        apply NC in Hc as [Hc|[q Hc]]; discriminate. }
    split; [reflexivity|]. split; [reflexivity|].
    unfold after. rewrite E. simpl. rewrite exec_app, X. simpl. auto.
  - assert (Hm : truthy (or_else (Some (message_of err))
                                 (js "Failed to create project")) = true).
    { unfold or_else. destruct (truthy (message_of err)) eqn:T; [exact T|reflexivity]. }
    assert (Herr : error (after run s)
                   = Some (or_else (Some (message_of err))
                                   (js "Failed to create project"))).
    { unfold after. rewrite E. simpl. rewrite exec_app, X. reflexivity. }
    split; [eexists; split; [exact Herr|exact Hm]|].
    split; [exact Herr|].
    assert (NoCall : forall e, (e <> GetIdToken) -> (forall q, e <> Fetch q) ->
                       e <> PreventDefault -> ~ In (Call e) (effects run)).
    { intros e H1 H2 H3 Hin. rewrite E in Hin. simpl in Hin.
      destruct Hin as [Hin|[Hin|[Hin|Hin]]]; try discriminate.
      - injection Hin as <-. now apply H3.
      - apply in_app_or in Hin as [Hin|Hin].
        + apply NC in Hin as [->|[q ->]]; [now apply H1|now apply (H2 q)].
        + simpl in Hin. intuition discriminate. }
    split; [apply NoCall; try discriminate; intros q; discriminate|].
    split; [intros p; apply NoCall; try discriminate; intros q; discriminate|].
    unfold after. rewrite E. simpl. rewrite exec_app, X. simpl. auto.
Qed.

Lemma C8_witness :
  let snap := {| formData := {| teamName := js " Apollo "; description := js "Moon";
                                memberEmails := js "a@x.org, b@x.org" |};
                 loading := false; error := None |} in
  let w := {| a_token := Returned Examples.some_token;
              a_response := Examples.network_down;
              a_clock := Examples.clock0 |} in
  submit_failure w (Error (js "Failed to fetch"))
  /\ formData (after (handleSubmit snap w) snap) = emptyForm
  /\ error (after (handleSubmit snap w) snap) = None
  /\ Data.teamName (mockProject (formData snap) (a_clock w)) = js "Apollo".
Proof.
  intros snap w.
  assert (F : submit_failure w (Error (js "Failed to fetch"))).
  { eapply sf_fetch; reflexivity. }
  split; [exact F|].
  destruct (proj1 (C8_network_failure_falls_back_to_mock
                     snap w (Error (js "Failed to fetch")) snap eq_refl F) eq_refl)
    as (_ & H2 & _ & H4 & H5 & _).
  split; [exact H4|]. split; [exact H5|].
  rewrite H2. reflexivity.
Defined.

End ModalFacts.

(** ** ThinkBuddyAssistant *)

Module AssistantFacts.
Import ThinkBuddyAssistant.




(** *** Segments *)

Lemma exec_isTyping (seg : list (effect setter)) (s : State) :
  isTyping (exec apply seg s) = final_typing (typing_writes seg) (isTyping s).
Proof.
  revert s; induction seg as [|[x|e|] seg IH]; intros s; simpl; auto.
  destruct x; simpl; rewrite IH; reflexivity.
Qed.

Lemma segment_typing (es : list (effect setter)) (last : option event) :
  typing_writes es
  = typing_writes (fst (segment last es)) ++ rest_writes (snd (segment last es)).
Proof.
  revert last; induction es as [|[x|e|] es IH]; intros last; simpl.
  - reflexivity.
  - specialize (IH None). destruct (segment None es) as [seg t]. simpl in *.
    destruct x; simpl; now rewrite IH.
  - specialize (IH (Some e)). destruct (segment (Some e) es) as [seg t].
    simpl in *. exact IH.
  - reflexivity.
Qed.

Lemma segment_guarded (es : list (effect setter)) (last : option event) :
  chat_guarded es ->
  (forall e, last = Some e -> is_chat_fetch e = true ->
             typing_writes es = [false]) ->
  match snd (segment last es) with
  | Some t => chat_guarded (rest t)
              /\ (waits_for_chat t = true -> typing_writes (rest t) = [false])
  | None => True
  end.
Proof.
  revert last; induction es as [|[x|e|] es IH]; intros last G L; simpl in *.
  - exact I.
  - specialize (IH None G). destruct (segment None es) as [seg t]. simpl in *.
    apply IH. intros e [=].
  - destruct G as [G1 G2]. specialize (IH (Some e) G2).
    destruct (segment (Some e) es) as [seg t]. simpl in *.
    apply IH. intros e' [= <-]. exact G1.
  - split; [exact G|]. unfold waits_for_chat. simpl.
    destruct last as [e|]; [|discriminate]. intros H. now apply (L e).
Qed.

Lemma app_single (A : Type) (a b : list A) (x : A) :
  a ++ b = [x] -> (a = [x] /\ b = []) \/ (a = [] /\ b = [x]).
Proof.
  destruct a as [|y a]; simpl; intros H; [now right|].
  injection H as -> H. apply app_eq_nil in H as [-> ->]. now left.
Qed.

Lemma count_sending_app (l1 l2 : list task) :
  List.length (filter sending (l1 ++ l2))
  = (List.length (filter sending l1) + List.length (filter sending l2))%nat.
Proof.
  now rewrite filter_app, length_app.
Qed.

(** Running a well-formed list of effects to its next [await] keeps the
    invariant, provided the list either leaves [isTyping] alone, or
    resets it once and replaces a suspended sender, or sets and resets
    it while nobody is sending. *)
Lemma advance_invariant (es : list (effect setter)) (s : State)
    (l1 l2 : list task) (old : nat) :
  Forall task_ok l1 -> Forall task_ok l2 ->
  chat_guarded es ->
  (List.length (filter sending l1) + old + List.length (filter sending l2)
   = if isTyping s then 1 else 0)%nat ->
  (typing_writes es = [] /\ old = 0%nat)
  \/ (typing_writes es = [false] /\ old = 1%nat)
  \/ (typing_writes es = [true; false] /\ old = 0%nat /\ isTyping s = false
      /\ typing_writes (fst (segment None es)) = [true]) ->
  invariant (advance es s l1 l2).
Proof.
  intros F1 F2 G Hcount Hcase.
  pose proof (segment_typing es None) as T.
  pose proof (segment_guarded es None G) as SG.
  assert (SG' : match snd (segment None es) with
                | Some t => chat_guarded (rest t)
                            /\ (waits_for_chat t = true ->
                                typing_writes (rest t) = [false])
                | None => True
                end) by (apply SG; intros e [=]).
  clear SG. unfold invariant, advance. simpl.
  rewrite exec_isTyping.
  destruct (segment None es) as [seg ot]. simpl in *.
  assert (OK : forall tw, rest_writes ot = tw -> tw = [] \/ tw = [false] ->
                 Forall task_ok (l1 ++ opt_task ot ++ l2)).
  { intros tw Htw Hor. apply Forall_app; split; [exact F1|].
    apply Forall_app; split; [|exact F2].
    destruct ot as [t|]; simpl; [|constructor].
    constructor; [|constructor]. simpl in Htw. subst tw.
    destruct SG' as [A B]. repeat split; assumption. }
  assert (CNT : List.length (filter sending (l1 ++ opt_task ot ++ l2))
                = (List.length (filter sending l1)
                   + (match rest_writes ot with [false] => 1 | _ => 0 end)
                   + List.length (filter sending l2))%nat).
  { rewrite !count_sending_app, Nat.add_assoc. f_equal. f_equal.
    destruct ot as [t|]; simpl; [|reflexivity].
    unfold sending. now destruct (typing_writes (rest t)) as [|[|] [|? ?]]. }
  rewrite CNT.
  destruct Hcase as [[Htw ->]|[[Htw ->]|(Htw & -> & Hs & Hseg)]].
  - rewrite Htw in T. symmetry in T. apply app_eq_nil in T as [T1 T2].
    split; [apply (OK []); auto|].
    rewrite T1, T2. simpl. exact Hcount.
  - rewrite Htw in T. symmetry in T. apply app_single in T as [[T1 T2]|[T1 T2]].
    + split; [apply (OK []); auto|].
      rewrite T1, T2. simpl.
      destruct (isTyping s); simpl in *; lia.
    + split; [apply (OK [false]); auto|].
      rewrite T1, T2. simpl. exact Hcount.
  - rewrite Htw, Hseg in T. simpl in T. injection T as T.
    split; [apply (OK [false]); auto|].
    rewrite Hseg, <- T. simpl. rewrite Hs in Hcount. simpl in *. lia.
Qed.

(** *** The handlers, as lists of effects *)

Ltac guarded :=
  simpl; repeat split;
  try (intros _; reflexivity);
  try (let H := fresh in intros H; vm_compute in H; discriminate H).

(** [handleSendMessage] either does nothing, or appends the user turn,
    sets [isTyping] before its first [await] and resets it at its end. *)
Lemma handleSendMessage_shape (snap : State) (custom : option jsstring)
    (w : ChatAnswers) :
  let es := effects (handleSendMessage snap custom w) in
  chat_guarded es
  /\ (es = []
      \/ (isTyping snap = false
          /\ truthy (messageToSend_of snap custom) = true
          /\ typing_writes (fst (segment None es)) = [true]
          /\ typing_writes es = [true; false]
          /\ forall m, In (Write (AppendMessage m)) es ->
                       chat_role m = js "user" ->
                       content m = messageToSend_of snap custom)).
Proof.
  unfold handleSendMessage.
  set (msg := messageToSend_of snap custom).
  destruct (truthy msg) eqn:Hmsg; simpl negb; simpl orb.
  2:{ cbn. split; [exact I|now left]. }
  destruct (isTyping snap) eqn:Hty.
  1:{ cbn. split; [exact I|now left]. }
  clearbody msg.
  assert (U : forall m : ChatMessage,
            chat_role m = js "user" -> chat_role m = js "assistant" -> False).
  { intros m H1 H2. rewrite H1 in H2. vm_compute in H2. discriminate H2. }
  destruct w as [[t|e] resp clk].
  2:{ cbn. split; [guarded|right]. repeat split.
      intros m Hin Hr. simpl in Hin.
      repeat (destruct Hin as [Hin|Hin];
              [try discriminate; injection Hin as <-;
               first [reflexivity|exfalso; now apply (U _ Hr)]|]).
      destruct Hin. }
  destruct resp as [r|e].
  2:{ cbn. split; [guarded|right]. repeat split.
      intros m Hin Hr. simpl in Hin.
      repeat (destruct Hin as [Hin|Hin];
              [try discriminate; injection Hin as <-;
               first [reflexivity|exfalso; now apply (U _ Hr)]|]).
      destruct Hin. }
  destruct (ok r) eqn:Hok, (json r) as [d|e] eqn:J;
    cbn; rewrite Hok; cbn; rewrite ?J; cbn;
    (split; [guarded|right]); repeat split;
    intros m Hin Hr; simpl in Hin;
    repeat (destruct Hin as [Hin|Hin];
            [try discriminate; injection Hin as <-;
             first [reflexivity|exfalso; now apply (U _ Hr)]|]);
    destruct Hin.
Qed.

Lemma history_not_chat (t : token) (pid : option jsstring) :
  is_chat_fetch (Fetch (history_request t pid)) = false.
Proof.
  unfold is_chat_fetch, history_request, history_url; simpl.
  now destruct (id_truthy pid).
Qed.

Lemma clear_not_chat (t : token) (pid : option jsstring) :
  is_chat_fetch (Fetch (clear_request t pid)) = false.
Proof.
  unfold is_chat_fetch, clear_request; simpl.
  now destruct (id_truthy pid).
Qed.

Lemma history_url_not_chat (pid : option jsstring) :
  Js.eqb (history_url pid) chat_url = false.
Proof.
  unfold history_url. now destruct (id_truthy pid).
Qed.

Lemma clear_url_not_chat (t : token) (pid : option jsstring) :
  Js.eqb (url (clear_request t pid)) chat_url = false.
Proof.
  exact (clear_not_chat t pid).
Qed.

Lemma segment_fst_last (es : list (effect setter)) (l1 l2 : option event) :
  fst (segment l1 es) = fst (segment l2 es).
Proof.
  destruct es as [|[x|e|] es]; reflexivity.
Qed.

Local Arguments history_request : simpl never.
Local Arguments clear_request : simpl never.

Ltac quiet :=
  simpl; repeat split;
  try (let H := fresh in
       intros H;
       first [rewrite history_not_chat in H
             |rewrite clear_not_chat in H
             |rewrite history_url_not_chat in H
             |rewrite clear_url_not_chat in H
             |match type of H with
              | context [if ?c then _ else _] => destruct c
              end
             |vm_compute in H];
       discriminate H).

(** Handlers other than the senders leave [isTyping] alone and send no
    chat request. *)
Lemma loadChatHistory_quiet (snap : State) (w : HistoryAnswers) :
  chat_guarded (effects (loadChatHistory snap w))
  /\ typing_writes (effects (loadChatHistory snap w)) = [].
Proof.
  destruct w as [[t|e] resp clk]; [|cbn; quiet].
  destruct resp as [r|e]; [|cbn; quiet].
  destruct (ok r) eqn:Hok;
    [|unfold effects, loadChatHistory; cbn; rewrite Hok; cbn; quiet].
  destruct (json r) as [data|e] eqn:J;
    [|unfold effects, loadChatHistory; cbn; rewrite Hok; cbn; rewrite J; cbn; quiet].
  destruct (nonempty_history data) eqn:H;
    unfold effects, loadChatHistory; cbn; rewrite Hok; cbn; rewrite J; cbn;
    rewrite H; cbn; quiet.
Qed.

Lemma clearChatHistory_quiet (snap : State) (confirmed : bool) (w : ClearAnswers) :
  chat_guarded (effects (clearChatHistory snap confirmed w))
  /\ typing_writes (effects (clearChatHistory snap confirmed w)) = [].
Proof.
  destruct confirmed; [|cbn; quiet].
  destruct w as [[t|e] resp clk]; [|cbn; quiet].
  destruct resp as [r|e]; [|cbn; quiet].
  destruct (ok r) eqn:Hok;
    unfold effects, clearChatHistory; cbn; rewrite Hok; cbn; quiet.
Qed.

Lemma handleKeyPress_effects (snap : State) (key : jsstring) (shiftKey : bool)
    (w : ChatAnswers) :
  effects (handleKeyPress snap key shiftKey w)
  = if Js.eqb key (js "Enter") && negb shiftKey
    then Call PreventDefault :: effects (handleSendMessage snap None w)
    else [].
Proof.
  unfold handleKeyPress.
  destruct (Js.eqb key (js "Enter") && negb shiftKey); [|reflexivity].
  generalize (handleSendMessage snap None w) as m; intros m.
  unfold effects. cbn. now rewrite app_assoc, until_from_await.
Qed.

(** The effects of every handler of the pane: well guarded, and either
    silent on [isTyping] or a sender that found [isTyping] false. *)
Lemma handler_shape (projects : list Project) (snap : State) (t : trigger) :
  let es := effects (handler projects snap t) in
  chat_guarded es
  /\ (typing_writes es = []
      \/ (isTyping snap = false
          /\ typing_writes (fst (segment None es)) = [true]
          /\ typing_writes es = [true; false])).
Proof.
  assert (Send : forall custom w,
            let es := effects (handleSendMessage snap custom w) in
            chat_guarded es
            /\ (typing_writes es = []
                \/ (isTyping snap = false
                    /\ typing_writes (fst (segment None es)) = [true]
                    /\ typing_writes es = [true; false]))).
  { intros custom w es.
    destruct (handleSendMessage_shape snap custom w) as [G [E|(A & _ & B & C & _)]];
      fold es in G |- *; (split; [exact G|]).
    - fold es in E. rewrite E. now left.
    - right. auto. }
  destruct t as [v|w|key shiftKey w|prompt w|v|w|confirmed w]; simpl handler; cbv zeta.
  - split; [exact I|now left].
  - unfold handleSendClick. rewrite effects_spawn. apply Send.
  - rewrite handleKeyPress_effects.
    destruct (Js.eqb key (js "Enter") && negb shiftKey);
      [|split; [exact I|now left]].
    destruct (Send None w) as [G H].
    split; [split; [discriminate|exact G]|].
    destruct H as [H|(A & B & C)]; [now left|right].
    split; [exact A|]. split; [|exact C].
    simpl.
    pose proof (segment_fst_last (effects (handleSendMessage snap None w))
                  (Some PreventDefault) None) as L.
    destruct (segment (Some PreventDefault)
                (effects (handleSendMessage snap None w))) as [seg ot].
    simpl in *. now rewrite L.
  - unfold handlePredefinedPrompt. rewrite effects_spawn. apply Send.
  - split; [exact I|now left].
  - unfold useEffect_selectedProject. rewrite effects_spawn.
    destruct (loadChatHistory_quiet snap w) as [G T]. split; [exact G|now left].
  - destruct (clearChatHistory_quiet snap confirmed w) as [G T].
    split; [exact G|now left].
Qed.

(** *** The invariant *)

Lemma step_invariant (projects : list Project) (a b : System) :
  invariant a -> step projects a b -> invariant b.
Proof.
  intros [F C] St. destruct St as [sys t Adm|sys l1 l2 tk Hp].
  - destruct (handler_shape projects (ui sys) t) as [G H].
    apply advance_invariant with (old := 0%nat); auto.
    + rewrite Nat.add_0_r. simpl. rewrite Nat.add_0_r. exact C.
    + destruct H as [H|(A & B & D)]; [left; auto|right; right; auto].
  - rewrite Hp in F, C.
    apply Forall_app in F as [F1 F2].
    apply Forall_cons_iff in F2 as [[Htw [G W]] F2].
    rewrite count_sending_app in C. simpl in C.
    apply advance_invariant
      with (old := if sending tk then 1%nat else 0%nat); auto.
    + destruct (sending tk); simpl in C; lia.
    + unfold sending. destruct Htw as [Htw|Htw]; rewrite Htw; auto.
Qed.

Lemma reachable_invariant (projects : list Project) (sys : System) :
  reachable projects sys -> invariant sys.
Proof.
  induction 1 as [|a b _ IH St].
  - split; [constructor|reflexivity].
  - exact (step_invariant projects a b IH St).
Qed.

(** A task that waits for the answer to a chat request is a sender. *)
Lemma in_flight_le_sending (l : list task) :
  Forall task_ok l ->
  (List.length (filter waits_for_chat l) <= List.length (filter sending l))%nat.
Proof.
  induction 1 as [|tk l [_ [_ W]] _ IH]; simpl; [lia|].
  destruct (waits_for_chat tk) eqn:Hw.
  - assert (S : sending tk = true)
      by (unfold sending; now rewrite (W eq_refl)).
    rewrite S. simpl. lia.
  - destruct (sending tk); simpl; lia.
Qed.

(** *** User turns *)

Lemma loadChatHistory_no_append (snap : State) (w : HistoryAnswers) (m : ChatMessage) :
  ~ In (Write (AppendMessage m)) (effects (loadChatHistory snap w)).
Proof.
  destruct w as [[t|e] resp clk]; [|cbn; intuition discriminate].
  destruct resp as [r|e]; [|cbn; intuition discriminate].
  destruct (ok r) eqn:Hok;
    [|unfold effects, loadChatHistory; cbn; rewrite Hok; cbn;
      intuition discriminate].
  destruct (json r) as [data|e] eqn:J;
    [|unfold effects, loadChatHistory; cbn; rewrite Hok; cbn; rewrite J; cbn;
      intuition discriminate].
  destruct (nonempty_history data) eqn:H;
    unfold effects, loadChatHistory; cbn; rewrite Hok; cbn; rewrite J; cbn;
    rewrite H; cbn; intuition discriminate.
Qed.

Lemma clearChatHistory_no_append (snap : State) (confirmed : bool)
    (w : ClearAnswers) (m : ChatMessage) :
  ~ In (Write (AppendMessage m)) (effects (clearChatHistory snap confirmed w)).
Proof.
  destruct confirmed; [|cbn; intuition discriminate].
  destruct w as [[t|e] resp clk]; [|cbn; intuition discriminate].
  destruct resp as [r|e]; [|cbn; intuition discriminate].
  destruct (ok r) eqn:Hok;
    unfold effects, clearChatHistory; cbn; rewrite Hok; cbn;
    intuition discriminate.
Qed.

Lemma prompts_not_blank (prompt : jsstring) :
  In prompt PREDEFINED_PROMPTS ->
  truthy prompt = true /\ trim prompt <> [].
Proof.
  intros [<-|[<-|[<-|[<-|[]]]]]; split; try reflexivity; vm_compute; discriminate.
Qed.

(** The user turn a sender appends is never blank. *)
Lemma sent_turn_not_blank (snap : State) (custom : option jsstring)
    (w : ChatAnswers) (m : ChatMessage) :
  (custom = None \/ exists prompt, custom = Some prompt
                                   /\ In prompt PREDEFINED_PROMPTS) ->
  In (Write (AppendMessage m)) (effects (handleSendMessage snap custom w)) ->
  chat_role m = js "user" ->
  trim (content m) <> [].
Proof.
  intros Hc Hin Hr.
  destruct (handleSendMessage_shape snap custom w) as [_ [E|(_ & T & _ & _ & C)]].
  - rewrite E in Hin. destruct Hin.
  - rewrite (C m Hin Hr). unfold messageToSend_of in *.
    destruct Hc as [->|(prompt & -> & Hp)]; simpl in *.
    + rewrite trim_idem. intros Hnil. now rewrite Hnil in T.
    + destruct (prompts_not_blank prompt Hp) as [P1 P2]. now rewrite P1.
Qed.

(** A chat request does get in flight: the bound below is reached. *)
Lemma chat_request_in_flight :
  exists sys, reachable [] sys /\ in_flight sys = 1%nat.
Proof.
  set (w := {| c_token := Returned Examples.some_token;
               c_response := Examples.network_down;
               c_clock := Examples.clock0 |}).
  set (s1 := advance (effects (handler [] (ui boot)
                                 (ClickPrompt (js "Review my code") w)))
                     (ui boot) (pending boot) []).
  assert (R1 : reachable [] s1).
  { eapply reach_step; [apply reach_boot|].
    apply (step_trigger [] boot (ClickPrompt (js "Review my code") w)).
    simpl. auto 6. }
  destruct (pending s1) as [|tk l] eqn:P; [discriminate P|].
  exists (advance (rest tk) (ui s1) [] l). split.
  - eapply reach_step; [exact R1|]. now apply (step_resume [] s1 [] l tk).
  - injection P as <- <-. reflexivity.
Qed.

(** C10.  A call of [handleSendMessage] made while [isTyping] is true,
    and a call without a prompt made while the input is empty or
    whitespace only, has no effect at all.  Hence, in every state the
    pane reaches by user actions and resumptions of suspended handlers,
    at most one chat request is waiting for its answer, and then
    [isTyping] is true; and every user turn a handler appends has a
    content that does not trim to the empty string. *)
Theorem C10_one_chat_request_in_flight (projects : list Project) :
  (forall snap custom w,
     isTyping snap = true -> handleSendMessage snap custom w = ret tt)
  /\ (forall snap custom w,
        custom = None \/ custom = Some [] ->
        forallb isWhiteSpace (inputMessage snap) = true ->
        handleSendMessage snap custom w = ret tt)
  /\ (forall sys, reachable projects sys ->
        (in_flight sys <= 1)%nat
        /\ (in_flight sys = 1%nat -> isTyping (ui sys) = true))
  /\ (forall snap t m,
        admissible t ->
        In (Write (AppendMessage m)) (effects (handler projects snap t)) ->
        chat_role m = js "user" ->
        trim (content m) <> []).
Proof.
  split; [|split; [|split]].
  - intros snap custom w Hty. unfold handleSendMessage. rewrite Hty.
    now rewrite orb_true_r.
  - intros snap custom w Hc Hblank. apply truthy_trim_iff in Hblank.
    unfold handleSendMessage, messageToSend_of.
    destruct Hc as [->| ->]; simpl; now rewrite Hblank.
  - intros sys R. destruct (reachable_invariant projects sys R) as [F C].
    pose proof (in_flight_le_sending (pending sys) F) as L.
    unfold in_flight. destruct (isTyping (ui sys)); split; try lia; auto.
  - intros snap t m Adm Hin Hr.
    destruct t as [v|w|key shiftKey w|prompt w|v|w|confirmed w]; simpl in Hin.
    + destruct Hin as [Hin|[]]; discriminate.
    + unfold handleSendClick in Hin. rewrite effects_spawn in Hin.
      apply (sent_turn_not_blank snap None w m); auto.
    + rewrite handleKeyPress_effects in Hin.
      destruct (Js.eqb key (js "Enter") && negb shiftKey); [|destruct Hin].
      destruct Hin as [Hin|Hin]; [discriminate|].
      apply (sent_turn_not_blank snap None w m); auto.
    + unfold handlePredefinedPrompt in Hin. rewrite effects_spawn in Hin.
      apply (sent_turn_not_blank snap (Some prompt) w m); auto.
      right. exists prompt. split; [reflexivity|exact Adm].
    + destruct Hin as [Hin|[]]; discriminate.
    + unfold useEffect_selectedProject in Hin. rewrite effects_spawn in Hin.
      now apply loadChatHistory_no_append in Hin.
    + now apply clearChatHistory_no_append in Hin.
Qed.

Lemma C10_witness :
  let w := {| c_token := Returned Examples.some_token;
              c_response := Examples.network_down;
              c_clock := Examples.clock0 |} in
  let sys1 := advance (effects (handler [] (ui boot)
                                  (ClickPrompt (js "Review my code") w)))
                      (ui boot) (pending boot) [] in
  reachable [] sys1
  /\ isTyping (ui sys1) = true
  /\ (in_flight sys1 <= 1)%nat
  /\ handleSendMessage (ui sys1) (Some (js "again")) w = ret tt.
Proof.
  intros w sys1.
  assert (R : reachable [] sys1).
  { eapply reach_step; [apply reach_boot|].
    apply (step_trigger [] boot (ClickPrompt (js "Review my code") w)).
    simpl. auto 6. }
  assert (T : isTyping (ui sys1) = true) by reflexivity.
  destruct (C10_one_chat_request_in_flight []) as (H1 & _ & H3 & _).
  split; [exact R|]. split; [exact T|].
  split; [exact (proj1 (H3 sys1 R))|].
  exact (H1 (ui sys1) (Some (js "again")) w T).
Defined.

End AssistantFacts.

(* ================================================================== *)
(** * Further properties *)
(* ================================================================== *)

(** ** The matcher *)

Module RegexFacts.
Import Regex FormatterSpec.

Lemma suffix_refl (s : jsstring) : suffix_of s s.
Proof. now exists []. Qed.

Lemma suffix_trans (a b c : jsstring) :
  suffix_of a b -> suffix_of b c -> suffix_of a c.
Proof.
  intros [p ->] [q ->]. exists (q ++ p). now rewrite app_assoc.
Qed.

Lemma suffix_cons (x : N) (a s : jsstring) :
  suffix_of a s -> suffix_of a (x :: s).
Proof.
  intros [p ->]. now exists (x :: p).
Qed.

Lemma suffix_length (a s : jsstring) :
  suffix_of a s -> (List.length a <= List.length s)%nat.
Proof.
  intros [p ->]. rewrite length_app. lia.
Qed.

(** A successful match hands a suffix of the input to its continuation,
    and returns what the continuation returns. *)
Lemma run_inv (A : Type) (r : re) :
  forall (s : jsstring) (k : jsstring -> option A) (v : A),
    run r s k = Some v ->
    exists rest, suffix_of rest s /\ k rest = Some v.
Proof.
  induction r as [|p|a IHa b IHb|a IHa b IHb|a IHa|]; intros s k v H; simpl in H.
  - exists s. split; [apply suffix_refl|exact H].
  - destruct s as [|c s']; [discriminate|].
    destruct (p c); [|discriminate].
    exists s'. split; [now exists [c]|exact H].
  - apply IHa in H as (s1 & S1 & H). apply IHb in H as (s2 & S2 & H).
    exists s2. split; [eapply suffix_trans; eauto|exact H].
  - destruct (run a s k) eqn:E.
    + injection H as ->. now apply IHa in E.
    + now apply IHb in H.
  - revert H. generalize (List.length s) as fuel. intros fuel. revert s.
    induction fuel as [|fuel IH]; intros s H.
    + exists s. split; [apply suffix_refl|exact H].
    + match type of H with
      | match ?X with _ => _ end = _ => destruct X eqn:E
      end.
      * injection H as ->. apply IHa in E as (s1 & S1 & E).
        destruct (List.length s1 <? List.length s)%nat; [|discriminate].
        apply IH in E as (s2 & S2 & E).
        exists s2. split; [eapply suffix_trans; eauto|exact E].
      * exists s. split; [apply suffix_refl|exact H].
  - destruct s; [|discriminate]. exists []. split; [apply suffix_refl|exact H].
Qed.

(** Replacing an anchored match by nothing leaves a suffix. *)
Lemma replace_empty_suffix (r : re) (s : jsstring) :
  suffix_of (replace_empty r s) s.
Proof.
  unfold replace_empty. destruct (run r s (fun rest => Some rest)) eqn:E.
  - apply run_inv in E as (rest & S & [= ->]). exact S.
  - apply suffix_refl.
Qed.

End RegexFacts.

(** ** The chat text formatter, on every text *)

Module FormatterFacts.
Import Regex Formatter FormatterSpec RegexFacts.

Lemma in_trimStart (x : N) (s : jsstring) : In x (trimStart s) -> In x s.
Proof.
  induction s as [|c s IH]; simpl; [tauto|].
  destruct (isWhiteSpace c); simpl; tauto.
Qed.

Lemma in_trim (x : N) (s : jsstring) : In x (trim s) -> In x s.
Proof.
  unfold trim, trimEnd. intros H.
  apply in_rev, in_trimStart, in_rev in H. now apply in_trimStart.
Qed.

Lemma in_suffix (x : N) (a s : jsstring) : suffix_of a s -> In x a -> In x s.
Proof.
  intros [p ->] H. apply in_or_app. now right.
Qed.

(** A piece of a split string holds units of the string, and never the
    separator. *)
Lemma in_split (sep : N) (s l : jsstring) (x : N) :
  In l (split sep s) -> In x l -> In x s /\ x <> sep.
Proof.
  revert l; induction s as [|c s IH]; intros l Hl Hx; simpl in Hl.
  - destruct Hl as [<-|[]]. destruct Hx.
  - destruct (N.eqb c sep) eqn:E.
    + destruct Hl as [<-|Hl]; [destruct Hx|].
      destruct (IH l Hl Hx). split; [now right|assumption].
    + apply N.eqb_neq in E.
      destruct (split sep s) as [|l0 ls] eqn:S.
      * destruct Hl as [<-|[]]. destruct Hx as [<-|[]]. split; [now left|exact E].
      * destruct Hl as [<-|Hl].
        -- destruct Hx as [<-|Hx]; [split; [now left|exact E]|].
           destruct (IH l0 (or_introl eq_refl) Hx). split; [now right|assumption].
        -- destruct (IH l (or_intror Hl) Hx). split; [now right|assumption].
Qed.

Lemma split_length (sep : N) (s : jsstring) :
  List.length (split sep s) = S (count_occ N.eq_dec s sep).
Proof.
  induction s as [|c s IH]; simpl; [reflexivity|].
  destruct (N.eqb c sep) eqn:E.
  - apply N.eqb_eq in E. subst. simpl.
    destruct (N.eq_dec sep sep); [|congruence]. now rewrite IH.
  - apply N.eqb_neq in E.
    destruct (N.eq_dec c sep); [congruence|].
    destruct (split sep s); simpl in *; [discriminate|exact IH].
Qed.

Lemma mapi_from_length (A B : Type) (f : A -> nat -> B) (xs : list A) (i : nat) :
  List.length (mapi_from i f xs) = List.length xs.
Proof.
  revert i; induction xs as [|x xs IH]; intros i; simpl; auto.
Qed.

Lemma mapi_from_nth (A B : Type) (f : A -> nat -> B) (xs : list A) (i n : nat) :
  nth_error (mapi_from i f xs) n
  = option_map (fun x => f x (i + n)%nat) (nth_error xs n).
Proof.
  revert i n; induction xs as [|x xs IH]; intros i [|n]; simpl; auto.
  - now rewrite Nat.add_0_r.
  - rewrite IH. now rewrite Nat.add_succ_r.
Qed.

Lemma mapi_from_in (A B : Type) (f : A -> nat -> B) (xs : list A) (i : nat) (y : B) :
  In y (mapi_from i f xs) -> exists x j, In x xs /\ y = f x j.
Proof.
  revert i; induction xs as [|x xs IH]; intros i; simpl; [tauto|].
  intros [<-|H].
  - exists x, i. auto.
  - destruct (IH _ H) as (x' & j & Hin & ->). exists x', j. auto.
Qed.

Lemma in_somes (A : Type) (xs : list (option A)) (x : A) :
  In x (somes xs) <-> In (Some x) xs.
Proof.
  induction xs as [|[y|] xs IH]; simpl; [tauto| |].
  - rewrite IH. split; intros [H|H]; auto; left; congruence.
  - rewrite IH. split; [auto|]. intros [H|H]; [discriminate|exact H].
Qed.

(** What a line turns into: nothing, a break with the line's index as
    key, or a paragraph with that key, one of the two styles, and a
    non-empty text that is a suffix of the trimmed line. *)
Lemma formatLine_cases (line : jsstring) (index : nat) (e : element) :
  formatLine line index = Some e ->
  key_of e = index
  /\ match e with
     | Br _ => True
     | P _ cls t =>
         (cls = heading_class \/ cls = plain_class)
         /\ t <> [] /\ suffix_of t (trim line)
         /\ t = replace_empty re_subheading_prefix (trim line)
     end.
Proof.
  unfold formatLine.
  destruct (test re_subheading_line (trim line)); [discriminate|].
  pose proof (replace_empty_suffix re_subheading_prefix (trim line)) as S.
  set (t := replace_empty re_subheading_prefix (trim line)) in *.
  destruct (truthy t) eqn:T; simpl negb; cbv iota.
  - assert (t <> []) by (intros E; rewrite E in T; discriminate).
    destruct (test re_numbered t || test re_bullet t || test re_title t);
      intros [= <-]; simpl; auto 6.
  - intros [= <-]. simpl. auto.
Qed.

(** The lines the formatter works on. *)
Lemma formatMessageText_lines (text : jsstring) (els : list (option element)) :
  formatMessageText text = Some els ->
  els = mapi formatLine (split newline (removeAll asterisk text)).
Proof.
  unfold formatMessageText. destruct (truthy text); simpl; congruence.
Qed.

(** X1.  Whatever the text, no line the formatter renders contains an
    asterisk. *)
Theorem X1_no_asterisk_is_rendered (text : jsstring) :
  Forall (fun r => ~ In asterisk (record_text r)) (rendered text).
Proof.
  unfold rendered.
  destruct (formatMessageText text) as [els|] eqn:F; [|constructor].
  apply formatMessageText_lines in F. subst els.
  apply Forall_forall. intros r Hr Hast.
  apply in_map_iff in Hr as (e & <- & He).
  apply in_somes in He. unfold mapi in He.
  apply mapi_from_in in He as (line & j & Hline & He).
  symmetry in He. apply formatLine_cases in He as [_ He].
  destruct e as [k|k cls t]; simpl in Hast.
  - destruct Hast.
  - destruct He as (_ & _ & S & _).
    assert (Hast' : In asterisk (if Js.eqb cls heading_class then t else t))
      by (destruct (Js.eqb cls heading_class); exact Hast).
    assert (Ht : In asterisk t) by (destruct (Js.eqb cls heading_class); exact Hast').
    apply (in_suffix _ _ _ S), in_trim in Ht.
    destruct (in_split _ _ _ _ Hline Ht) as [Hin _].
    unfold removeAll in Hin. apply filter_In in Hin as [_ Hne].
    now rewrite N.eqb_refl in Hne.
Qed.

(** X2.  For a non-empty text the formatter returns one entry per line
    of the text (one more than its line feeds), and the entry of a line,
    when it is not [null], has the index of the line as its React key. *)
Theorem X2_one_entry_per_line
    (text : jsstring) (els : list (option element)) :
  formatMessageText text = Some els ->
  List.length els = S (count_occ N.eq_dec text newline)
  /\ (forall i e, nth_error els i = Some (Some e) -> key_of e = i).
Proof.
  intros F. apply formatMessageText_lines in F. subst els. split.
  - unfold mapi. rewrite mapi_from_length, split_length. f_equal.
    unfold removeAll.
    induction text as [|c text IH]; simpl; [reflexivity|].
    destruct (N.eqb c asterisk) eqn:E; simpl.
    + apply N.eqb_eq in E. subst c.
      destruct (N.eq_dec asterisk newline) as [D|_]; [discriminate D|exact IH].
    + destruct (N.eq_dec c newline); now rewrite IH.
  - intros i e H. unfold mapi in H. rewrite mapi_from_nth in H.
    destruct (nth_error (split newline (removeAll asterisk text)) i) as [line|];
      [|discriminate].
    simpl in H. injection H as H. now apply formatLine_cases in H.
Qed.

Lemma X2_witness :
  exists els, formatMessageText example_text = Some els
              /\ List.length els = 4%nat.
Proof.
  destruct (formatMessageText example_text) as [els|] eqn:F; [|discriminate F].
  exists els. split; [reflexivity|].
  exact (proj1 (X2_one_entry_per_line example_text els F)).
Defined.

(** *** Trimmed strings *)

Lemma trimStart_length (s : jsstring) :
  (List.length (trimStart s) <= List.length s)%nat.
Proof.
  induction s as [|c s IH]; simpl; [lia|].
  destruct (isWhiteSpace c); simpl; lia.
Qed.

Lemma trimStart_fixed_head (c : N) (s : jsstring) :
  trimStart (c :: s) = c :: s -> isWhiteSpace c = false.
Proof.
  simpl. destruct (isWhiteSpace c); [|reflexivity].
  intros H. pose proof (trimStart_length s) as L. rewrite H in L. simpl in L. lia.
Qed.

Lemma trim_trimmed (s : jsstring) : trimmed (trim s).
Proof.
  unfold trimmed, trim, trimEnd.
  set (y := trimStart (rev (trimStart s))). split.
  - destruct (trimStart s) as [|c r] eqn:E; [reflexivity|].
    pose proof (trimStart_head _ _ _ E) as Hc. subst y. simpl rev.
    destruct (trimStart_keeps_last (rev r) c Hc) as [x Hx].
    rewrite Hx, rev_app_distr. simpl. now rewrite Hc.
  - rewrite rev_involutive. subst y. apply trimStart_idem.
Qed.

Lemma trimmed_trim (t : jsstring) : trimmed t -> trim t = t.
Proof.
  intros [A B]. unfold trim, trimEnd. now rewrite A, B, rev_involutive.
Qed.

(** A trimmed string does not end in whitespace. *)
Lemma trimmed_no_blank_tail (t a b : jsstring) :
  trimmed t -> t = a ++ b -> forallb isWhiteSpace b = true -> b = [].
Proof.
  intros [_ B] -> Hb. destruct b as [|x b] using rev_ind; [reflexivity|].
  exfalso. clear IHb.
  rewrite rev_app_distr, rev_app_distr in B. simpl in B.
  apply trimStart_fixed_head in B.
  rewrite forallb_app in Hb. simpl in Hb.
  rewrite B in Hb. now rewrite andb_false_r in Hb.
Qed.

(** A non-empty suffix of a trimmed string that does not start with
    whitespace is trimmed. *)
Lemma suffix_trimmed (t v : jsstring) :
  trimmed t -> suffix_of v t -> v <> [] -> trimStart v = v -> trimmed v.
Proof.
  intros [_ B] [p ->] Hv A. split; [exact A|].
  destruct v as [|x v] using rev_ind; [congruence|]. clear IHv.
  rewrite app_assoc, rev_app_distr in B. simpl in B.
  apply trimStart_fixed_head in B.
  rewrite rev_app_distr. simpl. now rewrite B.
Qed.

(** *** The subheading prefix *)

(** [\s*] before a continuation that accepts everything takes all the
    whitespace there is. *)
Lemma star_ws_greedy (s : jsstring) :
  run (Star ws) s (fun rest => Some rest) = Some (trimStart s).
Proof.
  simpl. generalize (Nat.le_refl (List.length s)).
  generalize (List.length s) at 2 3 as fuel. intros fuel. revert s.
  induction fuel as [|fuel IH]; intros s L.
  - destruct s; [reflexivity|simpl in L; lia].
  - destruct s as [|c s]; [reflexivity|]. simpl in L.
    destruct (isWhiteSpace c) eqn:C.
    + assert (Lt : (List.length s <? List.length (c :: s))%nat = true)
        by (apply Nat.ltb_lt; simpl; lia).
      rewrite Lt. rewrite IH by lia. cbn [trimStart]. now rewrite C.
    + cbn [trimStart]. now rewrite C.
Qed.

(** What the prefix replacement leaves: the line itself, or a suffix of
    it stripped of its leading whitespace. *)
Lemma replace_prefix_cases (t : jsstring) :
  replace_empty re_subheading_prefix t = t
  \/ exists x, suffix_of x t
               /\ replace_empty re_subheading_prefix t = trimStart x.
Proof.
  unfold replace_empty, re_subheading_prefix.
  destruct (run _ t (fun rest => Some rest)) as [v|] eqn:E; [right|now left].
  cbn [run] in E. apply run_inv in E as (r1 & S1 & E).
  destruct r1 as [|c r1]; [discriminate|].
  unfold chr in E. cbn [run] in E.
  destruct (N.eqb 58 c); [|discriminate].
  change (run (Star ws) r1 (fun rest => Some rest) = Some v) in E.
  rewrite star_ws_greedy in E. injection E as <-.
  exists r1. split; [|reflexivity].
  apply (suffix_trans _ (c :: r1)); [now exists [c]|exact S1].
Qed.

(** X3.  Every paragraph the formatter returns has one of the two
    styles and a text that is not empty, has no leading or trailing
    whitespace, and contains no line feed. *)
Theorem X3_paragraphs_are_trimmed
    (text : jsstring) (els : list (option element))
    (k : nat) (cls t : jsstring) :
  formatMessageText text = Some els ->
  In (Some (P k cls t)) els ->
  t <> [] /\ trim t = t /\ ~ In newline t
  /\ (cls = heading_class \/ cls = plain_class).
Proof.
  intros F Hin. apply formatMessageText_lines in F. subst els.
  unfold mapi in Hin. apply mapi_from_in in Hin as (line & j & Hline & He).
  symmetry in He. apply formatLine_cases in He as [_ (Hcls & Hne & S & Ht)].
  split; [exact Hne|]. split; [|split; [|exact Hcls]].
  - apply trimmed_trim.
    apply (suffix_trimmed (trim line)); auto using trim_trimmed.
    destruct (replace_prefix_cases (trim line)) as [E|(x & _ & E)];
      rewrite <- Ht in E.
    + rewrite E. apply trim_trimmed.
    + rewrite E. apply trimStart_idem.
  - intros Hnl. apply (in_suffix _ _ _ S), in_trim in Hnl.
    destruct (in_split _ _ _ _ Hline Hnl) as [_ Hne']. now apply Hne'.
Qed.

Lemma X3_witness :
  trim (js "Plain text") = js "Plain text".
Proof.
  assert (F : formatMessageText example_text
              = Some [ None;
                       Some (P 1 heading_class (js "1. Point one"));
                       Some (P 2 heading_class (js "- Point two"));
                       Some (P 3 plain_class (js "Plain text")) ])
    by reflexivity.
  exact (proj1 (proj2 (X3_paragraphs_are_trimmed example_text _ 3 plain_class
                         (js "Plain text") F
                         (or_intror (or_intror (or_intror (or_introl eq_refl))))))).
Defined.

(** *** Lines that are dropped *)

Lemma subheading_words_alts :
  subheading_words = alts (map (fun w => lit_i (js w)) subheadings).
Proof. reflexivity. Qed.

Lemma alts_inv (A : Type) (rs : list re) (s : jsstring)
    (k : jsstring -> option A) (v : A) :
  run (alts rs) s k = Some v -> exists r, In r rs /\ run r s k = Some v.
Proof.
  induction rs as [|r rs IH]; intros H.
  - simpl in H. destruct s; discriminate.
  - destruct rs as [|r' rs].
    + exists r. split; [now left|exact H].
    + change (run (Alt r (alts (r' :: rs))) s k = Some v) in H.
      cbn [run] in H. destruct (run r s k) eqn:E.
      * injection H as ->. exists r. split; [now left|exact E].
      * destruct (IH H) as (r0 & Hin & Hr). exists r0. split; [now right|exact Hr].
Qed.

Lemma alts_some (A : Type) (rs : list re) (r : re) (s : jsstring)
    (k : jsstring -> option A) (v : A) :
  In r rs -> run r s k = Some v -> exists v', run (alts rs) s k = Some v'.
Proof.
  induction rs as [|r0 rs IH]; intros Hin Hr; [destruct Hin|].
  destruct rs as [|r' rs].
  - destruct Hin as [->|[]]. now exists v.
  - change (alts (r0 :: r' :: rs)) with (Alt r0 (alts (r' :: rs))).
    cbn [run]. destruct (run r0 s k) as [v0|] eqn:E; [now exists v0|].
    destruct Hin as [->|Hin]; [congruence|]. now apply IH.
Qed.

Lemma lit_i_inv (A : Type) (w : jsstring) :
  forall (s : jsstring) (k : jsstring -> option A) (v : A),
    run (lit_i w) s k = Some v ->
    exists pre rest, s = pre ++ rest /\ Forall2 (fun c x => ci c x = true) w pre
                     /\ k rest = Some v.
Proof.
  induction w as [|c w IH]; intros s k v H; simpl in H.
  - exists [], s. repeat split; [constructor|exact H].
  - destruct s as [|x s]; [discriminate|].
    destruct (ci c x) eqn:C; pose proof C as C'; unfold ci in C'; rewrite C' in H.
    + apply IH in H as (pre & rest & -> & F & H).
      exists (x :: pre), rest. repeat split; [now constructor|exact H].
    + discriminate.
Qed.

Lemma lit_i_run (A : Type) (w pre rest : jsstring) (k : jsstring -> option A) :
  Forall2 (fun c x => ci c x = true) w pre ->
  run (lit_i w) (pre ++ rest) k = k rest.
Proof.
  induction 1 as [|c x w pre C _ IH]; simpl; [reflexivity|].
  unfold ci in C. now rewrite C.
Qed.

(** Under the [i] flag a lower case pattern matches exactly the strings
    whose ASCII lower case it is. *)
Lemma ci_lower (w pre : jsstring) :
  Forall (fun c => isUpper c = false) w ->
  Forall2 (fun c x => ci c x = true) w pre <-> lowerAscii pre = w.
Proof.
  intros Hw. split.
  - induction 1 as [|c x w pre C _ IH]; [reflexivity|].
    apply Forall_cons_iff in Hw as [Hc Hw]. simpl. rewrite (IH Hw). f_equal.
    unfold ci in C. rewrite Hc in C. simpl in C. rewrite orb_false_r in C.
    apply orb_true_iff in C as [C|C].
    + apply N.eqb_eq in C. subst x. unfold lower. now rewrite Hc.
    + apply andb_true_iff in C as [L C]. apply N.eqb_eq in C. subst x.
      unfold isLower in L. apply andb_true_iff in L as [L1 L2].
      apply N.leb_le in L1, L2.
      unfold lower, isUpper.
      assert (U : ((65 <=? c - 32) && (c - 32 <=? 90))%N = true).
      { apply andb_true_iff. split; apply N.leb_le; lia. }
      rewrite U. lia.
  - intros <-. induction pre as [|x pre IH]; [constructor|].
    simpl in Hw. apply Forall_cons_iff in Hw as [Hc Hw].
    constructor; [|now apply IH].
    unfold ci, lower in *. destruct (isUpper x) eqn:U.
    + unfold isUpper in U. apply andb_true_iff in U as [U1 U2].
      apply N.leb_le in U1, U2.
      assert (L : isLower (x + 32) = true).
      { unfold isLower. apply andb_true_iff. split; apply N.leb_le; lia. }
      rewrite L. replace (x + 32 - 32)%N with x by lia.
      rewrite N.eqb_refl. simpl. now rewrite orb_true_r.
    + now rewrite N.eqb_refl.
Qed.

Lemma subheadings_lower (w : string) :
  In w subheadings -> Forall (fun c => isUpper c = false) (js w).
Proof.
  intros H. repeat (destruct H as [<-|H]; [repeat constructor|]). destruct H.
Qed.

(** [\s*$]: the rest of the input is whitespace. *)
Lemma star_ws_eoi (A : Type) (s : jsstring) (k : jsstring -> option A) :
  run (Seq (Star ws) Eoi) s k
  = if forallb isWhiteSpace s then k [] else None.
Proof.
  simpl. generalize (Nat.le_refl (List.length s)).
  generalize (List.length s) at 2 3 as fuel. intros fuel. revert s.
  induction fuel as [|fuel IH]; intros s L.
  - destruct s; [reflexivity|simpl in L; lia].
  - destruct s as [|c s]; [reflexivity|]. simpl in L.
    cbn [forallb]. destruct (isWhiteSpace c) eqn:C; [|reflexivity].
    assert (Lt : (List.length s <? List.length (c :: s))%nat = true)
      by (apply Nat.ltb_lt; simpl; lia).
    rewrite Lt. rewrite IH by lia. simpl.
    destruct (forallb isWhiteSpace s); [|reflexivity].
    now destruct (k []).
Qed.

(** [c?] before the rest of a pattern: with [c] if that succeeds,
    without it otherwise. *)
Lemma opt_chr_run (A : Type) (c : N) (T : re) (rest : jsstring)
    (k : jsstring -> option A) :
  run (Seq (Opt (chr c)) T) rest k
  = match rest with
    | x :: r =>
        if N.eqb c x
        then match run T r k with
             | Some v => Some v
             | None => run T rest k
             end
        else run T rest k
    | [] => run T rest k
    end.
Proof.
  destruct rest as [|x r]; [reflexivity|].
  unfold Opt, chr. cbn [run]. now destruct (N.eqb c x).
Qed.

(** The part of the subheading pattern after the word: [:?\s*$]. *)
Lemma subheading_tail (rest : jsstring) :
  run (Seq (Opt (chr 58)) (Seq (Star ws) Eoi)) rest (fun _ => Some tt) = Some tt
  <-> forallb isWhiteSpace rest = true
      \/ exists r, rest = colon :: r /\ forallb isWhiteSpace r = true.
Proof.
  rewrite opt_chr_run.
  destruct rest as [|c r].
  - rewrite star_ws_eoi. simpl. split; auto.
  - rewrite !star_ws_eoi. destruct (N.eqb 58 c) eqn:C.
    + apply N.eqb_eq in C. subst c. cbn [forallb].
      assert (W : isWhiteSpace 58 = false) by reflexivity. rewrite W. simpl.
      destruct (forallb isWhiteSpace r) eqn:R.
      * split; [intros _; right; now exists r|reflexivity].
      * split; [discriminate|].
        intros [H|(r' & [= <-] & H)]; [discriminate|congruence].
    + apply N.eqb_neq in C.
      destruct (forallb isWhiteSpace (c :: r)) eqn:R.
      * split; [auto|reflexivity].
      * split; [discriminate|].
        intros [H|(r' & [= -> _] & _)]; [discriminate|]. now elim C.
Qed.

(** X4.  A line is dropped by the formatter exactly when, trimmed and
    put in lower case, it is one of the eight subheading words, alone
    or followed by a colon. *)
Theorem X4_dropped_lines_are_bare_subheadings (line : jsstring) (index : nat) :
  formatLine line index = None <-> bare_subheading (trim line).
Proof.
  set (t := trim line).
  assert (T : trimmed t) by apply trim_trimmed.
  assert (D : formatLine line index = None
              <-> test re_subheading_line t = true).
  { unfold formatLine. fold t.
    destruct (test re_subheading_line t); [tauto|].
    split; [|discriminate].
    destruct (negb (truthy (replace_empty re_subheading_prefix t)));
      [discriminate|].
    destruct (_ || _ || _); discriminate. }
  rewrite D. clear D. unfold test, re_subheading_line.
  rewrite subheading_words_alts.
  pose (K := fun s1 : jsstring =>
               run (Seq (Opt (chr 58)) (Seq (Star ws) Eoi)) s1
                   (fun _ : jsstring => Some tt)).
  change (run (Seq (alts (map (fun w => lit_i (js w)) subheadings))
                   (Seq (Opt (chr 58)) (Seq (Star ws) Eoi)))
              t (fun _ : jsstring => Some tt))
    with (run (alts (map (fun w => lit_i (js w)) subheadings)) t K).
  split.
  - intros H.
    destruct (run (alts _) t K) as [[]|] eqn:E; [clear H|discriminate].
    apply alts_inv in E as (r & Hr & E).
    apply in_map_iff in Hr as (w & <- & Hw).
    apply lit_i_inv in E as (pre & rest & Et & F & E).
    apply (ci_lower _ _ (subheadings_lower w Hw)) in F.
    unfold K in E. apply subheading_tail in E.
    exists w. split; [exact Hw|].
    destruct E as [E|(r & -> & E)].
    + rewrite (trimmed_no_blank_tail t pre rest T Et E) in Et.
      rewrite app_nil_r in Et. left. now rewrite Et.
    + assert (Et' : t = (pre ++ [colon]) ++ r) by now rewrite <- app_assoc.
      rewrite (trimmed_no_blank_tail t _ r T Et' E) in Et.
      right. rewrite Et. unfold lowerAscii in *. rewrite map_app, F. reflexivity.
  - intros (w & Hw & H).
    assert (S : exists pre rest, t = pre ++ rest /\ lowerAscii pre = js w
                                 /\ K rest = Some tt).
    { destruct H as [H|H].
      - exists t, []. rewrite app_nil_r.
        split; [reflexivity|]. split; [exact H|].
        unfold K. apply subheading_tail. now left.
      - unfold lowerAscii in H. apply map_eq_app in H as (pre & x & Et & Hp & Hx).
        destruct x as [|c [|? ?]]; try discriminate. injection Hx as Hc.
        assert (c = colon).
        { unfold lower in Hc. destruct (isUpper c) eqn:U; [|exact Hc].
          unfold isUpper in U. apply andb_true_iff in U as [U _].
          apply N.leb_le in U. unfold colon in *. lia. }
        subst c. exists pre, [colon].
        split; [exact Et|]. split; [exact Hp|].
        unfold K. apply subheading_tail. right. now exists []. }
    destruct S as (pre & rest & Et & Hp & HK).
    apply (ci_lower _ _ (subheadings_lower w Hw)) in Hp.
    assert (R : run (lit_i (js w)) t K = Some tt)
      by (rewrite Et, (lit_i_run _ _ _ _ _ Hp); exact HK).
    destruct (alts_some _ (map (fun w => lit_i (js w)) subheadings)
                _ _ _ _ (in_map _ _ _ Hw) R) as [v' E].
    now rewrite E.
Qed.

Lemma X4_witness :
  formatLine (js "  KEY POINTS:  ") 7 = None.
Proof.
  apply (proj2 (X4_dropped_lines_are_bare_subheadings (js "  KEY POINTS:  ") 7)).
  exists "key points"%string. split.
  - right; right; now left.
  - right. reflexivity.
Defined.

(** *** List items *)

(** A subheading word starts with a letter. *)
Lemma subheading_needs_letter (A : Type) (x : N) (s : jsstring)
    (k : jsstring -> option A) :
  isUpper x || isLower x = false ->
  run subheading_words (x :: s) k = None.
Proof.
  intros Hx. destruct (run subheading_words (x :: s) k) as [v|] eqn:E;
    [exfalso|reflexivity].
  rewrite subheading_words_alts in E.
  apply alts_inv in E as (r & Hr & E).
  apply in_map_iff in Hr as (w & <- & Hw).
  apply lit_i_inv in E as (pre & rest & Es & F & _).
  assert (L : exists c w', js w = c :: w' /\ isLower c = true).
  { repeat (destruct Hw as [<-|Hw]; [eexists; eexists; split; reflexivity|]).
    destruct Hw. }
  destruct L as (c & w' & Ew & Lc). rewrite Ew in F.
  destruct pre as [|y pre']; [inversion F|].
  apply Forall2_cons_iff in F as [C _].
  injection Es as Ex _. subst y.
  unfold ci in C. rewrite Lc in C.
  apply orb_false_iff in Hx as [U L].
  unfold isLower in Lc. apply andb_true_iff in Lc as [L1 L2].
  apply N.leb_le in L1, L2.
  apply orb_true_iff in C as [C|C].
  - apply orb_true_iff in C as [C|C].
    + apply N.eqb_eq in C. subst x.
      unfold isLower in L. apply andb_false_iff in L as [L|L];
        apply N.leb_gt in L; lia.
    + simpl in C. apply N.eqb_eq in C. subst x.
      unfold isUpper in U. apply andb_false_iff in U as [U|U];
        apply N.leb_gt in U; lia.
  - apply andb_true_iff in C as [C _].
    unfold isUpper in C. apply andb_true_iff in C as [_ C].
    apply N.leb_le in C. lia.
Qed.

(** A line that does not start with a letter is neither dropped nor
    stripped of a prefix. *)
Lemma not_a_subheading (x : N) (s : jsstring) :
  isUpper x || isLower x = false ->
  test re_subheading_line (x :: s) = false
  /\ replace_empty re_subheading_prefix (x :: s) = x :: s.
Proof.
  intros Hx. unfold test, replace_empty, re_subheading_line, re_subheading_prefix.
  split.
  - change (run (Seq subheading_words ?b) (x :: s) ?k)
      with (run subheading_words (x :: s) (fun s1 => run b s1 k)).
    now rewrite subheading_needs_letter.
  - change (run (Seq subheading_words ?b) (x :: s) ?k)
      with (run subheading_words (x :: s) (fun s1 => run b s1 k)).
    now rewrite subheading_needs_letter.
Qed.

(** [\d*] takes the digits there are when what follows then matches. *)
Lemma star_digits (A : Type) (ds rest : jsstring) (k : jsstring -> option A) (v : A) :
  forallb isDigit ds = true ->
  k rest = Some v ->
  exists v', run (Star (Cls isDigit)) (ds ++ rest) k = Some v'.
Proof.
  intros Hd Hk. simpl.
  remember (List.length (ds ++ rest)) as fuel eqn:Ef.
  assert (L : (List.length ds <= fuel)%nat) by (subst fuel; rewrite length_app; lia).
  clear Ef. revert fuel L.
  induction ds as [|d ds IH]; intros fuel L.
  - destruct fuel as [|fuel]; [now exists v|].
    simpl app.
    match goal with
    | |- exists _, match ?X with _ => _ end = _ => destruct X as [x|]
    end; [now exists x|now exists v].
  - simpl in Hd. apply andb_true_iff in Hd as [Hd1 Hd2].
    destruct fuel as [|fuel]; [simpl in L; lia|].
    simpl in L. simpl app. cbv beta iota. rewrite Hd1.
    assert (Lt : (List.length (ds ++ rest) <? List.length (d :: ds ++ rest))%nat
                 = true) by (apply Nat.ltb_lt; simpl; lia).
    rewrite Lt.
    destruct (IH Hd2 fuel ltac:(lia)) as [v' E]. rewrite E. now exists v'.
Qed.

(** X5.  List items are set as headings: a line that, trimmed, starts
    with a hyphen or a bullet and a whitespace, or with digits, a full
    stop or closing parenthesis, and a whitespace, is rendered whole
    with the heading style. *)
Theorem X5_list_items_are_headings (line : jsstring) (index : nat) :
  (forall b c rest,
     b = 45%N \/ b = 8226%N -> isWhiteSpace c = true ->
     trim line = b :: c :: rest ->
     formatLine line index = Some (P index heading_class (trim line)))
  /\ (forall d ds p c rest,
        forallb isDigit (d :: ds) = true ->
        p = 46%N \/ p = 41%N -> isWhiteSpace c = true ->
        trim line = (d :: ds) ++ p :: c :: rest ->
        formatLine line index = Some (P index heading_class (trim line))).
Proof.
  split.
  - intros b c rest Hb Hc Ht. unfold formatLine. rewrite Ht.
    assert (NL : isUpper b || isLower b = false) by (destruct Hb; now subst).
    destruct (not_a_subheading b (c :: rest) NL) as [E1 E2].
    rewrite E1, E2.
    assert (B : test re_bullet (b :: c :: rest) = true).
    { unfold test, re_bullet, ws. cbn [run].
      destruct Hb; subst b; simpl; now rewrite Hc. }
    rewrite B, orb_true_r. reflexivity.
  - intros d ds p c rest Hd Hp Hc Ht. unfold formatLine. rewrite Ht.
    pose proof Hd as Hd'. simpl in Hd'. apply andb_true_iff in Hd' as [Hd1 Hd2].
    assert (NL : isUpper d || isLower d = false).
    { unfold isDigit, isUpper, isLower in *.
      apply andb_true_iff in Hd1 as [A B]. apply N.leb_le in A, B.
      apply orb_false_iff. split; apply andb_false_iff; left; apply N.leb_gt; lia. }
    simpl app.
    destruct (not_a_subheading d (ds ++ p :: c :: rest) NL) as [E1 E2].
    rewrite E1, E2.
    assert (B : test re_numbered (d :: ds ++ p :: c :: rest) = true).
    { pose (K2 := fun s2 : jsstring =>
                    run (Seq (Cls (fun c0 => N.eqb c0 46 || N.eqb c0 41)) ws)
                        s2 (fun _ : jsstring => Some tt)).
      assert (HK : K2 (p :: c :: rest) = Some tt).
      { unfold K2, ws. cbn [run]. destruct Hp; subst p; simpl; now rewrite Hc. }
      destruct (star_digits unit ds (p :: c :: rest) K2 tt Hd2 HK) as [v' E].
      unfold test, re_numbered, Plus.
      change (run (Seq (Seq (Cls isDigit) (Star (Cls isDigit)))
                       (Seq (Cls (fun c0 => N.eqb c0 46 || N.eqb c0 41)) ws))
                  (d :: ds ++ p :: c :: rest) (fun _ : jsstring => Some tt))
        with (if isDigit d
              then run (Star (Cls isDigit)) (ds ++ p :: c :: rest) K2
              else None).
      now rewrite Hd1, E. }
    rewrite B. reflexivity.
Qed.

Lemma X5_witness :
  formatLine (js "  12) check the logs ") 0
  = Some (P 0 heading_class (js "12) check the logs")).
Proof.
  exact (proj2 (X5_list_items_are_headings (js "  12) check the logs ") 0)
           49%N [50%N] 41%N 32%N (js "check the logs")
           eq_refl (or_intror eq_refl) eq_refl eq_refl).
Defined.

End FormatterFacts.

(** ** ProjectSidebar, on every answer *)

Module SidebarMore.
Import ProjectSidebar Observe.

(** Case analysis on the answers to [fetchProjects], running the
    handler in each case. *)
Ltac fetch_cases c w :=
  let t := fresh "t" in
  let r := fresh "r" in
  destruct w as [[t|?] [r|?] ?];
  [ destruct (token_truthy t) eqn:?Hy;
    [ destruct (ok r) eqn:?Hok, (text r) as [?|?] eqn:?T,
               (json r) as [[?|]|?] eqn:?J,
               (status r =? 401)%Z eqn:?E401, (status r =? 500)%Z eqn:?E500,
               (status r =? 404)%Z eqn:?E404
    | ]
  | destruct (token_truthy t) eqn:?Hy
  | | ];
  destruct (onProjectsLoaded c) eqn:?L;
  unfold after, effects, fetchProjects; cbn;
  repeat (match goal with
          | H : ?x = _ |- context [?x] => rewrite H
          end; cbn).

(** X6.  [fetchProjects] never throws.  While it waits for the token,
    the answer or its body, [loading] is true and no error or demo mode
    is recorded; when it ends, [loading] is false. *)
Theorem X6_fetchProjects_always_settles (c : Closure) (w : Answers) (s : State) :
  out (fetchProjects c w) = Returned tt
  /\ loading (after (fetchProjects c w) s) = false
  /\ Forall (fun st => loading st = true /\ error st = None
                       /\ offlineMode st = false)
            (yields apply (effects (fetchProjects c w)) s).
Proof.
  fetch_cases c w; repeat split; repeat constructor.
Qed.

(** The 404 answer leaves an empty list, online. *)
Lemma not_found_state (c : Closure) (w : Answers) (s : State) :
  not_found w ->
  projects (after (fetchProjects c w) s) = []
  /\ offlineMode (after (fetchProjects c w) s) = false
  /\ error (after (fetchProjects c w) s) = None.
Proof.
  intros (t & r & errorText & Ht & Hy & Hr & H404 & Htx).
  destruct w as [tok resp clk]; simpl in Ht, Hr; subst tok resp.
  unfold after, effects, fetchProjects, ok; cbn.
  rewrite Hy, H404, Htx; cbn. auto.
Qed.

(** X7.  After [fetchProjects], whatever the answers: the demo mode
    banner is shown exactly when the fetch failed; an error message is
    recorded exactly when demo mode is on, so the inline error banner,
    drawn for an error outside demo mode, is never shown. *)
Theorem X7_error_banner_never_shown (c : Closure) (w : Answers) (s : State) :
  let s' := after (fetchProjects c w) s in
  (demoBanner s' = true <-> fetch_failure w)
  /\ errorBanner s' = false
  /\ (error s' = None <-> offlineMode s' = false).
Proof.
  intros s'. split; [|split].
  - unfold demoBanner. split.
    + intros H. destruct (SidebarFacts.answers_cases w) as [F|[N|[data D]]]; [exact F| |].
      * destruct (not_found_state c w s N) as (_ & O & _).
        fold s' in O. congruence.
      * destruct (SidebarFacts.fetched_state c w s data D) as (_ & O & _).
        fold s' in O. congruence.
    + intros F. now destruct (SidebarFacts.fetch_failure_state c w s F) as (O & _).
  - subst s'. unfold errorBanner.
    fetch_cases c w; rewrite ?andb_false_r; reflexivity.
  - subst s'.
    fetch_cases c w; split; intros H; first [reflexivity|discriminate H].
Qed.

Lemma answered_404_iff (w : Answers) : answered_404 w = true <-> not_found w.
Proof.
  unfold answered_404, not_found. split.
  - destruct (a_token w) as [t|e] eqn:Ht; [|discriminate].
    destruct (token_truthy t) eqn:Hy; [|discriminate].
    destruct (a_response w) as [r|e] eqn:Hr; [|discriminate].
    destruct (ok r); [discriminate|].
    destruct (status r =? 404)%Z eqn:E; [|discriminate].
    destruct (text r) as [body|e] eqn:Hx; [|discriminate].
    intros _. apply Z.eqb_eq in E. exists t, r, body. repeat split; auto.
  - intros (t & r & body & -> & Hy & -> & E & ->).
    rewrite Hy, E. simpl. unfold ok. now rewrite E.
Qed.

(** X8.  [fetchProjects] tells the parent at most once, and then hands
    it exactly the list it leaves in [projects].  It tells the parent
    whenever [onProjectsLoaded] is supplied, except after a 404, which
    empties the list without a word to the parent. *)
Theorem X8_parent_sees_the_stored_list (c : Closure) (w : Answers) (s : State) :
  notified (effects (fetchProjects c w))
  = if onProjectsLoaded c && negb (answered_404 w)
    then [projects (after (fetchProjects c w) s)]
    else [].
Proof.
  unfold answered_404.
  fetch_cases c w; try reflexivity;
    exfalso;
    repeat match goal with
           | H : (_ =? _)%Z = true |- _ => apply Z.eqb_eq in H
           end;
    congruence.
Qed.

(** X9.  A delete that the user declines, or whose DELETE fails, leaves
    the sidebar as it was: no state cell is written, the selection
    callback is not called and the list is not fetched again.  A
    declined delete shows the dialog only; a failed one ends with the
    error toast. *)
Theorem X9_failed_delete_changes_nothing
    (c : Closure) (projectId : jsstring) (confirmed : bool)
    (wd : DeleteAnswers) (wf : Answers) (s : State) :
  confirmed = false \/ delete_failure wd ->
  let run := handleDeleteProject c projectId confirmed wd wf in
  after run s = s
  /\ (forall p, ~ In (Call (OnProjectSelect p)) (effects run))
  /\ (forall t, ~ In (Call (Fetch (list_request t))) (effects run))
  /\ (forall m, ~ In (Call (ShowSuccess m)) (effects run))
  /\ (if confirmed
      then exists pre,
             effects run
             = pre ++ [Call (ShowError (js "Failed to delete project"))]
      else effects run
           = [ Call StopPropagation;
               Call (ShowConfirm (js "Are you sure you want to delete this project?")) ]).
Proof.
  intros H run.
  assert (NoList : forall t t' id,
            Call (W := setter) (Fetch (delete_request t id))
            <> Call (Fetch (list_request t'))).
  { intros t t' id E. apply (f_equal (fun x => match x with
                                               | Call (Fetch q) => method q
                                               | _ => []
                                               end)) in E.
    vm_compute in E. discriminate E. }
  destruct confirmed.
  - destruct H as [H|F]; [discriminate|].
    destruct wd as [tok resp].
    destruct F as [e Ht|t e Ht Hr|t r Ht Hr Hok]; simpl in *; subst;
      subst run; unfold after, effects, handleDeleteProject, deleteConfirmed;
      cbn; rewrite ?Hok; cbn;
      (split; [reflexivity|]);
      (split; [intros p Hin; simpl in Hin; intuition discriminate|]);
      (split; [intros t' Hin; simpl in Hin;
               repeat (destruct Hin as [Hin|Hin];
                       [try discriminate; now apply NoList in Hin|]);
               destruct Hin|]);
      (split; [intros m Hin; simpl in Hin; intuition discriminate|]).
    + now exists [Call StopPropagation;
                  Call (ShowConfirm (js "Are you sure you want to delete this project?"));
                  Await; Call GetIdToken; Await].
    + now exists [Call StopPropagation;
                  Call (ShowConfirm (js "Are you sure you want to delete this project?"));
                  Await; Call GetIdToken; Await;
                  Call (Fetch (delete_request t projectId)); Await].
    + now exists [Call StopPropagation;
                  Call (ShowConfirm (js "Are you sure you want to delete this project?"));
                  Await; Call GetIdToken; Await;
                  Call (Fetch (delete_request t projectId)); Await].
  - subst run. unfold after, effects, handleDeleteProject. cbn.
    repeat split; try (intros ? Hin; simpl in Hin; intuition discriminate).
Qed.

Lemma X9_witness :
  let c := {| selectedProject := Some Examples.demo; onProjectsLoaded := true;
              user := Some Examples.alice |} in
  let wd := {| d_token := Returned Examples.some_token;
               d_response := Returned (Examples.answer 403 (js "no") (Returned tt)) |} in
  let wf := {| a_token := Returned Examples.some_token;
               a_response := Examples.network_down;
               a_clock := Examples.clock0 |} in
  let s := apply (SetProjects [Examples.demo]) initial in
  delete_failure wd
  /\ after (handleDeleteProject c (js "t1") true wd wf) s = s.
Proof.
  intros c wd wf s.
  assert (F : delete_failure wd) by (eapply delete_not_ok; reflexivity).
  split; [exact F|].
  exact (proj1 (X9_failed_delete_changes_nothing c (js "t1") true wd wf s
                  (or_intror F))).
Defined.

End SidebarMore.

(** ** InviteNotifications, on every answer *)

Module InviteMore.
Import InviteNotifications Outcomes.

(** X10.  [fetchInvites] never throws and shows no toast.  It ends with
    [loading] false; the invite list is replaced only by the parsed body
    of a successful answer, and stays as it was in every other case.
    The only request it sends is the GET of the invite list, and only
    with a token. *)
Theorem X10_fetchInvites_keeps_stale_list (w : Answers) (s : State) :
  let run := fetchInvites w in
  out run = Returned tt
  /\ loading (after run s) = false
  /\ invites (after run s)
     = match invites_of w with Some data => data | None => invites s end
  /\ (forall m, ~ In (Call (ShowError m)) (effects run))
  /\ (forall q, In (Call (Fetch q)) (effects run) ->
        exists t, a_token w = Returned t /\ token_truthy t = true
                  /\ q = invites_request t).
Proof.
  intros run. subst run. unfold invites_of.
  destruct w as [[t|e] resp]; cbn [a_token a_response].
  2:{ unfold after, effects, fetchInvites; cbn.
      repeat split; try (intros ? Hin; simpl in Hin; intuition discriminate). }
  destruct (token_truthy t) eqn:Hy.
  2:{ unfold after, effects, fetchInvites; cbn; rewrite Hy; cbn.
      repeat split; try (intros ? Hin; simpl in Hin; intuition discriminate). }
  assert (Q : forall q : request,
            Call (W := setter) (Fetch (invites_request t)) = Call (Fetch q) ->
            exists t0, Returned t = Returned t0 /\ token_truthy t0 = true
                       /\ q = invites_request t0).
  { intros q [= <-]. now exists t. }
  destruct resp as [r|e].
  2:{ unfold after, effects, fetchInvites; cbn; rewrite Hy; cbn.
      repeat split; try (intros ? Hin; simpl in Hin; intuition discriminate).
      intros q Hin. simpl in Hin.
      repeat (destruct Hin as [Hin|Hin]; [try discriminate; now apply Q|]).
      destruct Hin. }
  destruct (ok r) eqn:Hok, (json r) as [data|e] eqn:J;
    unfold after, effects, fetchInvites; cbn; rewrite Hy; cbn; rewrite Hok; cbn;
    rewrite ?J; cbn;
    repeat split; try (intros ? Hin; simpl in Hin; intuition discriminate);
    intros q Hin; simpl in Hin;
    repeat (destruct Hin as [Hin|Hin]; [try discriminate; now apply Q|]);
    destruct Hin.
Qed.

End InviteMore.

(** ** AddProjectModal, further *)

Module ModalMore.
Import AddProjectModal Outcomes FormatterSpec.

Lemma split_no_sep (sep : N) (a : jsstring) :
  ~ In sep a -> split sep a = [a].
Proof.
  induction a as [|c a IH]; intros H; simpl; [reflexivity|].
  destruct (N.eqb c sep) eqn:E.
  - apply N.eqb_eq in E. subst. elim H. now left.
  - rewrite IH; [reflexivity|]. intros Hin. apply H. now right.
Qed.

Lemma split_app_sep (sep : N) (a b : jsstring) :
  ~ In sep a -> split sep (a ++ sep :: b) = a :: split sep b.
Proof.
  induction a as [|c a IH]; intros H; simpl.
  - now rewrite N.eqb_refl.
  - destruct (N.eqb c sep) eqn:E.
    + apply N.eqb_eq in E. subst. elim H. now left.
    + rewrite IH; [reflexivity|]. intros Hin. apply H. now right.
Qed.

Lemma trimStart_pad (pad e : jsstring) :
  forallb isWhiteSpace pad = true -> trimStart (pad ++ e) = trimStart e.
Proof.
  induction pad as [|c pad IH]; simpl; [reflexivity|].
  intros H. apply andb_true_iff in H as [C H]. rewrite C. now apply IH.
Qed.

Lemma trim_pad (pad e : jsstring) :
  forallb isWhiteSpace pad = true -> trimmed e -> trim (pad ++ e) = e.
Proof.
  intros Hp [A B]. unfold trim, trimEnd.
  now rewrite (trimStart_pad _ _ Hp), A, B, rev_involutive.
Qed.

(** X11.  Every address [handleSubmit] sends in [member_emails] is
    clean: it is not empty, holds no comma, and has no whitespace at
    either end. *)
Theorem X11_parsed_emails_are_clean (memberEmails e : jsstring) :
  In e (parse_emails memberEmails) -> clean_email e.
Proof.
  unfold parse_emails. intros H.
  apply filter_In in H as [H Hlen].
  apply in_map_iff in H as (piece & <- & Hp).
  repeat split.
  - intros E. rewrite E in Hlen. discriminate.
  - intros Hc. apply FormatterFacts.in_trim in Hc.
    destruct (FormatterFacts.in_split _ _ _ _ Hp Hc) as [_ Hne]. now apply Hne.
  - apply FormatterFacts.trim_trimmed.
  - apply FormatterFacts.trim_trimmed.
Qed.

Lemma X11_witness : clean_email (js "b@x.org").
Proof.
  apply (X11_parsed_emails_are_clean (js " a@x.org ,, b@x.org ,")).
  vm_compute. auto.
Defined.

Lemma parse_typed_list (emails : list jsstring) :
  Forall clean_email emails -> emails <> [] ->
  forall pad, forallb isWhiteSpace pad = true ->
    map trim (split comma (pad ++ typed_list emails)) = emails.
Proof.
  induction 1 as [|e rest (Hne & Hc & Ht) Hrest IH]; intros Hnil pad Hpad;
    [congruence|].
  assert (Hpc : ~ In comma (pad ++ e)).
  { intros Hin. apply in_app_or in Hin as [Hin|Hin]; [|now apply Hc].
    rewrite forallb_forall in Hpad. specialize (Hpad _ Hin). discriminate. }
  destruct rest as [|e2 rest].
  - simpl typed_list. rewrite split_no_sep by exact Hpc.
    simpl. now rewrite trim_pad.
  - change (typed_list (e :: e2 :: rest))
      with (e ++ js ", " ++ typed_list (e2 :: rest)).
    change (js ", ") with [comma; 32%N].
    replace (pad ++ e ++ [comma; 32%N] ++ typed_list (e2 :: rest))
      with ((pad ++ e) ++ comma :: ([32%N] ++ typed_list (e2 :: rest)))
      by (now rewrite <- app_assoc).
    rewrite split_app_sep by exact Hpc.
    cbn [map]. rewrite trim_pad by assumption. f_equal.
    apply IH; [discriminate|reflexivity].
Qed.

(** X12.  Clean addresses typed one after the other, separated by a
    comma and a space, are parsed back as they were typed, in order. *)
Theorem X12_typed_emails_are_parsed_back (emails : list jsstring) :
  Forall clean_email emails ->
  parse_emails (typed_list emails) = emails.
Proof.
  intros H. unfold parse_emails.
  destruct emails as [|e rest]; [reflexivity|].
  pose proof (parse_typed_list _ H ltac:(discriminate) [] eq_refl) as E.
  cbn [app] in E. rewrite E.
  apply forallb_filter_id. apply forallb_forall. intros x Hx.
  rewrite Forall_forall in H. destruct (H x Hx) as (Hne & _).
  destruct x; [congruence|reflexivity].
Qed.

Lemma X12_witness :
  parse_emails (js "a@x.org, b@x.org") = [js "a@x.org"; js "b@x.org"].
Proof.
  apply (X12_typed_emails_are_parsed_back [js "a@x.org"; js "b@x.org"]).
  repeat constructor; vm_compute; try discriminate; intuition discriminate.
Defined.

Local Arguments is_network_failure : simpl never.





End ModalMore.

(** ** encodeURIComponent *)

Module UriFacts.
Import Uri.

Lemma hexDigit_inj (a b : N) :
  (a < 16 -> b < 16 -> hexDigit a = hexDigit b -> a = b)%N.
Proof.
  unfold hexDigit. intros Ha Hb.
  destruct (N.ltb_spec a 10), (N.ltb_spec b 10); lia.
Qed.

Lemma split_at (a k : N) :
  (k <> 0 -> a = k * (a / k) + a mod k /\ a mod k < k)%N.
Proof.
  intros Hk. split; [apply N.div_mod; exact Hk|apply N.mod_lt; exact Hk].
Qed.

Lemma nibbles (a : N) :
  (a < 256 -> a = 16 * ((a / 16) mod 16) + a mod 16)%N.
Proof.
  intros H.
  destruct (split_at a 16 ltac:(discriminate)) as [E L].
  rewrite (N.mod_small (a / 16) 16); [exact E|].
  apply N.Div0.div_lt_upper_bound. exact H.
Qed.

Lemma sextets (a : N) :
  (a = a mod 64 + 64 * ((a / 64) mod 64) + 4096 * ((a / 4096) mod 64)
       + 262144 * (a / 262144))%N.
Proof.
  destruct (split_at a 64 ltac:(discriminate)) as [E1 _].
  destruct (split_at (a / 64) 64 ltac:(discriminate)) as [E2 _].
  destruct (split_at (a / 4096) 64 ltac:(discriminate)) as [E3 _].
  rewrite N.Div0.div_div in E2. change (64 * 64)%N with 4096%N in E2.
  replace (a / 4096 / 64)%N with (a / 262144)%N in E3
    by (rewrite N.Div0.div_div; reflexivity).
  lia.
Qed.

Lemma div_bound (a k q : N) : (a < k * q -> a / k < q)%N.
Proof. apply N.Div0.div_lt_upper_bound. Qed.

Lemma octet_eq (x y : N) :
  (x < 256 -> y < 256 ->
   hexDigit ((x / 16) mod 16) = hexDigit ((y / 16) mod 16) ->
   hexDigit (x mod 16) = hexDigit (y mod 16) -> x = y)%N.
Proof.
  intros Hx Hy E1 E2.
  apply hexDigit_inj in E1; [|apply N.mod_lt; discriminate..].
  apply hexDigit_inj in E2; [|apply N.mod_lt; discriminate..].
  rewrite (nibbles x Hx), (nibbles y Hy). now rewrite E1, E2.
Qed.

(** The digits of a code point in base 64, as [utf8] reads them. *)
Lemma code_point_digits (a : N) :
  (a < 1114112 ->
   a = a mod 64 + 64 * ((a / 64) mod 64) + 4096 * ((a / 4096) mod 64)
       + 262144 * (a / 262144)
   /\ a mod 64 < 64 /\ (a / 64) mod 64 < 64 /\ (a / 4096) mod 64 < 64
   /\ (a / 262144) mod 8 = a / 262144 /\ a / 262144 < 8
   /\ (a < 65536 ->
       (a / 4096) mod 64 = a / 4096 /\ a / 4096 < 16 /\ a / 262144 = 0)
   /\ (a < 2048 ->
       (a / 64) mod 64 = a / 64 /\ a / 64 < 32 /\ (a / 4096) mod 64 = 0))%N.
Proof.
  intros H.
  split; [apply sextets|].
  split; [apply N.mod_lt; discriminate|].
  split; [apply N.mod_lt; discriminate|].
  split; [apply N.mod_lt; discriminate|].
  assert (D3 : (a / 262144 < 8)%N) by (apply div_bound; lia).
  split; [now apply N.mod_small|]. split; [exact D3|].
  split.
  - intros L.
    assert (D2 : (a / 4096 < 16)%N) by (apply div_bound; lia).
    split; [apply N.mod_small; lia|]. split; [exact D2|].
    apply N.div_small. lia.
  - intros L.
    assert (D1 : (a / 64 < 32)%N) by (apply div_bound; lia).
    split; [apply N.mod_small; lia|]. split; [exact D1|].
    rewrite (N.div_small a 4096); [reflexivity|lia].
Qed.

Lemma escape_app_inj (x y : N) (l1 l2 : jsstring) :
  (x < 256)%N -> (y < 256)%N ->
  escape x ++ l1 = escape y ++ l2 -> x = y /\ l1 = l2.
Proof.
  intros Hx Hy H. unfold escape in H. cbn [app] in H.
  injection H as E1 E2 E3. split; [|exact E3].
  now apply octet_eq.
Qed.

Lemma escapes_cons (o : N) (os : list N) (r : jsstring) :
  escapes (o :: os) ++ r = escape o ++ (escapes os ++ r).
Proof.
  unfold escapes. cbn [flat_map]. now rewrite <- app_assoc.
Qed.

Ltac peel H :=
  let Oct := fresh "Oct" in
  apply escape_app_inj in H as [Oct H]; [|lia|lia].

(** The escapes of two code points that start the same text are those
    of one code point. *)
Lemma escapes_utf8_inj (a b : N) (r1 r2 : jsstring) :
  (a < 1114112)%N -> (b < 1114112)%N ->
  escapes (utf8 a) ++ r1 = escapes (utf8 b) ++ r2 ->
  a = b /\ r1 = r2.
Proof.
  intros Ha Hb H.
  destruct (code_point_digits a Ha) as (A0 & A1 & A2 & A3 & A4 & A5 & A6 & A7).
  destruct (code_point_digits b Hb) as (B0 & B1 & B2 & B3 & B4 & B5 & B6 & B7).
  unfold utf8 in H.
  destruct (N.ltb_spec a 128) as [La1|La1];
    [|destruct (N.ltb_spec a 2048) as [La2|La2];
      [|destruct (N.ltb_spec a 65536) as [La3|La3]]];
  (destruct (N.ltb_spec b 128) as [Lb1|Lb1];
    [|destruct (N.ltb_spec b 2048) as [Lb2|Lb2];
      [|destruct (N.ltb_spec b 65536) as [Lb3|Lb3]]]);
  try (specialize (A7 ltac:(lia))); try (specialize (B7 ltac:(lia)));
  try (specialize (A6 ltac:(lia))); try (specialize (B6 ltac:(lia)));
  rewrite !escapes_cons in H; peel H;
  try (exfalso; lia);
  repeat peel H;
  (split; [lia|exact H]).
Qed.

Lemma escapes_utf8_head (cp : N) (r : jsstring) :
  exists t, escapes (utf8 cp) ++ r = 37%N :: t.
Proof.
  unfold utf8.
  destruct (cp <? 128)%N; [|destruct (cp <? 2048)%N; [|destruct (cp <? 65536)%N]];
    rewrite escapes_cons; unfold escape; cbn [app]; eexists; reflexivity.
Qed.

Lemma unreserved_not_percent (c : N) : unreserved c = true -> c <> 37%N.
Proof.
  intros U ->. vm_compute in U. discriminate U.
Qed.

Lemma high_range (c : N) :
  isHighSurrogate c = true -> (55296 <= c <= 56319)%N.
Proof.
  unfold isHighSurrogate. intros H. apply andb_true_iff in H as [H1 H2].
  apply N.leb_le in H1, H2. lia.
Qed.

Lemma low_range (c : N) :
  isLowSurrogate c = true -> (56320 <= c <= 57343)%N.
Proof.
  unfold isLowSurrogate. intros H. apply andb_true_iff in H as [H1 H2].
  apply N.leb_le in H1, H2. lia.
Qed.

Lemma pair_range (hi lo : N) :
  isHighSurrogate hi = true -> isLowSurrogate lo = true ->
  (65536 <= pair_code_point hi lo < 1114112)%N.
Proof.
  intros H L. apply high_range in H. apply low_range in L.
  unfold pair_code_point. lia.
Qed.

Lemma pair_inj (h1 l1 h2 l2 : N) :
  isHighSurrogate h1 = true -> isLowSurrogate l1 = true ->
  isHighSurrogate h2 = true -> isLowSurrogate l2 = true ->
  pair_code_point h1 l1 = pair_code_point h2 l2 -> h1 = h2 /\ l1 = l2.
Proof.
  intros H1 L1 H2 L2. apply high_range in H1, H2. apply low_range in L1, L2.
  unfold pair_code_point. lia.
Qed.

(** How the encoder reads the head of a text it accepts. *)
Lemma encode_cons (c : N) (s e : jsstring) :
  encodeURIComponent (c :: s) = Some e ->
  (unreserved c = true
   /\ exists r, encodeURIComponent s = Some r /\ e = c :: r)
  \/ (unreserved c = false /\ isHighSurrogate c = false
      /\ exists r, encodeURIComponent s = Some r
                   /\ e = escapes (utf8 c) ++ r)
  \/ (unreserved c = false /\ isHighSurrogate c = true
      /\ exists lo s' r,
           s = lo :: s' /\ isLowSurrogate lo = true
           /\ encodeURIComponent s' = Some r
           /\ e = escapes (utf8 (pair_code_point c lo)) ++ r).
Proof.
  cbn [encodeURIComponent]. intros E.
  destruct (unreserved c) eqn:U.
  { left. split; [reflexivity|].
    destruct (encodeURIComponent s) as [r|]; [|discriminate].
    injection E as <-. now exists r. }
  right.
  destruct (isLowSurrogate c); [discriminate|].
  destruct (isHighSurrogate c) eqn:Hi.
  - right. split; [reflexivity|]. split; [reflexivity|].
    destruct s as [|lo s']; [discriminate|].
    destruct (isLowSurrogate lo) eqn:Lo; [|discriminate].
    destruct (encodeURIComponent s') as [r|] eqn:R; [|discriminate].
    injection E as <-. now exists lo, s', r.
  - left. split; [reflexivity|]. split; [reflexivity|].
    destruct (encodeURIComponent s) as [r|]; [|discriminate].
    injection E as <-. now exists r.
Qed.

(** The encoder loses nothing: two texts of code units with the same
    encoding are the same text. *)
Lemma encode_inj (s1 s2 e : jsstring) :
  Forall (fun c => (c < 65536)%N) s1 ->
  Forall (fun c => (c < 65536)%N) s2 ->
  encodeURIComponent s1 = Some e ->
  encodeURIComponent s2 = Some e ->
  s1 = s2.
Proof.
  remember (List.length s1) as n eqn:Hn.
  revert s1 s2 e Hn. induction n as [n IH] using lt_wf_ind.
  intros s1 s2 e Hn F1 F2 E1 E2.
  destruct s1 as [|c1 s1], s2 as [|c2 s2].
  - reflexivity.
  - exfalso. injection E1 as <-.
    apply encode_cons in E2
      as [(_ & r & _ & E)|[(_ & _ & r & _ & E)|(_ & _ & lo & s' & r & _ & _ & _ & E)]];
      [discriminate| |];
      match type of E with
      | _ = escapes (utf8 ?cp) ++ ?r =>
          destruct (escapes_utf8_head cp r) as [t T]; rewrite T in E; discriminate
      end.
  - exfalso. injection E2 as <-.
    apply encode_cons in E1
      as [(_ & r & _ & E)|[(_ & _ & r & _ & E)|(_ & _ & lo & s' & r & _ & _ & _ & E)]];
      [discriminate| |];
      match type of E with
      | _ = escapes (utf8 ?cp) ++ ?r =>
          destruct (escapes_utf8_head cp r) as [t T]; rewrite T in E; discriminate
      end.
  - apply Forall_cons_iff in F1 as [B1 F1]. apply Forall_cons_iff in F2 as [B2 F2].
    apply encode_cons in E1
      as [(U1 & r1 & R1 & ->)
         |[(U1 & H1 & r1 & R1 & ->)
          |(U1 & H1 & lo1 & t1 & r1 & -> & L1 & R1 & ->)]];
    apply encode_cons in E2
      as [(U2 & r2 & R2 & E)
         |[(U2 & H2 & r2 & R2 & E)
          |(U2 & H2 & lo2 & t2 & r2 & -> & L2 & R2 & E)]].
    + injection E as -> ->. f_equal.
      apply (IH (List.length s1)) with (e := r2); auto. subst n. simpl. lia.
    + exfalso. destruct (escapes_utf8_head c2 r2) as [t T]. rewrite T in E.
      injection E as -> _. now apply unreserved_not_percent in U1.
    + exfalso.
      destruct (escapes_utf8_head (pair_code_point c2 lo2) r2) as [t T].
      rewrite T in E. injection E as -> _. now apply unreserved_not_percent in U1.
    + exfalso. destruct (escapes_utf8_head c1 r1) as [t T]. rewrite T in E.
      injection E as <- _. now apply unreserved_not_percent in U2.
    + apply escapes_utf8_inj in E as [-> ->]; [|lia|lia]. f_equal.
      apply (IH (List.length s1)) with (e := r2); auto. subst n. simpl. lia.
    + exfalso. pose proof (pair_range c2 lo2 H2 L2) as P.
      apply escapes_utf8_inj in E as [E _]; lia.
    + exfalso.
      destruct (escapes_utf8_head (pair_code_point c1 lo1) r1) as [t T].
      rewrite T in E. injection E as <- _. now apply unreserved_not_percent in U2.
    + exfalso. pose proof (pair_range c1 lo1 H1 L1) as P.
      apply escapes_utf8_inj in E as [E _]; lia.
    + pose proof (pair_range c1 lo1 H1 L1) as P1.
      pose proof (pair_range c2 lo2 H2 L2) as P2.
      apply escapes_utf8_inj in E as [E ->]; [|lia|lia].
      apply pair_inj in E as [-> ->]; auto.
      apply Forall_cons_iff in F1 as [_ F1]. apply Forall_cons_iff in F2 as [_ F2].
      do 2 f_equal.
      apply (IH (List.length t1)) with (e := r2); auto. subst n. simpl. lia.
Qed.

End UriFacts.

(** ** AddMemberModal *)

Module MemberFacts.
Import Regex AddMemberModal.

Lemma hexDigit_safe (n : N) : (n < 16)%N -> Uri.uri_safe (Uri.hexDigit n) = true.
Proof.
  intros H. unfold Uri.uri_safe, Uri.unreserved, Uri.hexDigit, isUpper, isLower, isDigit.
  destruct (N.ltb_spec n 10).
  - replace ((48 <=? 48 + n) && (48 + n <=? 57))%N with true; [now rewrite !orb_true_r|].
    symmetry. apply andb_true_iff. split; apply N.leb_le; lia.
  - replace ((65 <=? 55 + n) && (55 + n <=? 90))%N with true; [reflexivity|].
    symmetry. apply andb_true_iff. split; apply N.leb_le; lia.
Qed.

Lemma escape_safe (o : N) : forallb Uri.uri_safe (Uri.escape o) = true.
Proof.
  unfold Uri.escape. cbn [forallb].
  rewrite !hexDigit_safe; [reflexivity| |]; apply N.mod_lt; discriminate.
Qed.

Lemma escapes_safe (os : list N) : forallb Uri.uri_safe (Uri.escapes os) = true.
Proof.
  induction os as [|o os IH]; [reflexivity|].
  unfold Uri.escapes in *. cbn [flat_map]. rewrite forallb_app, escape_safe, IH.
  reflexivity.
Qed.

(** Whatever [encodeURIComponent] returns is made of unreserved
    characters and percent escapes. *)
Lemma encode_safe (s enc : jsstring) :
  Uri.encodeURIComponent s = Some enc -> forallb Uri.uri_safe enc = true.
Proof.
  remember (List.length s) as n eqn:Hn.
  revert s enc Hn. induction n as [n IH] using lt_wf_ind. intros s enc Hn E.
  destruct s as [|c s]; [injection E as <-; reflexivity|].
  cbn [Uri.encodeURIComponent] in E.
  destruct (Uri.unreserved c) eqn:U.
  { destruct (Uri.encodeURIComponent s) as [r|] eqn:R; [|discriminate].
    injection E as <-. cbn [forallb]. unfold Uri.uri_safe at 1. rewrite U.
    apply (IH (List.length s)) in R; [exact R| subst; simpl; lia | reflexivity]. }
  destruct (Uri.isLowSurrogate c); [discriminate|].
  destruct (Uri.isHighSurrogate c).
  - destruct s as [|lo s]; [discriminate|].
    destruct (Uri.isLowSurrogate lo); [|discriminate].
    destruct (Uri.encodeURIComponent s) as [r|] eqn:R; [|discriminate].
    injection E as <-. rewrite forallb_app, escapes_safe.
    apply (IH (List.length s)) in R; [exact R| subst; simpl; lia | reflexivity].
  - destruct (Uri.encodeURIComponent s) as [r|] eqn:R; [|discriminate].
    injection E as <-. rewrite forallb_app, escapes_safe.
    apply (IH (List.length s)) in R; [exact R| subst; simpl; lia | reflexivity].
Qed.

(** The encoder throws exactly for a surrogate without its partner. *)
Lemma encode_throws_iff (s : jsstring) :
  Uri.encodeURIComponent s = None <-> Uri.well_formed s = false.
Proof.
  remember (List.length s) as n eqn:Hn.
  revert s Hn. induction n as [n IH] using lt_wf_ind. intros s Hn.
  destruct s as [|c s]; [split; discriminate|].
  cbn [Uri.encodeURIComponent Uri.well_formed].
  assert (I1 : Uri.encodeURIComponent s = None <-> Uri.well_formed s = false).
  { apply (IH (List.length s)); [subst; simpl; lia|reflexivity]. }
  destruct (Uri.unreserved c) eqn:U.
  { assert (L : Uri.isLowSurrogate c = false /\ Uri.isHighSurrogate c = false).
    { unfold Uri.unreserved, Uri.isLowSurrogate, Uri.isHighSurrogate,
        isUpper, isLower, isDigit in *. cbn [existsb] in U.
      split; apply andb_false_iff;
        repeat (apply orb_true_iff in U as [U|U]);
        try (apply andb_true_iff in U as [U1 U2]; apply N.leb_le in U1, U2);
        try (apply N.eqb_eq in U);
        try discriminate;
        first [ left; apply N.leb_gt; lia | right; apply N.leb_gt; lia ]. }
    destruct L as [-> ->].
    destruct (Uri.encodeURIComponent s); cbn [option_map];
      [split; [discriminate|intros H; apply I1 in H; discriminate]
      |split; [intros _; now apply I1|reflexivity]]. }
  destruct (Uri.isLowSurrogate c); [split; reflexivity|].
  destruct (Uri.isHighSurrogate c).
  - destruct s as [|lo s]; [split; reflexivity|].
    assert (I2 : Uri.encodeURIComponent s = None <-> Uri.well_formed s = false).
    { apply (IH (List.length s)); [subst; simpl; lia|reflexivity]. }
    destruct (Uri.isLowSurrogate lo); [|split; reflexivity].
    cbn [andb].
    destruct (Uri.encodeURIComponent s); cbn [option_map];
      [split; [discriminate|intros H; apply I2 in H; discriminate]
      |split; [intros _; now apply I2|reflexivity]].
  - destruct (Uri.encodeURIComponent s); cbn [option_map];
      [split; [discriminate|intros H; apply I1 in H; discriminate]
      |split; [intros _; now apply I1|reflexivity]].
Qed.

Ltac run_submit Hemail :=
  unfold after, effects, handleSubmit, encoded; rewrite Hemail; cbn;
  repeat (match goal with
          | H : ?x = _ |- context [?x] => rewrite H
          end; cbn).

(** Every request of [handleSubmit] is the invitation, for an address
    that does not trim to the empty string and that the encoder
    accepted. *)
Lemma invite_requests (c : Closure) (snap : State) (w : Answers) (q : request) :
  In (Call (Fetch q)) (effects (handleSubmit c snap w)) ->
  truthy (trim (email snap)) = true
  /\ exists t enc,
       a_token w = Returned t
       /\ Uri.encodeURIComponent (email snap) = Some enc
       /\ q = invite_request c t enc.
Proof.
  intros Hin.
  destruct (truthy (trim (email snap))) eqn:Hemail.
  2:{ unfold effects, handleSubmit in Hin. rewrite Hemail in Hin.
      cbn in Hin. intuition discriminate. }
  split; [reflexivity|].
  destruct w as [[t|e] resp ue].
  2:{ unfold effects, handleSubmit in Hin. rewrite Hemail in Hin. cbn in Hin.
      intuition discriminate. }
  destruct (Uri.encodeURIComponent (email snap)) as [enc|] eqn:En.
  2:{ unfold effects, handleSubmit, encoded in Hin.
      rewrite Hemail, En in Hin. cbn in Hin. intuition discriminate. }
  exists t, enc. split; [reflexivity|]. split; [reflexivity|].
  unfold effects, handleSubmit, encoded in Hin. rewrite Hemail, En in Hin.
  destruct resp as [r|e]; cbn in Hin.
  2:{ repeat (destruct Hin as [Hin|Hin];
              [try discriminate; injection Hin as <-; reflexivity|]);
      destruct Hin. }
  destruct (ok r) eqn:Hok; cbn in Hin;
    repeat (destruct Hin as [Hin|Hin];
            [try discriminate; injection Hin as <-; reflexivity|]);
    destruct Hin.
Qed.

(** The cases of [invite_sent] and [invite_failure] leave nothing out. *)
Lemma sent_or_failed (snap : State) (w : Answers) :
  invite_sent snap w \/ exists msg, invite_failure snap w msg.
Proof.
  destruct (a_token w) as [t|e] eqn:Ht.
  2:{ right. eexists. eapply if_token; eauto. }
  destruct (Uri.encodeURIComponent (email snap)) as [enc|] eqn:En.
  2:{ right. eexists. eapply if_uri; eauto. }
  destruct (a_response w) as [r|e] eqn:Hr.
  2:{ right. eexists. eapply if_fetch; eauto. }
  destruct (ok r) eqn:Hok.
  - left. now exists t, enc, r.
  - right. eexists. eapply if_status; eauto.
Qed.

(** X14.  A submit of a non-blank address never throws and leaves
    [loading] false.  When the server accepts the invitation, the
    success toast is shown, the field is emptied and the modal closed,
    after one request carrying the token.  In every other case a single
    error toast shows the message of the error (or "Failed to send
    invite" when it has none), the modal stays open, and the address
    typed is kept.  One of the two always happens. *)
Theorem X14_invite_sent_or_reported
    (c : Closure) (snap : State) (w : Answers) (s : State) :
  truthy (trim (email snap)) = true ->
  let run := handleSubmit c snap w in
  out run = Returned tt
  /\ loading (after run s) = false
  /\ (invite_sent snap w ->
        (exists t enc,
            a_token w = Returned t
            /\ Uri.encodeURIComponent (email snap) = Some enc
            /\ calls (effects run)
               = [ PreventDefault; GetIdToken; Fetch (invite_request c t enc);
                   ShowSuccess (js "Invitation sent successfully!"); OnClose ])
        /\ email (after run s) = [])
  /\ (forall msg, invite_failure snap w msg ->
        (exists pre,
            calls (effects run)
            = pre ++ [ShowError (or_else (Some msg) (js "Failed to send invite"))]
            /\ forall e, In e pre ->
                 e = PreventDefault \/ e = GetIdToken \/ exists q, e = Fetch q)
        /\ email (after run s) = email s)
  /\ (invite_sent snap w \/ exists msg, invite_failure snap w msg).
Proof.
  intros Hemail run. subst run.
  split.
  { destruct w as [[t|e] resp ue]; [|run_submit Hemail; reflexivity].
    destruct (Uri.encodeURIComponent (email snap)) eqn:En;
      [|run_submit Hemail; reflexivity].
    destruct resp as [r|e]; [|run_submit Hemail; reflexivity].
    destruct (ok r) eqn:Hok; run_submit Hemail; reflexivity. }
  split.
  { destruct w as [[t|e] resp ue]; [|run_submit Hemail; reflexivity].
    destruct (Uri.encodeURIComponent (email snap)) eqn:En;
      [|run_submit Hemail; reflexivity].
    destruct resp as [r|e]; [|run_submit Hemail; reflexivity].
    destruct (ok r) eqn:Hok; run_submit Hemail; reflexivity. }
  split.
  { intros (t & enc & r & Ht & En & Hr & Hok).
    destruct w as [tok resp ue]. cbn [a_token a_response] in *. subst tok resp.
    split; [exists t, enc; split; [reflexivity|split; [exact En|]]|];
      run_submit Hemail; reflexivity. }
  split; [|apply sent_or_failed].
  intros msg F. destruct w as [tok resp ue].
  destruct F as [e Ht ->|t Ht En ->|t enc e Ht En Hr ->|t enc r Ht En Hr Hok ->];
    cbn [a_token a_response uri_error] in *; subst.
  - split; [exists [PreventDefault; GetIdToken]; split|];
      [run_submit Hemail; reflexivity| |run_submit Hemail; reflexivity].
    intros x [<-|[<-|[]]]; auto.
  - split; [exists [PreventDefault; GetIdToken]; split|];
      [run_submit Hemail; reflexivity| |run_submit Hemail; reflexivity].
    intros x [<-|[<-|[]]]; auto.
  - split; [exists [PreventDefault; GetIdToken; Fetch (invite_request c t enc)]; split|];
      [run_submit Hemail; reflexivity| |run_submit Hemail; reflexivity].
    intros x [<-|[<-|[<-|[]]]]; eauto.
  - split; [exists [PreventDefault; GetIdToken; Fetch (invite_request c t enc)]; split|];
      [run_submit Hemail; reflexivity| |run_submit Hemail; reflexivity].
    intros x [<-|[<-|[<-|[]]]]; eauto.
Qed.

Lemma X14_witness :
  let c := {| teamId := Some (js "t1") |} in
  let snap := {| email := js "bob@x.org"; loading := false |} in
  let w := {| a_token := Returned Examples.some_token;
              a_response := Returned (Examples.answer 400 (js "<html>")
                                        Examples.not_json);
              uri_error := Error (js "URI malformed") |} in
  invite_failure snap w (js "Failed to send invite")
  /\ email (after (handleSubmit c snap w) snap) = js "bob@x.org".
Proof.
  intros c snap w.
  assert (F : invite_failure snap w (js "Failed to send invite")).
  { eapply if_status; reflexivity. }
  split; [exact F|].
  destruct (X14_invite_sent_or_reported c snap w snap eq_refl)
    as (_ & _ & _ & H4 & _).
  exact (proj2 (H4 _ F)).
Defined.

(** X15.  Every request the member modal sends is a POST to
    [/teams/<teamId>/invite?invitee_email=<enc>] with the bearer token,
    for an address that is not blank; [enc], the encoded address, is made
    of letters, digits, [- _ . ! ~ * ' ( )] and percent escapes only, so
    it holds no [&], [=], [#], [?], [/], [+] or space that would change
    the query. *)
Theorem X15_invite_url_is_safe
    (c : Closure) (snap : State) (w : Answers) (q : request) :
  In (Call (Fetch q)) (effects (handleSubmit c snap w)) ->
  trim (email snap) <> []
  /\ exists t enc,
       a_token w = Returned t
       /\ Uri.encodeURIComponent (email snap) = Some enc
       /\ method q = js "POST"
       /\ authorization q = bearer t
       /\ url q = js "/teams/" ++ interpolate (teamId c)
                  ++ js "/invite?invitee_email=" ++ enc
       /\ Forall (fun x => Uri.uri_safe x = true) enc
       /\ forall x, In x (js "&=#?/+ ") -> ~ In x enc.
Proof.
  intros Hin. apply invite_requests in Hin as (Hemail & t & enc & Ht & En & ->).
  split; [intros N; now rewrite N in Hemail|].
  exists t, enc.
  pose proof (encode_safe _ _ En) as Safe. rewrite forallb_forall in Safe.
  repeat (split; [first [assumption|reflexivity]|]).
  split; [now apply Forall_forall|].
  intros x Hx Hin. apply Safe in Hin.
  vm_compute in Hx.
  repeat (destruct Hx as [<-|Hx]; [vm_compute in Hin; discriminate Hin|]).
  destruct Hx.
Qed.

Lemma X15_witness :
  let c := {| teamId := Some (js "t1") |} in
  let snap := {| email := js "a&b=c@x.org"; loading := false |} in
  let w := {| a_token := Returned Examples.some_token;
              a_response := Returned (Examples.answer 200 (js "{}")
                                        (Returned {| detail := None |}));
              uri_error := Error (js "URI malformed") |} in
  let q := invite_request c Examples.some_token (js "a%26b%3Dc%40x.org") in
  In (Call (Fetch q)) (effects (handleSubmit c snap w))
  /\ trim (email snap) <> [].
Proof.
  intros c snap w q.
  assert (Hin : In (Call (W := setter) (Fetch q)) (effects (handleSubmit c snap w))).
  { vm_compute. auto 10. }
  split; [exact Hin|].
  exact (proj1 (X15_invite_url_is_safe c snap w q Hin)).
Defined.

(** X16.  After [openAddMemberModal] was called for a team, the sidebar
    renders the member modal open with that team's id, whatever the
    sidebar showed before, and keeps its project list; every request a
    submit then sends goes to [/teams/<that id>/invite]. *)
Theorem X16_modal_invites_to_the_opened_team
    (id : jsstring) (s : ProjectSidebar.State)
    (snap : State) (w : Answers) (q : request) :
  let s' := ProjectSidebar.after (ProjectSidebar.openAddMemberModal id) s in
  fst (props_from s') = true
  /\ teamId (snd (props_from s')) = Some id
  /\ ProjectSidebar.projects s' = ProjectSidebar.projects s
  /\ (In (Call (Fetch q)) (effects (handleSubmit (snd (props_from s')) snap w)) ->
      exists enc,
        Uri.encodeURIComponent (email snap) = Some enc
        /\ url q = js "/teams/" ++ id ++ js "/invite?invitee_email=" ++ enc).
Proof.
  intros s'. subst s'. cbn.
  repeat (split; [reflexivity|]).
  intros Hin. apply invite_requests in Hin as (_ & t & enc & _ & En & ->).
  exists enc. split; [exact En|reflexivity].
Qed.

(** X22.  The invitation URL determines the address: two submits for
    the same team whose requests are equal were made with the same
    text in the field, so the server can recover exactly what was
    typed. *)
Theorem X22_url_determines_the_address
    (c : Closure) (snap1 snap2 : State) (w1 w2 : Answers) (q : request) :
  Forall (fun x => (x < 65536)%N) (email snap1) ->
  Forall (fun x => (x < 65536)%N) (email snap2) ->
  In (Call (Fetch q)) (effects (handleSubmit c snap1 w1)) ->
  In (Call (Fetch q)) (effects (handleSubmit c snap2 w2)) ->
  email snap1 = email snap2.
Proof.
  intros F1 F2 H1 H2.
  apply invite_requests in H1 as (_ & t1 & e1 & _ & E1 & ->).
  apply invite_requests in H2 as (_ & t2 & e2 & _ & E2 & Q).
  apply (f_equal url) in Q. cbn [url invite_request] in Q. unfold invite_url in Q.
  do 3 apply app_inv_head in Q. subst e2.
  exact (UriFacts.encode_inj _ _ _ F1 F2 E1 E2).
Qed.

Lemma X22_witness :
  let c := {| teamId := Some (js "t1") |} in
  let snap := {| email := js "bob@x.org"; loading := false |} in
  let w1 := {| a_token := Returned Examples.some_token;
               a_response := Examples.network_down;
               uri_error := Error (js "URI malformed") |} in
  let w2 := {| a_token := Returned Examples.some_token;
               a_response := Returned (Examples.answer 200 (js "{}")
                                         (Returned {| detail := None |}));
               uri_error := Error (js "URI malformed") |} in
  let q := invite_request c Examples.some_token (js "bob%40x.org") in
  In (Call (Fetch q)) (effects (handleSubmit c snap w1))
  /\ In (Call (Fetch q)) (effects (handleSubmit c snap w2))
  /\ email snap = email snap.
Proof.
  intros c snap w1 w2 q.
  assert (F : Forall (fun x => (x < 65536)%N) (email snap)).
  { repeat (apply Forall_cons; [reflexivity|]). apply Forall_nil. }
  assert (H1 : In (Call (W := setter) (Fetch q)) (effects (handleSubmit c snap w1))).
  { vm_compute. auto 10. }
  assert (H2 : In (Call (W := setter) (Fetch q)) (effects (handleSubmit c snap w2))).
  { vm_compute. auto 10. }
  split; [exact H1|]. split; [exact H2|].
  exact (X22_url_determines_the_address c snap snap w1 w2 q F F H1 H2).
Defined.

(** X23.  A submit sends a request exactly when the address is not
    blank, the token was obtained, and every surrogate in the address
    has its partner; in particular an address with a lone surrogate is
    never sent. *)
Theorem X23_request_sent_iff_well_formed
    (c : Closure) (snap : State) (w : Answers) :
  (exists q, In (Call (Fetch q)) (effects (handleSubmit c snap w)))
  <-> (trim (email snap) <> []
       /\ (exists t, a_token w = Returned t)
       /\ Uri.well_formed (email snap) = true).
Proof.
  split.
  - intros (q & Hin).
    apply invite_requests in Hin as (Hemail & t & enc & Ht & En & _).
    split; [intros N; now rewrite N in Hemail|].
    split; [now exists t|].
    destruct (Uri.well_formed (email snap)) eqn:Wf; [reflexivity|].
    apply encode_throws_iff in Wf. rewrite Wf in En. discriminate En.
  - intros (Hemail & (t & Ht) & Wf).
    assert (T : truthy (trim (email snap)) = true).
    { destruct (trim (email snap)); [contradiction|reflexivity]. }
    destruct (Uri.encodeURIComponent (email snap)) as [enc|] eqn:En.
    2:{ apply encode_throws_iff in En. rewrite En in Wf. discriminate Wf. }
    exists (invite_request c t enc).
    destruct w as [tok resp ue]. cbn [a_token] in Ht. subst tok.
    unfold effects, handleSubmit, encoded. rewrite T, En.
    destruct resp as [r|e]; [destruct (ok r) eqn:Hok|]; cbn; rewrite ?Hok; cbn;
      auto 10.
Qed.

End MemberFacts.

(** ** ThinkBuddyAssistant, on every answer *)

Module AssistantMore.
Import ThinkBuddyAssistant Observe Outcomes.

Ltac run_handler :=
  cbn;
  repeat (match goal with
          | H : ?x = _ |- context [?x] => rewrite H
          end; cbn).

Lemma ids_of_history (es : list HistoryEntry) (i : nat) :
  map id (mapi_from i formatted es) = map Z.of_nat (seq i (List.length es)).
Proof.
  revert i. induction es as [|e es IH]; intros i; [reflexivity|].
  cbn [mapi_from map List.length seq]. now rewrite IH.
Qed.

Lemma NoDup_map_inj (A B : Type) (f : A -> B) (l : list A) :
  (forall a b, f a = f b -> a = b) -> NoDup l -> NoDup (map f l).
Proof.
  intros Inj N. induction N as [|x l Hx N IH]; cbn [map]; constructor; auto.
  intros Hin. apply in_map_iff in Hin as (y & E & Hy).
  apply Inj in E. subst y. contradiction.
Qed.

(** X17.  A message that is sent (not blank, no reply awaited) appends
    exactly two messages to the list the handler finds: the user's
    turn and then an assistant message, which is the server's reply
    when one was read and otherwise an error message flagged
    [isError] that quotes the error, which is also stored in [error].
    While the handler waits, the typing indicator is on and the user's
    turn is already displayed; at the end the indicator is off and the
    input is empty.  The handler never throws. *)
Theorem X17_send_appends_turn_and_reply
    (snap : State) (custom : option jsstring) (w : ChatAnswers) (s : State) :
  truthy (messageToSend_of snap custom) = true ->
  isTyping snap = false ->
  let msg := messageToSend_of snap custom in
  let run := handleSendMessage snap custom w in
  out run = Returned tt
  /\ isTyping (after run s) = false
  /\ inputMessage (after run s) = []
  /\ Forall (fun s' => isTyping s' = true
                       /\ messages s' = messages s ++ [userMessage msg (c_clock w)])
            (yields apply (effects run) s)
  /\ exists reply,
       messages (after run s)
       = messages s ++ [userMessage msg (c_clock w); reply]
       /\ chat_role reply = js "assistant"
       /\ match reply_of w with
          | Some d =>
              reply = assistantMessage d (c_clock w)
              /\ error (after run s) = None
          | None =>
              isError reply = true
              /\ exists m,
                   error (after run s) = Some m
                   /\ content reply
                      = js "Sorry, I encountered an error: " ++ m
                        ++ js ". Please try again."
          end.
Proof.
  intros Hmsg Hty msg run. subst msg run.
  unfold after, effects, handleSendMessage, reply_of.
  rewrite Hmsg, Hty. cbn [negb orb].
  destruct w as [[t|e] resp clk]; cbn [c_token c_response c_clock].
  2:{ run_handler. repeat (split; [reflexivity|]).
      split; [repeat constructor|].
      eexists. rewrite <- app_assoc.
      split; [reflexivity|]. split; [reflexivity|]. split; [reflexivity|].
      eexists; split; reflexivity. }
  destruct resp as [r|e].
  2:{ run_handler. repeat (split; [reflexivity|]).
      split; [repeat constructor|].
      eexists. rewrite <- app_assoc.
      split; [reflexivity|]. split; [reflexivity|]. split; [reflexivity|].
      eexists; split; reflexivity. }
  destruct (ok r) eqn:Hok, (json r) as [d|e] eqn:J; run_handler;
    repeat (split; [reflexivity|]);
    (split; [repeat constructor|]);
    eexists; rewrite <- app_assoc;
    (split; [reflexivity|]); (split; [reflexivity|]);
    first [ split; reflexivity
          | split; [reflexivity|]; eexists; split; reflexivity ].
Qed.

Lemma X17_witness :
  let snap := {| messages := []; inputMessage := js " hello ";
                 isTyping := false; selectedProject := Some Examples.demo;
                 loading := false; error := None |} in
  let w := {| c_token := Returned Examples.some_token;
              c_response := Examples.network_down;
              c_clock := Examples.clock0 |} in
  let run := handleSendMessage snap None w in
  isTyping (after run snap) = false
  /\ List.length (messages (after run snap)) = 2%nat.
Proof.
  intros snap w run.
  destruct (X17_send_appends_turn_and_reply snap None w snap eq_refl eq_refl)
    as (_ & H2 & _ & _ & reply & H5 & _).
  split; [exact H2|].
  fold run in H5. rewrite H5. reflexivity.
Defined.

(** X18.  [loadChatHistory] never throws and always ends with [loading]
    false, having shown the spinner at every point where it waited.
    When no history could be read (no token, no answer, a failure
    status, an unreadable body) it stores the error "Failed to load chat
    history" and replaces the messages by the single fallback greeting.
    When one was read it clears the error, and the messages it stores
    are numbered [0 .. n-1] in order (or hold the one welcome message
    numbered 1), so their ids are distinct. *)
Theorem X18_history_failure_shows_fallback
    (snap : State) (w : HistoryAnswers) (s : State) :
  let run := loadChatHistory snap w in
  out run = Returned tt
  /\ loading (after run s) = false
  /\ Forall (fun s' => loading s' = true) (yields apply (effects run) s)
  /\ match history_of w with
     | None =>
         error (after run s) = Some (js "Failed to load chat history")
         /\ messages (after run s) = [fallback (h_clock w)]
     | Some d =>
         error (after run s) = None
         /\ map id (messages (after run s))
            = match nonempty_history d with
              | Some entries => map Z.of_nat (seq 0 (List.length entries))
              | None => [1%Z]
              end
         /\ NoDup (map id (messages (after run s)))
     end.
Proof.
  intros run. subst run.
  unfold after, effects, loadChatHistory, history_of.
  destruct w as [[t|e] resp clk]; cbn [h_token h_response h_clock].
  2:{ run_handler. repeat (split; [reflexivity|]).
      split; [repeat constructor|]. split; reflexivity. }
  destruct resp as [r|e].
  2:{ run_handler. repeat (split; [reflexivity|]).
      split; [repeat constructor|]. split; reflexivity. }
  destruct (ok r) eqn:Hok.
  2:{ run_handler. repeat (split; [reflexivity|]).
      split; [repeat constructor|]. split; reflexivity. }
  destruct (json r) as [d|e] eqn:J.
  2:{ run_handler. repeat (split; [reflexivity|]).
      split; [repeat constructor|]. split; reflexivity. }
  destruct (nonempty_history d) as [entries|] eqn:H; run_handler;
    repeat (split; [reflexivity|]);
    (split; [repeat constructor|]); (split; [reflexivity|]).
  - unfold mapi. rewrite ids_of_history. split; [reflexivity|].
    apply NoDup_map_inj; [|apply seq_NoDup].
    intros a b E. now apply Nat2Z.inj.
  - split; [reflexivity|]. repeat constructor. intros [].
Qed.

(** X19.  [clearChatHistory] asks for confirmation first.  Declined, it
    does nothing more.  Confirmed, it sends one POST to the clear
    endpoint of the selected project; when the server accepts, the
    messages are replaced by the single "history cleared" greeting and
    the stored error is left as it was; in every other case the
    messages stay and the error becomes "Failed to clear chat
    history".  It never throws and touches neither the input, the
    typing indicator nor the spinner. *)
Theorem X19_clear_replaces_or_reports
    (snap : State) (confirmed : bool) (w : ClearAnswers) (s : State) :
  let run := clearChatHistory snap confirmed w in
  let ask := ShowConfirm
               (js "Are you sure you want to clear the chat history for this project?") in
  out run = Returned tt
  /\ (exists rest, calls (effects run) = ask :: rest
                   /\ (confirmed = false -> effects run = [Call ask]))
  /\ (forall q, In (Call (Fetch q)) (effects run) ->
        exists t, k_token w = Returned t
                  /\ q = clear_request t (projectId_of snap))
  /\ (if confirmed && cleared w
      then messages (after run s)
           = [assistant_says (js "Chat history cleared! How can I help you?")
                             (ISO (k_clock w 0%nat))]
           /\ error (after run s) = error s
      else messages (after run s) = messages s
           /\ error (after run s)
              = if confirmed then Some (js "Failed to clear chat history")
                else error s)
  /\ inputMessage (after run s) = inputMessage s
  /\ isTyping (after run s) = isTyping s
  /\ loading (after run s) = loading s.
Proof.
  intros run ask. subst run ask.
  unfold after, effects, clearChatHistory, cleared.
  destruct confirmed.
  2:{ cbn. split; [reflexivity|]. split; [eexists; split; reflexivity|].
      split; [intros q [H|[]]; discriminate|]. repeat split; reflexivity. }
  destruct w as [[t|e] resp clk]; cbn [k_token k_response k_clock andb].
  2:{ run_handler. split; [reflexivity|].
      split; [eexists; split; [reflexivity|discriminate]|].
      split; [intros q H; repeat (destruct H as [H|H]; [discriminate|]); destruct H|].
      repeat split; reflexivity. }
  destruct resp as [r|e].
  2:{ run_handler. split; [reflexivity|].
      split; [eexists; split; [reflexivity|discriminate]|].
      split; [intros q H;
              repeat (destruct H as [H|H];
                      [try discriminate; injection H as <-; eauto|]);
              destruct H|].
      repeat split; reflexivity. }
  destruct (ok r) eqn:Hok; run_handler;
    (split; [reflexivity|]);
    (split; [eexists; split; [reflexivity|discriminate]|]);
    (split; [intros q H;
             repeat (destruct H as [H|H];
                     [try discriminate; injection H as <-; eauto|]);
             destruct H|]);
    repeat split; reflexivity.
Qed.

(** X20.  In every state the pane reaches, the typing indicator is on
    only while a suspended [handleSendMessage] is still to switch it
    off: if [isTyping] is true, exactly one pending handler has the
    write [setIsTyping(false)] ahead of it, and if no handler is
    pending the indicator is off, so the send button cannot stay
    blocked by it. *)
Theorem X20_typing_indicator_is_reset
    (projects : list Project) (sys : System) :
  reachable projects sys ->
  (isTyping (ui sys) = true ->
     exists l1 tk l2,
       pending sys = l1 ++ tk :: l2
       /\ typing_writes (rest tk) = [false]
       /\ (forall tk', In tk' (l1 ++ l2) -> typing_writes (rest tk') = []))
  /\ (pending sys = [] -> isTyping (ui sys) = false).
Proof.
  intros R. destruct (AssistantFacts.reachable_invariant projects sys R) as [F C].
  split.
  - intros Hty. rewrite Hty in C.
    assert (G : forall l : list task,
               Forall task_ok l ->
               List.length (filter sending l) = 1%nat ->
               exists l1 tk l2,
                 l = l1 ++ tk :: l2
                 /\ typing_writes (rest tk) = [false]
                 /\ forall tk', In tk' (l1 ++ l2) -> typing_writes (rest tk') = []).
    { clear. induction l as [|a l IH]; intros F C; [discriminate C|].
      inversion F as [|? ? Ha Fl]; subst. cbn [filter] in C.
      destruct (sending a) eqn:Sa.
      - exists [], a, l. split; [reflexivity|].
        assert (Ta : typing_writes (rest a) = [false]).
        { unfold sending in Sa.
          destruct (typing_writes (rest a)) as [|[|] [|? ?]]; try discriminate.
          reflexivity. }
        split; [exact Ta|].
        cbn [app]. intros tk' Hin.
        assert (Sk : sending tk' = false).
        { destruct (sending tk') eqn:Sk; [|reflexivity].
          assert (In tk' (filter sending l)) by (apply filter_In; now split).
          cbn [List.length] in C. injection C as C.
          destruct (filter sending l); [contradiction|discriminate]. }
        rewrite Forall_forall in Fl. destruct (Fl tk' Hin) as ([T|T] & _); [exact T|].
        unfold sending in Sk. now rewrite T in Sk.
      - destruct (IH Fl C) as (l1 & tk & l2 & -> & T & N).
        exists (a :: l1), tk, l2. split; [reflexivity|]. split; [exact T|].
        intros tk' [<-|Hin]; [|now apply N].
        destruct Ha as ([Ta|Ta] & _); [exact Ta|].
        unfold sending in Sa. now rewrite Ta in Sa. }
    now apply G.
  - intros P. rewrite P in C. cbn in C. destruct (isTyping (ui sys)); [discriminate|reflexivity].
Qed.

Lemma X20_witness :
  let w := {| c_token := Returned Examples.some_token;
              c_response := Examples.network_down;
              c_clock := Examples.clock0 |} in
  let sys1 := advance (effects (handler [] (ui boot)
                                  (ClickPrompt (js "Review my code") w)))
                      (ui boot) (pending boot) [] in
  reachable [] sys1
  /\ exists l1 tk l2,
       pending sys1 = l1 ++ tk :: l2 /\ typing_writes (rest tk) = [false].
Proof.
  intros w sys1.
  assert (R : reachable [] sys1).
  { eapply reach_step; [apply reach_boot|].
    apply (step_trigger [] boot (ClickPrompt (js "Review my code") w)).
    simpl. auto 6. }
  split; [exact R|].
  destruct (proj1 (X20_typing_indicator_is_reset [] sys1 R) eq_refl)
    as (l1 & tk & l2 & P & T & _).
  exists l1, tk, l2. split; [exact P|exact T].
Defined.

(** X24.  The send button is disabled exactly when a click on it would
    do nothing: the [disabled] attribute and the guard of
    [handleSendMessage] agree.  With the button disabled, Enter in the
    textarea only has its default action prevented; with it enabled, a
    click first displays the trimmed input as the user's turn. *)
Theorem X24_send_button_matches_guard (snap : State) (w : ChatAnswers) :
  (sendDisabled snap = true <-> effects (handleSendClick snap w) = [])
  /\ (sendDisabled snap = true ->
      forall key shiftKey e,
        In e (effects (handleKeyPress snap key shiftKey w)) ->
        e = Call PreventDefault)
  /\ (sendDisabled snap = false ->
      exists rest,
        effects (handleSendClick snap w)
        = Write (AppendMessage (userMessage (trim (inputMessage snap)) (c_clock w)))
          :: rest).
Proof.
  unfold sendDisabled, handleSendClick. rewrite effects_spawn.
  assert (G : negb (truthy (trim (inputMessage snap))) || isTyping snap = true ->
              handleSendMessage snap None w = ret tt).
  { intros D. unfold handleSendMessage, messageToSend_of. cbn [or_else].
    now rewrite D. }
  assert (S : negb (truthy (trim (inputMessage snap))) || isTyping snap = false ->
              exists rest,
                effects (handleSendMessage snap None w)
                = Write (AppendMessage (userMessage (trim (inputMessage snap))
                                                    (c_clock w))) :: rest).
  { intros D. unfold effects, handleSendMessage, messageToSend_of. cbn [or_else].
    rewrite D.
    destruct w as [[t|e] resp clk]; [|cbn; eexists; reflexivity].
    destruct resp as [r|e]; [|cbn; eexists; reflexivity].
    destruct (ok r) eqn:Hok, (json r) as [d|e] eqn:J; cbn; rewrite ?Hok; cbn;
      rewrite ?J; cbn; eexists; reflexivity. }
  split; [split|split].
  - intros D. now rewrite (G D).
  - intros E.
    destruct (negb (truthy (trim (inputMessage snap))) || isTyping snap) eqn:D;
      [reflexivity|].
    destruct (S eq_refl) as [rest R]. rewrite R in E. discriminate E.
  - intros D key shiftKey e Hin.
    rewrite AssistantFacts.handleKeyPress_effects, (G D) in Hin.
    destruct (Js.eqb key (js "Enter") && negb shiftKey); [|destruct Hin].
    destruct Hin as [<-|[]]. reflexivity.
  - exact S.
Qed.

End AssistantMore.

(** ** ThinkBuddyAssistant: the selection *)

Module SelectionFacts.
Import ThinkBuddyAssistant.













End SelectionFacts.
